(** * Local Supermemory: the memory / retrieval / profile engine of [server.js]

    A shallow embedding of the request handlers of [src/server.js] and of the
    helper functions they call ([tokenize], [computeSimilarity],
    [extractFacts]), followed by the properties of the specification that
    concern them.  The client of the server ([LocalSupermemoryClient]), the
    tool [supermemory_forget], [parseConfig] and [detectCategory] of the
    plugin are embedded after the server, and their properties come last.

    Conventions of the embedding.
    - A JavaScript number is an IEEE 754 binary64 value: Rocq's primitive
      [float], whose operations are the same correctly rounded ones.
    - A JavaScript string is a sequence of UTF-16 code units.  The embedding
      covers the strings whose code units are below 256 (ASCII and the Latin-1
      supplement) and represents them by [string]; [toLowerCase], the regular
      expression classes [\w] and [\s], and [trim] are written out for that
      range, on which they are exact.
    - The SQLite database is a record of two tables, each the list of its rows
      in insertion (rowid) order; every handler takes the database and returns
      the new database with the HTTP response.
    - [new Date().toISOString()] and [uuidv4()] are inputs of the handlers
      that call them.
    - Request fields have the types the interface declares (strings, lists
      of strings, integers); a field that is absent is [None].
    - An HTTP request of the client is the call of the handler of its
      endpoint; the database the handler leaves is carried on to the next.
    - Left out: the wall-clock [timing] of a search, [totalPages] of a
      listing, the lists of static and dynamic facts of a profile, and the
      failures of the storage layer other than a refused primary key.  Two of
      these failures are within reach of a request: SQLite prepares no
      statement of more than 32766 parameters, and takes no [LIMIT] or
      [OFFSET] that is not a 64-bit integer; the handler then answers 500 and
      changes nothing.  The properties of [deleteBulk] and of [documents_list]
      that a longer array or a larger number would falsify state the bound
      ([SQLITE_MAX_VARIABLE_NUMBER], [MAX_SAFE_INTEGER]). *)

From Stdlib Require Import ZArith List String Ascii Bool Lia Floats.
From Stdlib Require Import Permutation Sorted ListSet.
Import ListNotations.

Local Open Scope string_scope.
Local Open Scope list_scope.

(** ** JavaScript numbers *)

Definition number := float.

(** The number of a count ([array.length], [set.size], a counter stepped by
    [++]): [n] increments from [0].  The increments are exact up to 2^53
    ([Prim2SF_Number_of_nat] below), which no length of a JavaScript array or
    string exceeds. *)
Fixpoint Number_of_nat (n : nat) : number :=
  match n with
  | O => 0%float
  | S k => (Number_of_nat k + 1)%float
  end.

(** [Math.min(a, b)]: NaN if either argument is NaN, otherwise the smaller
    one, with [-0] smaller than [+0]. *)
Definition Math_min (a b : number) : number :=
  if is_nan a || is_nan b then nan
  else if (a <? b)%float then a
  else if (b <? a)%float then b
  else if get_sign a then a else b.

(** The literals of the source that are not binary64 values, as the doubles
    the engine reads them to. *)
Definition lit_0_3 : number := 0x1.3333333333333p-2%float.
Definition lit_0_05 : number := 0x1.999999999999ap-5%float.
Definition lit_0_1 : number := 0x1.999999999999ap-4%float.

(** ** JavaScript strings *)

Definition code (c : ascii) : N := N_of_ascii c.

Definition in_range (lo hi : N) (c : ascii) : bool :=
  (lo <=? code c)%N && (code c <=? hi)%N.

(** [String.prototype.toLowerCase], one code unit at a time: A-Z, and the
    upper-case letters of the Latin-1 supplement (U+00C0-U+00DE but the
    multiplication sign U+00D7), move up by 32. *)
Definition toLowerCase_char (c : ascii) : ascii :=
  if in_range 65 90 c || (in_range 192 222 c && negb (code c =? 215)%N)
  then ascii_of_N (code c + 32)
  else c.

Fixpoint toLowerCase (s : string) : string :=
  match s with
  | EmptyString => EmptyString
  | String c s' => String (toLowerCase_char c) (toLowerCase s')
  end.

(** The class [\w]: [A-Za-z0-9_]. *)
Definition is_word (c : ascii) : bool :=
  in_range 65 90 c || in_range 97 122 c || in_range 48 57 c || (code c =? 95)%N.

(** The class [\s], and the characters [trim] strips: TAB, LF, VT, FF, CR,
    space and the no-break space U+00A0. *)
Definition is_space (c : ascii) : bool :=
  in_range 9 13 c || (code c =? 32)%N || (code c =? 160)%N.

Fixpoint string_map (f : ascii -> ascii) (s : string) : string :=
  match s with
  | EmptyString => EmptyString
  | String c s' => String (f c) (string_map f s')
  end.

Fixpoint string_rev_append (s acc : string) : string :=
  match s with
  | EmptyString => acc
  | String c s' => string_rev_append s' (String c acc)
  end.

Definition string_rev (s : string) : string := string_rev_append s EmptyString.

(** [s.split(/[...]+/)] for a character class: the pieces of [s] between the
    maximal runs of separator characters.  A separator at either end leaves an
    empty piece there, and the empty string splits to one empty piece.  [cur]
    is the piece being read, reversed; [in_run] tells that the previous
    character was a separator. *)
Fixpoint split_runs (sep : ascii -> bool) (s : string) (cur : string)
    (in_run : bool) : list string :=
  match s with
  | EmptyString => [string_rev cur]
  | String c s' =>
      if sep c then
        if in_run then split_runs sep s' cur true
        else string_rev cur :: split_runs sep s' EmptyString true
      else split_runs sep s' (String c cur) false
  end.

Definition split (sep : ascii -> bool) (s : string) : list string :=
  split_runs sep s EmptyString false.

Fixpoint trimStart (s : string) : string :=
  match s with
  | EmptyString => EmptyString
  | String c s' => if is_space c then trimStart s' else s
  end.

(** [String.prototype.trim]. *)
Definition trim (s : string) : string :=
  string_rev (trimStart (string_rev (trimStart s))).

(** [s.includes(sub)]: [sub] occurs in [s] as a contiguous substring. *)
Fixpoint includes (s sub : string) : bool :=
  prefix sub s ||
  match s with
  | EmptyString => false
  | String _ s' => includes s' sub
  end.

(** ** [tokenize] *)

(** [.replace(/[^\w\s]/g, ' ')] *)
Definition replace_non_word (s : string) : string :=
  string_map (fun c => if is_word c || is_space c then c else " "%char) s.

Definition tokenize (text : string) : list string :=
  filter (fun t => (2 <? String.length t)%nat)
         (split is_space (replace_non_word (toLowerCase text))).

(** ** [computeSimilarity] *)

(** [new Set(iterable)]: the elements in first-insertion order, each once. *)
Definition new_Set (l : list string) : set string :=
  fold_left (fun s t => set_add string_dec t s) l (empty_set string).

Definition Set_has (s : set string) (t : string) : bool :=
  set_mem string_dec t s.

Definition Set_size (s : set string) : nat := List.length s.

Definition computeSimilarity (query content : string) : number :=
  let queryTokens := new_Set (tokenize query) in
  let contentTokens := tokenize content in
  if (Set_size queryTokens =? 0)%nat || (List.length contentTokens =? 0)%nat then 0%float
  else
    let matches :=
      fold_left (fun m token => if Set_has queryTokens token then (m + 1)%float else m)
                contentTokens 0%float in
    let baseScore :=
      (matches / sqrt (Number_of_nat (Set_size queryTokens)
                       * Number_of_nat (List.length contentTokens)))%float in
    let exactBoost :=
      if includes (toLowerCase content) (toLowerCase query) then lit_0_3 else 0%float in
    Math_min 1%float (baseScore + exactBoost)%float.

(** ** [extractFacts] *)

Definition is_sentence_end (c : ascii) : bool :=
  (code c =? 46)%N || (code c =? 33)%N || (code c =? 63)%N.

(** A preference pattern [/lead(?:a1|a2|...)/i]: a literal followed by one of
    several literals.  Lead and alternatives are lower-case ASCII letters and
    spaces, so under the [i] flag a subject character matches a pattern
    character exactly when its lower-case form is that character. *)
Record pattern := { lead : string; alternatives : list string }.

Definition preferencePatterns : list pattern :=
  [ {| lead := "i "; alternatives := ["prefer"; "like"; "love"; "want"; "need"; "use"] |};
    {| lead := "my "; alternatives := ["favorite"; "preferred"; "default"] |};
    {| lead := "i "; alternatives := ["always"; "never"; "usually"; "often"] |};
    {| lead := "remember "; alternatives := ["that"; "to"] |} ].

(** [pattern.test(s)]: the pattern matches somewhere in [s]. *)
Definition pattern_test (p : pattern) (s : string) : bool :=
  existsb (fun a => includes (toLowerCase s) (lead p ++ a)) (alternatives p).

(** The inner loop of [extractFacts]: the patterns are tried in order, and the
    first that matches pushes the sentence and breaks. *)
Fixpoint push_on_first_match (ps : list pattern) (trimmed : string)
    (facts : list string) : list string :=
  match ps with
  | [] => facts
  | p :: ps' =>
      if pattern_test p trimmed then (facts ++ [trimmed])%list
      else push_on_first_match ps' trimmed facts
  end.

Definition extractFacts (content containerTag : string) : list string :=
  let sentences :=
    filter (fun s => (10 <? String.length (trim s))%nat) (split is_sentence_end content) in
  fold_left (fun facts sentence => push_on_first_match preferencePatterns (trim sentence) facts)
            sentences [].

(** ** JavaScript arrays *)

Section StableSort.
Context {A : Type}.

(** [after x y] tells that [x] has to come after [y]. *)
Variable after : A -> A -> bool.

Fixpoint sort_insert (x : A) (l : list A) : list A :=
  match l with
  | [] => [x]
  | y :: l' => if after x y then y :: sort_insert x l' else x :: l
  end.

(** The stable sort: each element is placed, from the last to the first,
    in front of the elements after it, and moves right only past those it
    has to come after. *)
Definition stable_sort (l : list A) : list A := fold_right sort_insert [] l.
End StableSort.

(** [array.sort(comparefn)].  ECMAScript requires the sort to be stable, and
    [x] goes after [y] exactly when [comparefn(x, y) > 0]; for a consistent
    [comparefn] that fixes the result, whatever the algorithm of the engine. *)
Definition Array_sort {A : Type} (comparefn : A -> A -> number) (l : list A) : list A :=
  stable_sort (fun x y => (0 <? comparefn x y)%float) l.

(** [array.slice(0, end)] for an integer [end]: a negative [end] counts from
    the end of the array. *)
Definition Array_slice0 {A : Type} (end_ : Z) (l : list A) : list A :=
  if (end_ <? 0)%Z
  then firstn (Z.to_nat (Z.max (Z.of_nat (List.length l) + end_) 0)) l
  else firstn (Z.to_nat end_) l.

(** The value of an optional string if it is truthy: [undefined] and the
    empty string are falsy. *)
Definition truthy (o : option string) : option string :=
  match o with
  | Some s => if String.eqb s EmptyString then None else Some s
  | None => None
  end.

(** [a || b] *)
Definition or_else (a b : option string) : option string :=
  match truthy a with
  | Some s => Some s
  | None => b
  end.

(** [containerTags?.[0]] *)
Definition first_tag (containerTags : option (list string)) : option string :=
  match containerTags with
  | Some (t :: _) => Some t
  | _ => None
  end.

(** [containerTag || containerTags?.[0] || 'default'] *)
Definition resolve_tag (containerTag : option string) (containerTags : option (list string))
  : string :=
  match truthy containerTag with
  | Some t => t
  | None =>
      match truthy (first_tag containerTags) with
      | Some t => t
      | None => "default"
      end
  end.

(** ** The database *)

(** The column [fact_type] holds ['dynamic'] or ['static']. *)
Inductive fact_kind := dynamic | static.

Record memory := {
  id : string;
  container_tag : string;
  content : string;
  metadata : option string;      (* JSON text, or NULL *)
  custom_id : option string;
  created_at : string;
  updated_at : string;
  forgotten_at : option string   (* NULL while the memory is active *)
}.

Record profile_fact := {
  fact_id : string;
  fact_container_tag : string;
  fact : string;
  fact_type : fact_kind;
  fact_created_at : string;
  fact_updated_at : string
}.

Record database := {
  memories : list memory;
  profile_facts : list profile_fact
}.

Definition is_null {A : Type} (o : option A) : bool :=
  match o with None => true | Some _ => false end.

(** [ORDER BY created_at DESC]: text compares code unit by code unit; rows of
    equal [created_at], whose order SQL leaves open, stay in table order. *)
Definition order_by_created_at_desc (rows : list memory) : list memory :=
  stable_sort (fun x y => String.ltb (created_at x) (created_at y)) rows.

(** [LIMIT lim OFFSET off]: a negative limit is no limit, a negative offset
    is no offset. *)
Definition sql_limit_offset {A : Type} (lim off : Z) (l : list A) : list A :=
  let l' := skipn (Z.to_nat off) l in
  if (lim <? 0)%Z then l' else firstn (Z.to_nat lim) l'.

(** [SELECT ... FROM memories WHERE container_tag = ? AND forgotten_at IS NULL
     ORDER BY created_at DESC LIMIT n] *)
Definition select_active (n : nat) (tag : string) (db : database) : list memory :=
  firstn n (order_by_created_at_desc
              (filter (fun m => String.eqb (container_tag m) tag && is_null (forgotten_at m))
                      (memories db))).

(** ** HTTP responses *)

Inductive response (A : Type) :=
  | Ok (body : A)                             (* [res.json(body)] *)
  | Error (status : nat) (error : string).    (* [res.status(status).json({ error })] *)
Arguments Ok {A} body.
Arguments Error {A} status error.

(** ** POST /api/v1/add *)

Record add_request := {
  add_content : option string;
  add_containerTag : option string;
  add_containerTags : option (list string);
  add_metadata : option string;      (* the JSON text of a truthy [metadata] *)
  add_customId : option string
}.

Record add_body := { added_id : string; created : bool }.

(** [INSERT INTO memories]: [id] is the primary key, so a row whose id is
    already there is refused. *)
Definition insert_memory (row : memory) (db : database) : option database :=
  if existsb (fun m => String.eqb (id m) (id row)) (memories db) then None
  else Some {| memories := memories db ++ [row]; profile_facts := profile_facts db |}.

Definition insert_fact (row : profile_fact) (db : database) : option database :=
  if existsb (fun f => String.eqb (fact_id f) (fact_id row)) (profile_facts db) then None
  else Some {| memories := memories db; profile_facts := profile_facts db ++ [row] |}.

(** The loop over the extracted facts.  It stops at an insert that fails,
    with the database as the inserts before it left it, and returns [false]. *)
Fixpoint insert_facts (ids : nat -> string) (k : nat) (tag now : string)
    (facts : list string) (db : database) : database * bool :=
  match facts with
  | [] => (db, true)
  | f :: facts' =>
      match insert_fact {| fact_id := ids k; fact_container_tag := tag; fact := f;
                           fact_type := dynamic; fact_created_at := now;
                           fact_updated_at := now |} db with
      | None => (db, false)
      | Some db' => insert_facts ids (S k) tag now facts' db'
      end
  end.

(** [ids 0], [ids 1], ... are the results of the successive calls of
    [generateId()]; [now] is [new Date().toISOString()]. *)
Definition add (ids : nat -> string) (now : string) (req : add_request) (db : database)
  : response add_body * database :=
  let tag := resolve_tag (add_containerTag req) (add_containerTags req) in
  match truthy (add_content req) with
  | None => (Error 400 "Content is required", db)
  | Some content =>
      match insert_memory {| id := ids 0; container_tag := tag; content := content;
                             metadata := add_metadata req;
                             custom_id := truthy (add_customId req);
                             created_at := now; updated_at := now;
                             forgotten_at := None |} db with
      | None => (Error 500 "UNIQUE constraint failed: memories.id", db)
      | Some db1 =>
          let '(db2, ok) := insert_facts ids 1 tag now (extractFacts content tag) db1 in
          if ok then (Ok {| added_id := ids 0; created := true |}, db2)
          else (Error 500 "UNIQUE constraint failed: profile_facts.id", db2)
      end
  end.

(** ** POST /api/v1/search/memories *)

Record search_request := {
  q : option string;
  query : option string;
  containerTag : option string;
  containerTags : option (list string);
  limit : option Z                   (* absent: the default 10 *)
}.

Record search_result := {
  result_id : string;
  result_memory : string;
  similarity : number;
  result_metadata : option string;
  createdAt : string;
  updatedAt : string
}.

(** The response, but for [timing], which is wall-clock time. *)
Record search_response := {
  results : list search_result;
  total : nat
}.

Definition default {A : Type} (d : A) (o : option A) : A :=
  match o with Some x => x | None => d end.

Definition to_result (searchQuery : string) (m : memory) : search_result :=
  {| result_id := id m;
     result_memory := content m;
     similarity := computeSimilarity searchQuery (content m);
     result_metadata := metadata m;
     createdAt := created_at m;
     updatedAt := updated_at m |}.

(** [(a, b) => b.similarity - a.similarity] *)
Definition by_similarity_desc (a b : search_result) : number :=
  (similarity b - similarity a)%float.

Definition search_memories (req : search_request) (db : database) : search_response :=
  let tag := resolve_tag (containerTag req) (containerTags req) in
  match truthy (or_else (q req) (query req)) with
  | None => {| results := []; total := 0 |}
  | Some searchQuery =>
      let memories := select_active 1000 tag db in
      let results :=
        Array_slice0 (default 10%Z (limit req))
          (Array_sort by_similarity_desc
             (filter (fun r => (lit_0_05 <? similarity r)%float)
                     (map (to_result searchQuery) memories))) in
      {| results := results; total := List.length results |}
  end.

(** ** GET /api/v1/profile: the search results *)

Record profile_request := {
  profile_containerTag : option string;
  profile_q : option string;
  threshold : option string          (* query parameters are strings *)
}.

Record profile_search_result := {
  profile_memory : string;
  profile_similarity : number;
  profile_updatedAt : string
}.

Record profile_search_results := {
  profile_results : list profile_search_result;
  profile_total : nat
}.

Definition to_profile_result (q : string) (m : memory) : profile_search_result :=
  {| profile_memory := content m;
     profile_similarity := computeSimilarity q (content m);
     profile_updatedAt := updated_at m |}.

Definition by_profile_similarity_desc (a b : profile_search_result) : number :=
  (profile_similarity b - profile_similarity a)%float.

Section Profile.
(** The built-in [parseFloat], on strings. *)
Variable parseFloat : string -> number.

(** [parseFloat(threshold)], where [threshold] defaults to the number
    [0.1], which [parseFloat] gives back. *)
Definition threshold_value (req : profile_request) : number :=
  match threshold req with
  | None => lit_0_1
  | Some s => parseFloat s
  end.

(** The field [searchResults] of the response: [undefined] unless the
    query branch found something.  The lists of static and dynamic facts of
    the response are not part of this embedding. *)
Definition profile_searchResults (req : profile_request) (db : database)
  : option profile_search_results :=
  let tag := default "default" (truthy (profile_containerTag req)) in
  let searchResults :=
    match truthy (profile_q req) with
    | None => {| profile_results := []; profile_total := 0 |}
    | Some q =>
        let memories := select_active 500 tag db in
        let results :=
          Array_slice0 10
            (Array_sort by_profile_similarity_desc
               (filter (fun r => (threshold_value req <? profile_similarity r)%float)
                       (map (to_profile_result q) memories))) in
        {| profile_results := results; profile_total := List.length results |}
    end in
  if (0 <? profile_total searchResults)%nat then Some searchResults else None.
End Profile.

(** ** POST /api/v1/memories/forget *)

Record forget_request := {
  forget_containerTag : string;
  forget_id : option string;
  forget_content : option string
}.

Record forget_body := { forgotten_id : string; forgotten : bool }.

Definition set_forgotten_at (now : string) (m : memory) : memory :=
  {| id := id m; container_tag := container_tag m; content := content m;
     metadata := metadata m; custom_id := custom_id m;
     created_at := created_at m; updated_at := updated_at m;
     forgotten_at := Some now |}.

(** [UPDATE memories SET forgotten_at = ? WHERE cond]: the new table and
    [changes], the number of rows the condition selected. *)
Definition update_where {A : Type} (cond : A -> bool) (set : A -> A) (rows : list A)
  : list A * nat :=
  (map (fun r => if cond r then set r else r) rows, List.length (filter cond rows)).

Definition forget (now : string) (req : forget_request) (db : database)
  : response forget_body * database :=
  match truthy (forget_id req) with
  | Some i =>
      let '(rows, _) :=
        update_where (fun m => String.eqb (id m) i
                               && String.eqb (container_tag m) (forget_containerTag req))
                     (set_forgotten_at now) (memories db) in
      (Ok {| forgotten_id := i; forgotten := true |},
       {| memories := rows; profile_facts := profile_facts db |})
  | None =>
      match truthy (forget_content req) with
      | Some c =>
          let '(rows, changes) :=
            update_where (fun m => String.eqb (content m) c
                                   && String.eqb (container_tag m) (forget_containerTag req)
                                   && is_null (forgotten_at m))
                         (set_forgotten_at now) (memories db) in
          (Ok {| forgotten_id := "content-match"; forgotten := (0 <? changes)%nat |},
           {| memories := rows; profile_facts := profile_facts db |})
      | None => (Error 400 "Either id or content is required", db)
      end
  end.

(** ** POST /api/v1/documents/list *)

Record list_request := {
  list_containerTags : option (list string);
  list_limit : option Z;             (* absent: 100 *)
  list_page : option Z               (* absent: 1 *)
}.

Record document := {
  doc_id : string;
  doc_content : string;
  doc_createdAt : string;
  doc_updatedAt : string
}.

(** The response, but for [totalPages]. *)
Record list_response := {
  list_memories : list document;
  pagination_page : Z;
  pagination_limit : Z;
  pagination_total : nat
}.

Definition to_document (m : memory) : document :=
  {| doc_id := id m; doc_content := content m;
     doc_createdAt := created_at m; doc_updatedAt := updated_at m |}.

(** [WHERE container_tag IN (tags) AND forgotten_at IS NULL] *)
Definition active_in (tags : list string) (m : memory) : bool :=
  existsb (String.eqb (container_tag m)) tags && is_null (forgotten_at m).

(** The handler, for the requests whose statement SQLite runs: at most
    32766 parameters (the tags, [limit] and [offset]), and a [limit] and an
    [offset] that are exact as doubles. *)
Definition documents_list (req : list_request) (db : database) : list_response :=
  let tags := default ["default"] (list_containerTags req) in
  let limit := default 100%Z (list_limit req) in
  let page := default 1%Z (list_page req) in
  let offset := ((page - 1) * limit)%Z in
  let rows :=
    sql_limit_offset limit offset
      (order_by_created_at_desc (filter (active_in tags) (memories db))) in
  {| list_memories := map to_document rows;
     pagination_page := page;
     pagination_limit := limit;
     pagination_total := List.length (filter (active_in tags) (memories db)) |}.

(** ** POST /api/v1/documents/deleteBulk *)

(** The values the field [ids] of a JSON body can take; the elements of an
    array are the strings the interface declares ([ids: string[]]). *)
Inductive ids_value :=
  | IdsUndefined
  | IdsNull
  | IdsBoolean (b : bool)
  | IdsNumber (x : number)
  | IdsString (s : string)
  | IdsObject
  | IdsArray (l : list string).

(** [!ids] *)
Definition ids_falsy (v : ids_value) : bool :=
  match v with
  | IdsUndefined | IdsNull => true
  | IdsBoolean b => negb b
  | IdsNumber x => (x =? 0)%float || is_nan x
  | IdsString s => String.eqb s EmptyString
  | IdsObject | IdsArray _ => false
  end.

(** [Array.isArray(ids)] *)
Definition ids_isArray (v : ids_value) : bool :=
  match v with IdsArray _ => true | _ => false end.

Record delete_body := { deleted : nat }.

(** [DELETE FROM memories WHERE id IN (ids)]: the rows left, and [changes]. *)
Definition delete_where {A : Type} (cond : A -> bool) (rows : list A) : list A * nat :=
  (filter (fun r => negb (cond r)) rows, List.length (filter cond rows)).

(** The handler, for the arrays whose statement SQLite prepares: one
    parameter for each id, at most 32766. *)
Definition deleteBulk (ids : ids_value) (db : database) : response delete_body * database :=
  if ids_falsy ids || negb (ids_isArray ids) then (Error 400 "ids array is required", db)
  else
    match ids with
    | IdsArray l =>
        let '(rows, changes) :=
          delete_where (fun m => existsb (String.eqb (id m)) l) (memories db) in
        (Ok {| deleted := changes |},
         {| memories := rows; profile_facts := profile_facts db |})
    | _ => (Error 400 "ids array is required", db)
    end.

(** ** POST /api/v1/profile/promote *)

Record promote_body := { promoted : bool }.

Definition set_static (now : string) (f : profile_fact) : profile_fact :=
  {| fact_id := fact_id f; fact_container_tag := fact_container_tag f; fact := fact f;
     fact_type := static; fact_created_at := fact_created_at f;
     fact_updated_at := now |}.

Definition promote (now : string) (containerTag fact_text : string) (db : database)
  : promote_body * database :=
  let '(rows, changes) :=
    update_where (fun f => String.eqb (fact_container_tag f) containerTag
                           && String.eqb (fact f) fact_text)
                 (set_static now) (profile_facts db) in
  ({| promoted := (0 <? changes)%nat |},
   {| memories := memories db; profile_facts := rows |}).

(** ** GET /api/v1/stats *)

Record stats_body := {
  stats_memories : nat;
  stats_facts : nat;
  stats_containers : list string
}.

Definition stats (db : database) : stats_body :=
  {| stats_memories := List.length (filter (fun m => is_null (forgotten_at m)) (memories db));
     stats_facts := List.length (profile_facts db);
     stats_containers := nodup string_dec (map container_tag (memories db)) |}.

(** ** DELETE /api/v1/container/:tag *)

Definition wipe (tag : string) (db : database) : database :=
  {| memories := filter (fun m => negb (String.eqb (container_tag m) tag)) (memories db);
     profile_facts :=
       filter (fun f => negb (String.eqb (fact_container_tag f) tag)) (profile_facts db) |}.

(** ** The requests that change the database *)

Inductive request :=
  | Add (ids : nat -> string) (now : string) (req : add_request)
  | Forget (now : string) (req : forget_request)
  | DeleteBulk (ids : ids_value)
  | Promote (now containerTag fact_text : string)
  | Wipe (tag : string).

Definition handle (r : request) (db : database) : database :=
  match r with
  | Add ids now req => snd (add ids now req db)
  | Forget now req => snd (forget now req db)
  | DeleteBulk ids => snd (deleteBulk ids db)
  | Promote now containerTag fact_text => snd (promote now containerTag fact_text db)
  | Wipe tag => wipe tag db
  end.

(** ** The specification's wording of the scorer and of the extractor *)

(** [score(query, content)] as the specification states it: [Q] is the set
    of distinct tokens of the query, [C] the token sequence of the content,
    [matches] counts the positions of [C] whose token is in [Q]. *)
Definition score (query content : string) : number :=
  let Q := nodup string_dec (tokenize query) in
  let C := tokenize content in
  match Q, C with
  | [], _ | _, [] => 0%float
  | _, _ =>
      let matches := List.length (filter (fun t => existsb (String.eqb t) Q) C) in
      let base :=
        (Number_of_nat matches
         / sqrt (Number_of_nat (List.length Q) * Number_of_nat (List.length C)))%float in
      let exactBoost :=
        if includes (toLowerCase content) (toLowerCase query) then lit_0_3 else 0%float in
      Math_min 1%float (base + exactBoost)%float
  end.

(** [extract(content)] as the specification states it: split, trim, drop the
    short segments, keep those that match one of the patterns. *)
Definition matches_a_pattern (s : string) : bool :=
  existsb (fun p => pattern_test p s) preferencePatterns.

Definition extract (content : string) : list string :=
  filter matches_a_pattern
    (filter (fun s => (10 <? String.length s)%nat)
       (map trim (split is_sentence_end content))).

(** ** Doubles, as the specification of the primitive floats describes them *)

(** The double 1. *)
Definition SF64one : spec_float := S754_finite false 4503599627370496 (-52).

(** The mantissa of the double of an integer [0 < N <= 2^53]. *)
Definition mant (N : Z) : Z := (N * 2 ^ (54 - Zdigits2 N) / 2)%Z.

(** The double of an integer [0 <= N <= 2^53]. *)
Definition SFint (N : Z) : spec_float :=
  if (N =? 0)%Z then S754_zero false
  else S754_finite false (Z.to_pos (mant N)) (Zdigits2 N - 53).

(** Zero, a positive finite number or plus infinity. *)
Definition SFnonneg (f : spec_float) : bool :=
  match f with
  | S754_zero false | S754_infinity false | S754_finite false _ _ => true
  | _ => false
  end.

(** A positive finite number or plus infinity. *)
Definition SFpositive (f : spec_float) : bool :=
  match f with
  | S754_infinity false | S754_finite false _ _ => true
  | _ => false
  end.

(** Zero or a positive finite number. *)
Definition SFfinite_nonneg (f : spec_float) : bool :=
  match f with
  | S754_zero false | S754_finite false _ _ => true
  | _ => false
  end.

(** At least 1: the leading bit of the mantissa stands at 2^0 or above. *)
Definition SFge1 (f : spec_float) : bool :=
  match f with
  | S754_infinity false => true
  | S754_finite false m e => (1 <=? Zdigits2 (Z.pos m) + e)%Z
  | _ => false
  end.

Definition SFnot_nan (f : spec_float) : bool :=
  match f with S754_nan => false | _ => true end.

Definition cmp_le (c : option comparison) : bool :=
  match c with Some Lt | Some Eq => true | _ => false end.

Definition cmp_lt (c : option comparison) : bool :=
  match c with Some Lt => true | _ => false end.

(** A number a relevance score can be: zero or a positive finite double. *)
Definition is_score (x : number) : Prop := SFfinite_nonneg (Prim2SF x) = true.

(** ** Notions and examples the properties are stated with *)

(** The rows of [memories] have distinct ids: [id] is the primary key. *)
Definition unique_ids (db : database) : Prop := NoDup (map id (memories db)).

(** The condition of the [UPDATE] of [promote]. *)
Definition fact_matches (containerTag fact_text : string) (f : profile_fact) : bool :=
  String.eqb (fact_container_tag f) containerTag && String.eqb (fact f) fact_text.

(** The condition of the [UPDATE] of a forget by id. *)
Definition forgets (i tag : string) (m : memory) : bool :=
  String.eqb (id m) i && String.eqb (container_tag m) tag.

(** The number of search results in a profile response. *)
Definition result_count (o : option profile_search_results) : nat :=
  match o with
  | Some r => List.length (profile_results r)
  | None => 0
  end.

Definition empty_database : database := {| memories := []; profile_facts := [] |}.

(** The databases the server can be in: the empty one, and those a request
    leads to. *)
Inductive reachable : database -> Prop :=
  | reachable_empty : reachable empty_database
  | reachable_handle r db : reachable db -> reachable (handle r db).

Definition green_tea : string := "I always drink green tea in the morning".

(** A database with the one dynamic fact the extractor derives from
    [green_tea] in container [work]. *)
Definition one_dynamic_fact : database :=
  {| memories := [];
     profile_facts :=
       [ {| fact_id := "f1"; fact_container_tag := "work"; fact := green_tea;
            fact_type := dynamic;
            fact_created_at := "2024-01-01T00:00:00.000Z";
            fact_updated_at := "2024-01-01T00:00:00.000Z" |} ] |}.

Definition dark_mode_memory : memory :=
  {| id := "m1"; container_tag := "work"; content := "I prefer dark mode";
     metadata := None; custom_id := None;
     created_at := "2024-01-01T00:00:00.000Z";
     updated_at := "2024-01-01T00:00:00.000Z"; forgotten_at := None |}.

(** A database in which two memories pass the floor for the query
    [dark mode]. *)
Definition two_dark_modes : database :=
  {| memories :=
       [ dark_mode_memory;
         {| id := "m2"; container_tag := "work"; content := "dark mode is easier on the eyes";
            metadata := None; custom_id := None;
            created_at := "2024-01-02T00:00:00.000Z";
            updated_at := "2024-01-02T00:00:00.000Z"; forgotten_at := None |} ];
     profile_facts := [] |}.

Definition dark_mode_top1 : search_request :=
  {| q := Some "dark mode"; query := None; containerTag := Some "work";
     containerTags := None; limit := Some 1%Z |}.

(** A [parseFloat] that reads the one string the examples use. *)
Definition parseFloat_0_95 (s : string) : number :=
  if String.eqb s "0.95" then 0x1.e666666666666p-1%float else nan.

(** What a repeated promotion does to a fact: it sets [updated_at] if the
    fact is the one named, and leaves every other column, and every other
    fact, as it is. *)
Definition refreshed (now containerTag fact_text : string) (f f' : profile_fact) : Prop :=
  fact_id f' = fact_id f /\ fact_container_tag f' = fact_container_tag f /\
  fact f' = fact f /\ fact_type f' = fact_type f /\
  fact_created_at f' = fact_created_at f /\
  fact_updated_at f'
  = (if fact_matches containerTag fact_text f then now else fact_updated_at f).

(** The search of the examples with the limit -1. *)
Definition dark_mode_drop_last : search_request :=
  {| q := Some "dark mode"; query := None; containerTag := Some "work";
     containerTags := None; limit := Some (-1)%Z |}.

(** A database with a memory about dark mode in each of two containers. *)
Definition home_memory : memory :=
  {| id := "m3"; container_tag := "home"; content := "dark mode at home";
     metadata := None; custom_id := None;
     created_at := "2024-01-03T00:00:00.000Z";
     updated_at := "2024-01-03T00:00:00.000Z"; forgotten_at := None |}.

Definition work_and_home : database :=
  {| memories := [dark_mode_memory; home_memory]; profile_facts := [] |}.

(** The most parameters a statement of SQLite has
    ([SQLITE_MAX_VARIABLE_NUMBER]), and the largest integer up to which the
    integers are doubles, each exactly ([Number.MAX_SAFE_INTEGER]). *)
Definition SQLITE_MAX_VARIABLE_NUMBER : Z := 32766.
Definition MAX_SAFE_INTEGER : Z := 9007199254740991.

(** ** The client [LocalSupermemoryClient]

    The client talks to the server over HTTP.  Here a request is the call
    of the handler of its endpoint on the database of the server, and the
    database the handler leaves is carried on to the next request. *)

(** What a call of the client comes to: the value it resolves to, or the
    error [request] throws on a response that is not ok. *)
Inductive outcome (A : Type) :=
  | Resolved (value : A)
  | Thrown (status : nat) (text : string).
Arguments Resolved {A} value.
Arguments Thrown {A} status text.

(** [request]: the body of an ok response; any other status throws. *)
Definition request_json {A : Type} (r : response A) : outcome A :=
  match r with
  | Ok body => Resolved body
  | Error status text => Thrown status text
  end.

(** The client holds the container it was built for. *)
Record client := { this_containerTag : string }.

Record SearchResult := {
  sr_id : string;
  sr_content : string;
  sr_memory : string;
  sr_similarity : number;
  sr_metadata : option string
}.

(** [search(query, limit, containerTag)]; [containerTag ?? this.containerTag]
    takes the container of the client only when none is given. *)
Definition client_search (this : client) (query_text : string) (lim : Z)
    (tag_given : option string) (db : database) : list SearchResult :=
  let tag := default (this_containerTag this) tag_given in
  let response :=
    search_memories {| q := Some query_text; query := None; containerTag := Some tag;
                       containerTags := None; limit := Some lim |} db in
  map (fun r => {| sr_id := result_id r; sr_content := result_memory r;
                   sr_memory := result_memory r; sr_similarity := similarity r;
                   sr_metadata := result_metadata r |})
      (results response).

(** [deleteMemory(id, containerTag)] *)
Definition deleteMemory (this : client) (now : string) (i : string)
    (tag_given : option string) (db : database) : outcome forget_body * database :=
  let tag := default (this_containerTag this) tag_given in
  let '(r, db') :=
    forget now {| forget_containerTag := tag; forget_id := Some i; forget_content := None |}
           db in
  (request_json r, db').

Record forget_result := { success : bool; message : string }.

(** [a || b] on strings *)
Definition or_string (a b : string) : string :=
  if String.eqb a EmptyString then b else a.

(** A text between double quotes. *)
Definition quoted (s : string) : string :=
  String "034"%char (s ++ String "034"%char EmptyString)%string.

(** [forgetByQuery(query, containerTag)] *)
Definition forgetByQuery (this : client) (now : string) (query_text : string)
    (tag_given : option string) (db : database) : outcome forget_result * database :=
  match client_search this query_text 5 tag_given db with
  | [] => (Resolved {| success := false;
                       message := "No matching memory found to forget." |}, db)
  | target :: _ =>
      match deleteMemory this now (sr_id target) tag_given db with
      | (Thrown status text, db') => (Thrown status text, db')
      | (Resolved _, db') =>
          let preview :=
            substring 0 100
              (or_string (sr_content target) (or_string (sr_memory target) EmptyString)) in
          (Resolved {| success := true; message := ("Forgot: " ++ quoted preview)%string |}, db')
      end
  end.

(** [wipeAllMemories()] *)
Definition wipeAllMemories (this : client) (db : database) : outcome nat * database :=
  let response :=
    documents_list {| list_containerTags := Some [this_containerTag this];
                      list_limit := Some 1000%Z; list_page := None |} db in
  let ids := map doc_id (list_memories response) in
  if (List.length ids =? 0)%nat then (Resolved 0, db)
  else
    match deleteBulk (IdsArray ids) db with
    | (Ok _, db') => (Resolved (List.length ids), db')
    | (Error status text, db') => (Thrown status text, db')
    end.

(** ** The tool [supermemory_forget] *)

Record forget_params := {
  param_query : option string;
  param_id : option string;
  param_containerTag : option string
}.

(** [execute]: the text of the answer. *)
Definition forget_tool (this : client) (now : string) (params : forget_params)
    (db : database) : outcome string * database :=
  match truthy (param_id params) with
  | Some i =>
      match deleteMemory this now i (param_containerTag params) db with
      | (Resolved result, db') =>
          (Resolved (if forgotten result then ("Forgot memory " ++ i)%string else "Memory not found"),
           db')
      | (Thrown status text, db') => (Thrown status text, db')
      end
  | None =>
      match truthy (param_query params) with
      | Some query_text =>
          match forgetByQuery this now query_text (param_containerTag params) db with
          | (Resolved result, db') => (Resolved (message result), db')
          | (Thrown status text, db') => (Thrown status text, db')
          end
      | None => (Resolved "Provide either a query or an ID to forget.", db)
      end
  end.

(** ** The configuration of the plugin ([parseConfig]) *)

(** The configuration as the host hands it over: every field is optional,
    and [None] stands for [undefined] and for [null], which [??] treats
    alike. *)
Record plugin_config := {
  plugin_baseUrl : option string;
  plugin_containerTag : option string;
  plugin_autoRecall : option bool;
  plugin_autoCapture : option bool;
  plugin_maxRecallResults : option number;
  plugin_profileFrequency : option number;
  plugin_captureMode : option string;
  plugin_debug : option bool;
  plugin_enableCustomContainerTags : option bool;
  plugin_customContainers : option (list (string * string));
  plugin_customContainerInstructions : option string
}.

Record SupermemoryConfig := {
  config_baseUrl : string;
  config_containerTag : string;
  config_autoRecall : bool;
  config_autoCapture : bool;
  config_maxRecallResults : number;
  config_profileFrequency : number;
  config_captureMode : string;
  config_debug : bool;
  config_enableCustomContainerTags : bool;
  config_customContainers : list (string * string);
  config_customContainerInstructions : string
}.

(** [[a-zA-Z0-9_]] *)
Definition is_tag_char (c : ascii) : bool :=
  in_range 97 122 c || in_range 65 90 c || in_range 48 57 c || (code c =? 95)%N.

(** [.replace(/[^a-zA-Z0-9_]/g, "_")] *)
Definition replace_non_tag (s : string) : string :=
  string_map (fun c => if is_tag_char c then c else "_"%char) s.

(** [cfg.field], where [cfg] is [pluginConfig ?? {}]. *)
Definition field {A : Type} (get : plugin_config -> option A)
    (pluginConfig : option plugin_config) : option A :=
  match pluginConfig with
  | Some cfg => get cfg
  | None => None
  end.

(** [hostname] is the result of [os.hostname()]. *)
Definition parseConfig (hostname : string) (pluginConfig : option plugin_config)
  : SupermemoryConfig :=
  let defaultTag := ("openclaw_" ++ replace_non_tag hostname)%string in
  {| config_baseUrl := default "http://localhost:3456" (field plugin_baseUrl pluginConfig);
     config_containerTag := default defaultTag (field plugin_containerTag pluginConfig);
     config_autoRecall := default true (field plugin_autoRecall pluginConfig);
     config_autoCapture := default true (field plugin_autoCapture pluginConfig);
     config_maxRecallResults := default 10%float (field plugin_maxRecallResults pluginConfig);
     config_profileFrequency := default 50%float (field plugin_profileFrequency pluginConfig);
     config_captureMode := default "all" (field plugin_captureMode pluginConfig);
     config_debug := default false (field plugin_debug pluginConfig);
     config_enableCustomContainerTags :=
       default false (field plugin_enableCustomContainerTags pluginConfig);
     config_customContainers := default [] (field plugin_customContainers pluginConfig);
     config_customContainerInstructions :=
       default EmptyString (field plugin_customContainerInstructions pluginConfig) |}.

(** ** The category of a memory ([detectCategory]) *)

Definition MEMORY_CATEGORIES : list string :=
  ["preference"; "fact"; "task"; "reminder"; "note"; "project"; "person"; "place"; "event";
   "other"].

(** [/a1|a2|.../.test(s)] for literal alternatives. *)
Definition test_any (alts : list string) (s : string) : bool :=
  existsb (includes s) alts.

Fixpoint string_skipn (n : nat) (s : string) : string :=
  match n, s with
  | O, _ => s
  | S n', String _ s' => string_skipn n' s'
  | S _, EmptyString => EmptyString
  end.

(** A word boundary in front of [rest]: the end of the subject or a
    character that is not a word character.  The literals matched between
    two [\b] begin and end with a letter, so there is a boundary before one
    exactly when no word character precedes it, and one after it exactly when
    none follows. *)
Definition boundary_before (rest : string) : bool :=
  match rest with
  | EmptyString => true
  | String c _ => negb (is_word c)
  end.

(** [w] occurs in [s] between two word boundaries; [after_word] tells that
    the character before [s] is a word character. *)
Fixpoint word_includes (after_word : bool) (s w : string) : bool :=
  (negb after_word && prefix w s && boundary_before (string_skipn (String.length w) s))
  || match s with
     | EmptyString => false
     | String c s' => word_includes (is_word c) s' w
     end.

(** [/\b(?:a1|a2|...)\b/.test(s)] for such literals. *)
Definition test_any_word (alts : list string) (s : string) : bool :=
  existsb (word_includes false s) alts.

Definition detectCategory (text : string) : string :=
  let lower := toLowerCase text in
  if test_any ["prefer"; "like"; "favorite"; "usually"; "always"; "never";
               "my default"; "my setting"] lower then "preference"
  else if test_any ["remember that"; "remember to"; "dont forget"; "don't forget";
                    "reminder"] lower then "reminder"
  else if test_any ["task"; "todo"; "need to"; "should"; "must"; "have to"] lower then "task"
  else if test_any ["project"; "working on"; "building"; "developing"] lower then "project"
  else if test_any_word ["he"; "she"; "they"; "person"; "people"; "contact"] lower
       then "person"
  else if test_any_word ["at"; "in"; "near"; "location"; "address"; "place"] lower
       then "place"
  else if test_any_word ["meeting"; "event"; "appointment"; "on monday"; "on tuesday";
                         "on wednesday"; "on thursday"; "on friday"; "on saturday";
                         "on sunday"] lower
       then "event"
  else "note".

(** ** Further notions and examples the properties are stated with *)

(** Every character of a string passes a test. *)
Fixpoint string_forall (p : ascii -> bool) (s : string) : bool :=
  match s with
  | EmptyString => true
  | String c s' => p c && string_forall p s'
  end.

(** The characters a token is made of: [a-z0-9_]. *)
Definition is_token_char (c : ascii) : bool :=
  in_range 97 122 c || in_range 48 57 c || (code c =? 95)%N.

(** A string that does not begin with white space. *)
Definition starts_clean (s : string) : bool :=
  match s with
  | EmptyString => true
  | String c _ => negb (is_space c)
  end.

(** The shape of an extracted fact: more than ten characters, no white
    space at either end, no sentence terminator, and a preference pattern
    somewhere in it. *)
Definition is_fact_text (f : string) : Prop :=
  10 < String.length f /\
  trim f = f /\
  string_forall (fun c => negb (is_sentence_end c)) f = true /\
  matches_a_pattern f = true.

(** Plus infinity, or a positive finite double of at least [2 ^ (k - 1)]:
    the leading bit of its mantissa stands at [2 ^ (k - 1)] or above. *)
Definition SFmag_ge (k : Z) (f : spec_float) : bool :=
  match f with
  | S754_infinity false => true
  | S754_finite false m e => (k <=? Zdigits2 (Z.pos m) + e)%Z
  | _ => false
  end.

(** The condition of the [SELECT] of the search: an active row of the
    container. *)
Definition active_of (tag : string) (m : memory) : bool :=
  String.eqb (container_tag m) tag && is_null (forgotten_at m).

(** The query [dark mode] in container [work], with the default limit. *)
Definition dark_mode_query : search_request :=
  {| q := Some "dark mode"; query := None; containerTag := Some "work";
     containerTags := None; limit := None |}.

(** The rows of [profile_facts] that an [add] writes for the facts it has
    extracted: one dynamic fact per text, with the ids [ids k], [ids (k+1)],
    and so on. *)
Fixpoint fact_rows (ids : nat -> string) (k : nat) (tag now : string) (facts : list string)
  : list profile_fact :=
  match facts with
  | [] => []
  | f :: facts' =>
      {| fact_id := ids k; fact_container_tag := tag; fact := f; fact_type := dynamic;
         fact_created_at := now; fact_updated_at := now |}
      :: fact_rows ids (S k) tag now facts'
  end.

(** The row of [memories] that an [add] writes. *)
Definition memory_row (ids : nat -> string) (now : string) (req : add_request)
    (content : string) : memory :=
  {| id := ids 0;
     container_tag := resolve_tag (add_containerTag req) (add_containerTags req);
     content := content; metadata := add_metadata req;
     custom_id := truthy (add_customId req);
     created_at := now; updated_at := now; forgotten_at := None |}.

(** The ids [ids k], ..., [ids (k + n - 1)] are distinct and none is the id
    of a fact of the database. *)
Definition fresh_fact_ids (ids : nat -> string) (k n : nat) (db : database) : Prop :=
  NoDup (map ids (seq k n)) /\
  forall j, In j (seq k n) -> ~ In (ids j) (map fact_id (profile_facts db)).

(** A request to add [I prefer dark mode] to container [work], and the ids
    the examples generate. *)
Definition add_dark_mode : add_request :=
  {| add_content := Some "I prefer dark mode"; add_containerTag := Some "work";
     add_containerTags := None; add_metadata := None; add_customId := None |}.

Definition example_ids (k : nat) : string :=
  match k with 0 => "id-0" | 1 => "id-1" | 2 => "id-2" | _ => "id-n" end.

(** The condition of the [UPDATE] of a forget by content. *)
Definition forgets_content (c tag : string) (m : memory) : bool :=
  String.eqb (content m) c && String.eqb (container_tag m) tag && is_null (forgotten_at m).

(** What a forget may do to a row: nothing, or stamp its [forgotten_at]. *)
Definition marked (now : string) (m m' : memory) : Prop :=
  id m' = id m /\ container_tag m' = container_tag m /\ content m' = content m /\
  metadata m' = metadata m /\ custom_id m' = custom_id m /\
  created_at m' = created_at m /\ updated_at m' = updated_at m /\
  (forgotten_at m' = forgotten_at m \/ forgotten_at m' = Some now).

(** The rows a bulk deletion removes: those whose id is listed. *)
Definition listed (l : list string) (m : memory) : bool :=
  existsb (String.eqb (id m)) l.

(** The whole listing of some containers: their active memories, the most
    recent first. *)
Definition all_documents (tags : list string) (db : database) : list document :=
  map to_document (order_by_created_at_desc (filter (active_in tags) (memories db))).

(** Page [p] of a listing in pages of [L] documents. *)
Definition page_request (tags : option (list string)) (L : Z) (p : nat) : list_request :=
  {| list_containerTags := tags; list_limit := Some L; list_page := Some (Z.of_nat p) |}.

(** What a promotion may do to a fact: nothing, or, if the fact is the one
    named, make it static and stamp its [updated_at]. *)
Definition promoted_from (now containerTag fact_text : string) (f f' : profile_fact) : Prop :=
  fact_id f' = fact_id f /\ fact_container_tag f' = fact_container_tag f /\
  fact f' = fact f /\ fact_created_at f' = fact_created_at f /\
  (fact_type f = static -> fact_type f' = static) /\
  (f' = f \/
   fact_matches containerTag fact_text f = true /\ fact_type f' = static /\
   fact_updated_at f' = now).

(** The profile request of the examples, and the search results it gets. *)
Definition dark_mode_profile_request : profile_request :=
  {| profile_containerTag := Some "work"; profile_q := Some "dark mode"; threshold := None |}.

Definition dark_mode_profile : profile_search_results :=
  match profile_searchResults parseFloat_0_95 dark_mode_profile_request two_dark_modes with
  | Some r => r
  | None => {| profile_results := []; profile_total := 0 |}
  end.

(** A profile request whose threshold does not read as a number. *)
Definition unreadable_threshold : profile_request :=
  {| profile_containerTag := Some "work"; profile_q := Some "dark mode";
     threshold := Some "high" |}.

(** What holds of every memory the server has stored: a content, a
    container, and an [updated_at] that is still its [created_at]. *)
Definition stored_memory (m : memory) : Prop :=
  content m <> EmptyString /\ container_tag m <> EmptyString /\ updated_at m = created_at m.

(** What holds of every profile fact the server has stored: a container,
    the text of an extracted fact, and, while it is dynamic, an [updated_at]
    that is still its [created_at]. *)
Definition stored_fact (f : profile_fact) : Prop :=
  fact_container_tag f <> EmptyString /\ is_fact_text (fact f) /\
  (fact_type f = dynamic -> fact_updated_at f = fact_created_at f).

(** The database after the first [add] of the examples. *)
Definition after_add_dark_mode : database :=
  handle (Add example_ids "2024-01-01T00:00:00.000Z" add_dark_mode) empty_database.

(** A search of container [work] for the content the examples add. *)
Definition search_added : search_request :=
  {| q := Some "I prefer dark mode"; query := None; containerTag := Some "work";
     containerTags := None; limit := None |}.

(** A client of container [work], and one whose container is the empty
    string. *)
Definition work_client : client := {| this_containerTag := "work" |}.
Definition untagged_client : client := {| this_containerTag := EmptyString |}.

(** A database with one memory, in container [default]. *)
Definition one_default_memory : database :=
  {| memories :=
       [ {| id := "m1"; container_tag := "default"; content := "I prefer dark mode";
            metadata := None; custom_id := None;
            created_at := "2024-01-01T00:00:00.000Z";
            updated_at := "2024-01-01T00:00:00.000Z"; forgotten_at := None |} ];
     profile_facts := [] |}.

(** A parsed configuration, handed over again. *)
Definition as_plugin_config (c : SupermemoryConfig) : plugin_config :=
  {| plugin_baseUrl := Some (config_baseUrl c);
     plugin_containerTag := Some (config_containerTag c);
     plugin_autoRecall := Some (config_autoRecall c);
     plugin_autoCapture := Some (config_autoCapture c);
     plugin_maxRecallResults := Some (config_maxRecallResults c);
     plugin_profileFrequency := Some (config_profileFrequency c);
     plugin_captureMode := Some (config_captureMode c);
     plugin_debug := Some (config_debug c);
     plugin_enableCustomContainerTags := Some (config_enableCustomContainerTags c);
     plugin_customContainers := Some (config_customContainers c);
     plugin_customContainerInstructions := Some (config_customContainerInstructions c) |}.

(** * Properties *)

(** ** The functions on examples *)

Example tokenize_example :
  tokenize "  Hello,   WORLD!! it's a_b c3p0 " = ["hello"; "world"; "a_b"; "c3p0"].
Proof. vm_compute. reflexivity. Qed.

Example split_example :
  split is_sentence_end "One. Two!? Three" = ["One"; " Two"; " Three"] /\
  split is_space " a  b " = [""; "a"; "b"; ""] /\
  split is_space "" = [""].
Proof. vm_compute. auto. Qed.

Example trim_example : trim "  a b  " = "a b".
Proof. vm_compute. reflexivity. Qed.

(** The scenario of the exact-match boost: the content that holds the query
    as a substring scores higher. *)
Example exact_match_boost :
  computeSimilarity "dark mode" "I love dark mode" = 1%float /\
  computeSimilarity "dark mode" "dark and also some unrelated mode word salad" = 0.5%float /\
  (computeSimilarity "dark mode" "dark and also some unrelated mode word salad"
   <? computeSimilarity "dark mode" "I love dark mode")%float = true.
Proof. vm_compute. auto. Qed.

Example extractFacts_example :
  extractFacts "Hello there. I prefer dark mode!! Remember to buy milk? ok. Maybe later then"
               "work"
  = ["I prefer dark mode"; "Remember to buy milk"].
Proof. vm_compute. reflexivity. Qed.

(** The more recent memory comes first in the working set, the better score
    first in the results. *)
Example search_example :
  map id (select_active 1000 "work" two_dark_modes) = ["m2"; "m1"] /\
  map result_id
      (results (search_memories
                  {| q := Some "dark mode"; query := None; containerTag := Some "work";
                     containerTags := None; limit := None |} two_dark_modes))
  = ["m1"; "m2"].
Proof. vm_compute. auto. Qed.

(** ** Rounding to a double

    The facts about the arithmetic of doubles that the properties of the
    scorer and of the ranking need, proved from the specification
    [SpecFloat] that the primitive operations are axiomatised to follow. *)

Local Open Scope Z_scope.

(** *** The number of digits of a mantissa *)

Lemma digits2_pos_size p : digits2_pos p = Pos.size p.
Proof. induction p; simpl; congruence. Qed.

Lemma Zdigits2_log2 m : 0 < m -> Zdigits2 m = Z.log2 m + 1.
Proof.
  destruct m as [|p|p]; try lia. intros _. simpl.
  destruct p; simpl; rewrite ?digits2_pos_size; lia.
Qed.

Lemma Zdigits2_pos m : 0 < m -> 0 < Zdigits2 m.
Proof. intros H. rewrite Zdigits2_log2 by assumption. pose proof (Z.log2_nonneg m). lia. Qed.

Lemma Zdigits2_le m n : 0 < m -> m <= n -> Zdigits2 m <= Zdigits2 n.
Proof.
  intros Hm Hn. rewrite !Zdigits2_log2 by lia.
  pose proof (Z.log2_le_mono m n Hn). lia.
Qed.

Lemma Zdigits2_shiftr m n :
  0 < m -> 0 <= n -> n < Zdigits2 m ->
  0 < Z.shiftr m n /\ Zdigits2 (Z.shiftr m n) = Zdigits2 m - n.
Proof.
  intros Hm Hn Hlt. rewrite Zdigits2_log2 in Hlt by assumption.
  assert (Hpos : 0 < Z.shiftr m n).
  { destruct (Z.shiftr_eq_0_iff m n) as [H1 _].
    pose proof (Z.shiftr_nonneg m n) as H2.
    assert (Z.shiftr m n <> 0) by (intros E; apply H1 in E; lia).
    lia. }
  split; [assumption|].
  rewrite !Zdigits2_log2 by assumption.
  rewrite Z.log2_shiftr by assumption. lia.
Qed.

(** *** Shifting a mantissa to the right *)

Lemma iter_pos_iter {A} (f : A -> A) p : forall x, iter_pos f p x = Pos.iter f x p.
Proof.
  induction p; intros x; simpl.
  - rewrite !IHp. rewrite !Pos.iter_swap. reflexivity.
  - rewrite !IHp. reflexivity.
  - reflexivity.
Qed.

Lemma shr_1_m r : 0 <= shr_m r -> shr_m (shr_1 r) = Z.div2 (shr_m r).
Proof. destruct r as [m b s]; simpl. destruct m as [|[p|p|]|p]; simpl; intros; try lia; reflexivity. Qed.

Lemma shr_iter_m r p :
  0 <= shr_m r ->
  shr_m (iter_pos shr_1 p r) = Z.shiftr (shr_m r) (Z.pos p).
Proof.
  intros H. rewrite iter_pos_iter.
  enough (0 <= shr_m (Pos.iter shr_1 r p) /\
          shr_m (Pos.iter shr_1 r p) = Z.shiftr (shr_m r) (Z.pos p)) by tauto.
  apply Pos.iter_ind with (P := fun q a => 0 <= shr_m a /\ shr_m a = Z.shiftr (shr_m r) (Z.pos q)).
  - rewrite shr_1_m by assumption. rewrite Z.div2_spec. split; [|reflexivity].
    apply Z.shiftr_nonneg. assumption.
  - intros q a [Ha Hq]. rewrite shr_1_m by assumption. rewrite Z.div2_spec, Hq.
    rewrite Z.shiftr_shiftr by lia. split.
    + apply Z.shiftr_nonneg. assumption.
    + f_equal. lia.
Qed.

Lemma shr_record_of_loc_m m l : shr_m (shr_record_of_loc m l) = m.
Proof. destruct l as [|[]]; reflexivity. Qed.

(** Shifting a non-negative mantissa keeps it non-negative. *)
Lemma shr_nonneg r e n : 0 <= shr_m r -> 0 <= shr_m (fst (shr r e n)).
Proof.
  intros H. unfold shr. destruct n; simpl; try assumption.
  rewrite shr_iter_m by assumption. apply Z.shiftr_nonneg. assumption.
Qed.

(** A shift by fewer bits than the mantissa has keeps it positive and keeps
    the position of its leading bit. *)
Lemma shr_pos r e n :
  0 < shr_m r -> n < Zdigits2 (shr_m r) ->
  0 < shr_m (fst (shr r e n)) /\
  Zdigits2 (shr_m (fst (shr r e n))) + snd (shr r e n) = Zdigits2 (shr_m r) + e.
Proof.
  intros Hm Hn. unfold shr. destruct n as [|p|p]; simpl; try (split; [assumption|reflexivity]).
  rewrite shr_iter_m by lia.
  destruct (Zdigits2_shiftr (shr_m r) (Z.pos p)) as [H1 H2]; try lia.
Qed.

Lemma fexp_spec e : SpecFloat.fexp prec emax e = Z.max (e - 53) (-1074).
Proof. reflexivity. Qed.

Lemma shr_fexp_nonneg m e l : 0 <= m -> 0 <= shr_m (fst (shr_fexp prec emax m e l)).
Proof.
  intros H. unfold shr_fexp. apply shr_nonneg. rewrite shr_record_of_loc_m. assumption.
Qed.

Lemma shr_fexp_pos m e l :
  0 < m -> -1074 < Zdigits2 m + e ->
  0 < shr_m (fst (shr_fexp prec emax m e l)) /\
  Zdigits2 (shr_m (fst (shr_fexp prec emax m e l))) + snd (shr_fexp prec emax m e l)
  = Zdigits2 m + e.
Proof.
  intros Hm He. unfold shr_fexp.
  pose proof (shr_pos (shr_record_of_loc m l) e
                (SpecFloat.fexp prec emax (Zdigits2 m + e) - e)) as H.
  rewrite shr_record_of_loc_m in H. apply H; [assumption|].
  rewrite fexp_spec. pose proof (Zdigits2_pos m Hm). lia.
Qed.

(** *** Rounding: sign and magnitude *)

Lemma round_nearest_even_bounds m l :
  m <= round_nearest_even m l <= m + 1.
Proof. destruct l as [|[]]; simpl; try lia. destruct (Z.even m); lia. Qed.

(** Rounding a non-negative mantissa gives a zero, a finite number or an
    infinity of the requested sign, never NaN. *)
Lemma binary_round_aux_nonneg s m e l :
  0 <= m ->
  binary_round_aux prec emax s m e l = S754_zero s \/
  binary_round_aux prec emax s m e l = S754_infinity s \/
  exists m' e', binary_round_aux prec emax s m e l = S754_finite s m' e'.
Proof.
  intros Hm. unfold binary_round_aux.
  pose proof (shr_fexp_nonneg m e l Hm) as H1.
  destruct (shr_fexp prec emax m e l) as [r1 e1]. simpl in H1.
  pose proof (round_nearest_even_bounds (shr_m r1) (loc_of_shr_record r1)) as Hr.
  pose proof (shr_fexp_nonneg (round_nearest_even (shr_m r1) (loc_of_shr_record r1)) e1 loc_Exact) as H2.
  destruct (shr_fexp prec emax (round_nearest_even (shr_m r1) (loc_of_shr_record r1)) e1 loc_Exact)
    as [r2 e2]. simpl in H2.
  destruct (shr_m r2) as [|p|p].
  - auto.
  - destruct (e2 <=? emax - prec); eauto.
  - lia.
Qed.

(** Rounding a positive mantissa whose value is at least the least subnormal
    gives a non-zero number, no smaller in magnitude class. *)
Lemma binary_round_aux_pos s m e l :
  0 < m -> -1074 < Zdigits2 m + e ->
  binary_round_aux prec emax s m e l = S754_infinity s \/
  exists m' e', binary_round_aux prec emax s m e l = S754_finite s m' e'
                /\ Zdigits2 m + e <= Zdigits2 (Z.pos m') + e'.
Proof.
  intros Hm He. unfold binary_round_aux.
  pose proof (shr_fexp_pos m e l Hm He) as [H1 H1'].
  destruct (shr_fexp prec emax m e l) as [r1 e1]. simpl in H1, H1'.
  pose proof (round_nearest_even_bounds (shr_m r1) (loc_of_shr_record r1)) as Hr.
  set (m2 := round_nearest_even (shr_m r1) (loc_of_shr_record r1)) in *.
  assert (Hd : Zdigits2 (shr_m r1) <= Zdigits2 m2) by (apply Zdigits2_le; lia).
  pose proof (shr_fexp_pos m2 e1 loc_Exact) as H2.
  destruct (shr_fexp prec emax m2 e1 loc_Exact) as [r2 e2]. simpl in H2.
  destruct H2 as [H2 H2']; try lia.
  destruct (shr_m r2) as [|p|p]; try lia.
  destruct (e2 <=? emax - prec); [right|left; reflexivity].
  exists p, e2. split; [reflexivity|lia].
Qed.

(** *** Rounding: exact cases *)

Lemma nat_iter_shr_exact n : forall m, 0 <= m ->
  nat_rect (fun _ => shr_record) (Build_shr_record (m * 2 ^ Z.of_nat n) false false)
           (fun _ => shr_1) n
  = Build_shr_record m false false.
Proof.
  induction n; intros m Hm.
  - simpl. f_equal. lia.
  - cbn [nat_rect].
    replace (m * 2 ^ Z.of_nat (S n)) with ((2 * m) * 2 ^ Z.of_nat n).
    2:{ rewrite Nat2Z.inj_succ, Z.pow_succ_r by lia. ring. }
    rewrite IHn by lia. destruct m as [|p|p]; try lia; reflexivity.
Qed.

Lemma shr_exact m e k : 0 <= m -> 0 <= k ->
  shr (Build_shr_record (m * 2 ^ k) false false) e k = (Build_shr_record m false false, e + k).
Proof.
  intros Hm Hk. unfold shr. destruct k as [|p|p]; try lia.
  - simpl. rewrite Z.mul_1_r, Z.add_0_r. reflexivity.
  - rewrite iter_pos_iter, Pos2Nat.inj_iter.
    rewrite <- (positive_nat_Z p) at 1.
    rewrite nat_iter_shr_exact by assumption. reflexivity.
Qed.

Lemma Zdigits2_mul_pow2 m k : 0 < m -> 0 <= k -> Zdigits2 (m * 2 ^ k) = Zdigits2 m + k.
Proof.
  intros Hm Hk. assert (0 < 2 ^ k) by (apply Z.pow_pos_nonneg; lia).
  rewrite !Zdigits2_log2 by nia. rewrite Z.log2_mul_pow2 by lia. lia.
Qed.

Lemma pos_iter_xO m d : Z.pos (Pos.iter xO m d) = Z.pos m * 2 ^ Z.pos d.
Proof.
  rewrite (Pos.iter_swap_gen _ _ Z.pos xO (Z.mul 2)) by reflexivity.
  change (Pos.iter (Z.mul 2) (Z.pos m) d) with (Z.shiftl (Z.pos m) (Z.pos d)).
  apply Z.shiftl_mul_pow2. lia.
Qed.

Lemma shl_align_fst m e e' : e' <= e ->
  Z.pos (fst (shl_align m e e')) = Z.pos m * 2 ^ (e - e').
Proof.
  intros H. unfold shl_align. destruct (e' - e) as [|p|p] eqn:E; try lia.
  - simpl. replace (e - e') with 0 by lia. rewrite Z.pow_0_r. lia.
  - simpl. rewrite pos_iter_xO. replace (e - e') with (Z.pos p) by lia. reflexivity.
Qed.

(** A sum or product that fits the 53 bits of the mantissa after dropping
    [k] zero bits is rounded to itself. *)
Lemma binary_round_aux_exact s m1 k e :
  Zdigits2 (Z.pos m1) = 53 -> 0 <= k -> -1074 <= e + k <= 971 ->
  binary_round_aux prec emax s (Z.pos m1 * 2 ^ k) e loc_Exact = S754_finite s m1 (e + k).
Proof.
  intros Hd Hk He. unfold binary_round_aux, shr_fexp.
  rewrite Zdigits2_mul_pow2 by lia. rewrite Hd.
  change (shr_record_of_loc (Z.pos m1 * 2 ^ k) loc_Exact)
    with (Build_shr_record (Z.pos m1 * 2 ^ k) false false).
  replace (SpecFloat.fexp prec emax (53 + k + e) - e) with k
    by (unfold SpecFloat.fexp, SpecFloat.emin, prec, emax; lia).
  rewrite shr_exact by lia. cbn [shr_m loc_of_shr_record round_nearest_even].
  rewrite Hd.
  replace (SpecFloat.fexp prec emax (53 + (e + k)) - (e + k)) with 0
    by (unfold SpecFloat.fexp, SpecFloat.emin, prec, emax; lia).
  cbn [shr_record_of_loc shr shr_m].
  replace (e + k <=? emax - prec) with true; [reflexivity|].
  symmetry. apply Z.leb_le. unfold emax, prec. lia.
Qed.

Lemma binary_round_exact s m1 k e M :
  Z.pos M = Z.pos m1 * 2 ^ k ->
  Zdigits2 (Z.pos m1) = 53 -> 0 <= k -> -1074 <= e + k <= 971 ->
  binary_round prec emax s M e = S754_finite s m1 (e + k).
Proof.
  intros HM Hd Hk He. unfold binary_round.
  assert (Hal : shl_align M e (SpecFloat.fexp prec emax (Z.pos (digits2_pos M) + e)) = (M, e)).
  { change (Z.pos (digits2_pos M)) with (Zdigits2 (Z.pos M)).
    rewrite HM, Zdigits2_mul_pow2, Hd by lia.
    unfold shl_align.
    replace (SpecFloat.fexp prec emax (53 + k + e) - e) with k
      by (unfold SpecFloat.fexp, SpecFloat.emin, prec, emax; lia).
    destruct k; try lia; reflexivity. }
  rewrite Hal, HM. apply binary_round_aux_exact; assumption.
Qed.

(** *** The double of a count *)

Lemma Prim2SF_one : Prim2SF 1%float = SF64one.
Proof. vm_compute. reflexivity. Qed.

Lemma Zdigits2_range N : 0 < N -> 2 ^ (Zdigits2 N - 1) <= N < 2 ^ Zdigits2 N.
Proof.
  intros H. rewrite Zdigits2_log2 by assumption.
  pose proof (Z.log2_spec N H). replace (Z.log2 N + 1 - 1) with (Z.log2 N) by lia.
  replace (Z.log2 N + 1) with (Z.succ (Z.log2 N)) by lia. assumption.
Qed.

Lemma Zdigits2_le_54 N : 0 < N <= 2 ^ 53 -> 1 <= Zdigits2 N <= 54.
Proof.
  intros H. pose proof (Zdigits2_pos N ltac:(lia)).
  pose proof (Zdigits2_le N (2 ^ 53) ltac:(lia) ltac:(lia)) as H1.
  change (Zdigits2 (2 ^ 53)) with 54 in H1. lia.
Qed.

Lemma mant_spec N : 0 < N <= 2 ^ 53 ->
  0 < mant N /\ Zdigits2 (mant N) = 53 /\ N * 2 ^ 52 = mant N * 2 ^ (Zdigits2 N - 1).
Proof.
  intros H. unfold mant. pose proof (Zdigits2_le_54 N H) as Hd.
  pose proof (Zdigits2_range N ltac:(lia)) as Hr.
  destruct (Z.eq_dec (Zdigits2 N) 54) as [E|E].
  - rewrite E in *. assert (N = 2 ^ 53) by lia. subst N. vm_compute. intuition congruence.
  - replace (54 - Zdigits2 N) with (Z.succ (53 - Zdigits2 N)) by lia.
    rewrite Z.pow_succ_r by lia.
    replace (N * (2 * 2 ^ (53 - Zdigits2 N))) with (N * 2 ^ (53 - Zdigits2 N) * 2) by ring.
    rewrite Z.div_mul by lia.
    assert (0 < 2 ^ (53 - Zdigits2 N)) by (apply Z.pow_pos_nonneg; lia).
    split; [nia|]. split.
    + rewrite Zdigits2_mul_pow2 by lia. lia.
    + rewrite <- Z.mul_assoc, <- Z.pow_add_r by lia. f_equal. f_equal. lia.
Qed.

Lemma SFint_pos N : 0 < N <= 2 ^ 53 ->
  SFint N = S754_finite false (Z.to_pos (mant N)) (Zdigits2 N - 53).
Proof. intros H. unfold SFint. destruct (Z.eqb_spec N 0); [lia|reflexivity]. Qed.

(** Adding one to the double of an integer below 2^53 is exact. *)
Lemma SFint_succ N : 0 <= N < 2 ^ 53 -> SF64add (SFint N) SF64one = SFint (N + 1).
Proof.
  intros H. destruct (Z.eq_dec N 0) as [->|Hn]; [vm_compute; reflexivity|].
  rewrite !SFint_pos by lia.
  destruct (mant_spec N ltac:(lia)) as (Hm & Hdm & HmN).
  destruct (mant_spec (N + 1) ltac:(lia)) as (Hm' & Hdm' & HmN').
  pose proof (Zdigits2_le_54 N ltac:(lia)) as HdN.
  pose proof (Zdigits2_le_54 (N + 1) ltac:(lia)) as HdN'.
  assert (HdN1 : 2 <= Zdigits2 (N + 1)).
  { pose proof (Zdigits2_le 2 (N + 1) ltac:(lia) ltac:(lia)) as Hx.
    change (Zdigits2 2) with 2 in Hx. assumption. }
  assert (HdNle : Zdigits2 N <= 53).
  { pose proof (Zdigits2_le N (2 ^ 53 - 1) ltac:(lia) ltac:(lia)) as Hx.
    change (Zdigits2 (2 ^ 53 - 1)) with 53 in Hx. assumption. }
  unfold SF64add, SF64one, SFadd.
  replace (Z.min (Zdigits2 N - 53) (-52)) with (-52) by lia.
  cbn [cond_Zopp].
  rewrite shl_align_fst by lia.
  change (Z.pos (fst (shl_align 4503599627370496 (-52) (-52)))) with (2 ^ 52).
  rewrite Z2Pos.id by assumption.
  replace (Zdigits2 N - 53 - -52) with (Zdigits2 N - 1) by lia.
  rewrite <- HmN.
  replace (N * 2 ^ 52 + 2 ^ 52) with ((N + 1) * 2 ^ 52) by ring.
  rewrite HmN'.
  assert (Hp : 0 < mant (N + 1) * 2 ^ (Zdigits2 (N + 1) - 1)).
  { assert (0 < 2 ^ (Zdigits2 (N + 1) - 1)) by (apply Z.pow_pos_nonneg; lia). nia. }
  destruct (mant (N + 1) * 2 ^ (Zdigits2 (N + 1) - 1)) as [|M|M] eqn:EM; try lia.
  unfold binary_normalize.
  rewrite (binary_round_exact false (Z.to_pos (mant (N + 1))) (Zdigits2 (N + 1) - 1) (-52) M).
  - f_equal. lia.
  - rewrite Z2Pos.id by assumption. symmetry. assumption.
  - rewrite Z2Pos.id by assumption. assumption.
  - lia.
  - lia.
Qed.

Lemma SFint_sat : SF64add (SFint (2 ^ 53)) SF64one = SFint (2 ^ 53).
Proof. vm_compute. reflexivity. Qed.

(** [Number_of_nat n] is the double of [n], exactly, up to 2^53, where it
    stays. *)
Lemma Prim2SF_Number_of_nat n :
  Prim2SF (Number_of_nat n) = SFint (Z.min (Z.of_nat n) (2 ^ 53)).
Proof.
  induction n.
  - vm_compute. reflexivity.
  - cbn [Number_of_nat]. rewrite add_spec, IHn, Prim2SF_one.
    destruct (Z_lt_le_dec (Z.of_nat n) (2 ^ 53)).
    + rewrite Z.min_l by lia. rewrite SFint_succ by lia. f_equal. lia.
    + rewrite !Z.min_r by lia. apply SFint_sat.
Qed.

(** *** The sign of a sum, a product, a square root and a quotient *)

Lemma SFpositive_nonneg f : SFpositive f = true -> SFnonneg f = true.
Proof. destruct f as [[]|[]| |[] m e]; simpl; congruence. Qed.

Lemma SFfinite_nonneg_nonneg f : SFfinite_nonneg f = true -> SFnonneg f = true.
Proof. destruct f as [[]|[]| |[] m e]; simpl; congruence. Qed.

Lemma SFge1_positive f : SFge1 f = true -> SFpositive f = true.
Proof. destruct f as [[]|[]| |[] m e]; simpl; congruence. Qed.

Lemma binary_round_aux_nonneg' m e l : 0 <= m ->
  SFnonneg (binary_round_aux prec emax false m e l) = true.
Proof.
  intros H. destruct (binary_round_aux_nonneg false m e l H) as [E|[E|(m' & e' & E)]];
    rewrite E; reflexivity.
Qed.

Lemma binary_round_aux_pos' m e l : 0 < m -> -1074 < Zdigits2 m + e ->
  SFpositive (binary_round_aux prec emax false m e l) = true.
Proof.
  intros H H'. destruct (binary_round_aux_pos false m e l H H') as [E|(m' & e' & E & _)];
    rewrite E; reflexivity.
Qed.

Lemma SFadd_nonneg x y :
  SFnonneg x = true -> SFnonneg y = true -> SFnonneg (SF64add x y) = true.
Proof.
  destruct x as [[]|[]| |[] mx ex], y as [[]|[]| |[] my ey]; simpl; try congruence.
  intros _ _. unfold SF64add, SFadd. cbn [cond_Zopp]. 
  set (a := fst (shl_align mx ex (Z.min ex ey))).
  set (b := fst (shl_align my ey (Z.min ex ey))).
  change (Z.pos a + Z.pos b) with (Z.pos (a + b)).
  unfold binary_normalize, binary_round.
  destruct (shl_align (a + b) _ _) as [mz ez].
  apply binary_round_aux_nonneg'. lia.
Qed.

Lemma Zdigits2_mul a b : 0 < a -> 0 < b -> Zdigits2 a + Zdigits2 b - 1 <= Zdigits2 (a * b).
Proof.
  intros Ha Hb. rewrite !Zdigits2_log2 by nia.
  pose proof (Z.log2_mul_below a b Ha Hb). lia.
Qed.

Lemma SFmul_ge1 x y :
  SFge1 x = true -> SFge1 y = true -> SFpositive (SF64mul x y) = true.
Proof.
  destruct x as [[]|[]| |[] mx ex], y as [[]|[]| |[] my ey];
    cbn [SFge1 SF64mul SFmul SFpositive xorb]; try congruence.
  intros Hx Hy. apply Z.leb_le in Hx, Hy.
  unfold SF64mul, SFmul. cbn [xorb]. apply binary_round_aux_pos'; [lia|].
  pose proof (Zdigits2_mul (Z.pos mx) (Z.pos my) ltac:(lia) ltac:(lia)) as H.
  cbn [Zdigits2 Z.mul] in *. lia.
Qed.

Lemma valid_binary_emin s m e : valid_binary (S754_finite s m e) = true -> -1074 <= e.
Proof.
  unfold SpecFloat.valid_binary, bounded, canonical_mantissa. intros H.
  apply andb_prop in H. destruct H as [H _]. apply Z.eqb_eq in H.
  unfold SpecFloat.fexp, SpecFloat.emin, prec, emax in H. lia.
Qed.

Lemma SFsqrt_positive x :
  valid_binary x = true -> SFpositive x = true -> SFpositive (SF64sqrt x) = true.
Proof.
  destruct x as [[]|[]| |[] mx ex]; simpl; try congruence.
  intros Hv _. apply (valid_binary_emin false mx ex) in Hv.
  unfold SF64sqrt, SFsqrt, SFsqrt_core_binary.
  set (e' := Z.min _ (Z.div2 ex)).
  set (s := ex - 2 * e').
  set (m' := match s with Z.pos _ => Z.shiftl (Z.pos mx) s | 0 => Z.pos mx | Z.neg _ => 0 end).
  assert (He'lo : -1074 <= e').
  { subst e'. rewrite Z.div2_div. unfold SpecFloat.fexp, SpecFloat.emin, prec, emax.
    pose proof (Z.div_le_lower_bound ex 2 (-1074) ltac:(lia) ltac:(lia)). lia. }
  assert (He'hi : 2 * e' <= ex).
  { subst e'. rewrite Z.div2_div.
    pose proof (Z.mul_div_le ex 2 ltac:(lia)). lia. }
  assert (Hm' : 1 <= m').
  { subst m'. destruct s as [|p|p] eqn:Es; try lia.
    rewrite Z.shiftl_mul_pow2 by lia.
    assert (0 < 2 ^ Z.pos p) by (apply Z.pow_pos_nonneg; lia). nia. }
  pose proof (Z.sqrtrem_spec m' ltac:(lia)) as Hs.
  destruct (Z.sqrtrem m') as [q r].
  assert (Hq : 1 <= q) by nia.
  apply binary_round_aux_pos'; [lia|].
  pose proof (Zdigits2_pos q ltac:(lia)). lia.
Qed.

Lemma SFdiv_nonneg x y :
  SFfinite_nonneg x = true -> SFpositive y = true -> SFnonneg (SF64div x y) = true.
Proof.
  destruct x as [[]|[]| |[] mx ex], y as [[]|[]| |[] my ey]; simpl; try congruence.
  intros _ _. unfold SF64div, SFdiv, SFdiv_core_binary. cbn [xorb].
  set (e' := Z.min _ _). set (s := ex - ey - e').
  set (m' := match s with Z.pos _ => Z.shiftl (Z.pos mx) s | 0 => Z.pos mx | Z.neg _ => 0 end).
  assert (Hm' : 0 <= m').
  { subst m'. destruct s; try lia. apply Z.shiftl_nonneg. lia. }
  pose proof (Z_div_mod m' (Z.pos my) ltac:(lia)) as Hd.
  destruct (Z.div_eucl m' (Z.pos my)) as [q r].
  apply binary_round_aux_nonneg'. nia.
Qed.

Lemma SFint_finite_nonneg N : 0 <= N -> SFfinite_nonneg (SFint N) = true.
Proof. intros H. unfold SFint. destruct (N =? 0); reflexivity. Qed.

Lemma SFint_ge1 N : 0 < N <= 2 ^ 53 -> SFge1 (SFint N) = true.
Proof.
  intros H. rewrite SFint_pos by assumption. cbn [SFge1].
  destruct (mant_spec N H) as (Hm & Hd & _).
  change (Z.pos (digits2_pos (Z.to_pos (mant N)))) with (Zdigits2 (Z.pos (Z.to_pos (mant N)))).
  rewrite Z2Pos.id by assumption. rewrite Hd.
  pose proof (Zdigits2_pos N ltac:(lia)). apply Z.leb_le. lia.
Qed.

Lemma Number_of_nat_finite_nonneg n : SFfinite_nonneg (Prim2SF (Number_of_nat n)) = true.
Proof. rewrite Prim2SF_Number_of_nat. apply SFint_finite_nonneg. lia. Qed.

Lemma Number_of_nat_ge1 n : (0 < n)%nat -> SFge1 (Prim2SF (Number_of_nat n)) = true.
Proof. intros H. rewrite Prim2SF_Number_of_nat. apply SFint_ge1. lia. Qed.

(** *** The order of doubles *)

Ltac cmp_cases :=
  repeat match goal with
  | |- context [Z.compare ?a ?b] => destruct (Z.compare_spec a b)
  | |- context [Pos.compare_cont Eq ?a ?b] =>
      change (Pos.compare_cont Eq a b) with (Pos.compare a b);
      destruct (Pos.compare_spec a b)
  | H : context [Z.compare ?a ?b] |- _ => destruct (Z.compare_spec a b)
  | H : context [Pos.compare_cont Eq ?a ?b] |- _ =>
      change (Pos.compare_cont Eq a b) with (Pos.compare a b) in H;
      destruct (Pos.compare_spec a b)
  end.

Lemma SFcompare_refl f : SFnot_nan f = true -> SFcompare f f = Some Eq.
Proof.
  destruct f as [[]|[]| |[] m e]; cbn [SFnot_nan SFcompare]; try congruence; intros _;
    rewrite Z.compare_refl; change (Pos.compare_cont Eq m m) with (Pos.compare m m);
    rewrite Pos.compare_refl; reflexivity.
Qed.

Lemma SFcompare_antisym x y :
  SFcompare y x = option_map CompOpp (SFcompare x y).
Proof.
  destruct x as [[]|[]| |[] mx ex], y as [[]|[]| |[] my ey]; cbn [SFcompare option_map CompOpp];
    try reflexivity;
    rewrite (Z.compare_antisym ex ey);
    change (Pos.compare_cont Eq my mx) with (Pos.compare my mx);
    change (Pos.compare_cont Eq mx my) with (Pos.compare mx my);
    rewrite (Pos.compare_antisym mx my);
    destruct (ex ?= ey); cbn [CompOpp]; try reflexivity;
    destruct (Pos.compare mx my); reflexivity.
Qed.

Lemma SFleb_cmp x y : SFleb x y = cmp_le (SFcompare x y).
Proof. unfold SFleb, cmp_le. destruct (SFcompare x y) as [[]|]; reflexivity. Qed.
Lemma SFltb_cmp x y : SFltb x y = cmp_lt (SFcompare x y).
Proof. unfold SFltb, cmp_lt. destruct (SFcompare x y) as [[]|]; reflexivity. Qed.

Lemma SFcompare_trans x y z :
  cmp_le (SFcompare x y) = true -> cmp_le (SFcompare y z) = true ->
  cmp_le (SFcompare x z) = true /\
  (cmp_lt (SFcompare x y) = true \/ cmp_lt (SFcompare y z) = true ->
   cmp_lt (SFcompare x z) = true).
Proof.
  destruct x as [[]|[]| |[] mx ex], y as [[]|[]| |[] my ey], z as [[]|[]| |[] mz ez];
    cbn [SFcompare cmp_le cmp_lt]; try discriminate; try (intros; split; [reflexivity|tauto]);
    try (intros; split; [reflexivity|intros [|]; congruence]).
  all: cmp_cases; cbn [CompOpp]; try discriminate; intros _ _;
    try (exfalso; lia);
    try (split; [reflexivity|intros [|]; first [reflexivity|discriminate]]).
Qed.

(** *** The sign of a difference *)

Lemma shl_align_digits m e e' :
  Zdigits2 (Z.pos (fst (shl_align m e e'))) + snd (shl_align m e e') = Zdigits2 (Z.pos m) + e.
Proof.
  unfold shl_align. destruct (e' - e) as [|p|p] eqn:E; cbn [fst snd]; try reflexivity.
  rewrite pos_iter_xO, Zdigits2_mul_pow2 by lia. lia.
Qed.

Lemma binary_round_pos s m e : -1074 < Zdigits2 (Z.pos m) + e ->
  binary_round prec emax s m e = S754_infinity s \/
  exists m' e', binary_round prec emax s m e = S754_finite s m' e'.
Proof.
  intros H. unfold binary_round.
  pose proof (shl_align_digits m e (SpecFloat.fexp prec emax (Z.pos (digits2_pos m) + e))) as Hd.
  destruct (shl_align m e _) as [mz ez]. cbn [fst snd] in Hd.
  destruct (binary_round_aux_pos s (Z.pos mz) ez loc_Exact) as [E|(m' & e' & E & _)];
    [lia|lia|left; assumption|right; eauto].
Qed.

Lemma canonical_digits s m e : valid_binary (S754_finite s m e) = true ->
  -1074 <= e /\ Zdigits2 (Z.pos m) <= 53 /\ (-1074 < e -> Zdigits2 (Z.pos m) = 53).
Proof.
  unfold SpecFloat.valid_binary, bounded, canonical_mantissa. intros H.
  apply andb_prop in H. destruct H as [H _]. apply Z.eqb_eq in H.
  unfold SpecFloat.fexp, SpecFloat.emin, prec, emax in H.
  change (Zdigits2 (Z.pos m)) with (Z.pos (digits2_pos m)). lia.
Qed.

(** Two canonical mantissas, brought to the smaller exponent, compare as
    [SFcompare] compares them: by exponent first. *)
Lemma compare_aligned mx ex my ey :
  valid_binary (S754_finite false mx ex) = true ->
  valid_binary (S754_finite false my ey) = true ->
  (Z.pos (fst (shl_align mx ex (Z.min ex ey))) ?= Z.pos (fst (shl_align my ey (Z.min ex ey)))) =
  match ex ?= ey with
  | Lt => Lt
  | Gt => Gt
  | Eq => Pos.compare_cont Eq mx my
  end.
Proof.
  intros Hx Hy.
  destruct (canonical_digits _ _ _ Hx) as (Hex & Hdx & Hnx).
  destruct (canonical_digits _ _ _ Hy) as (Hey & Hdy & Hny).
  rewrite !shl_align_fst by lia.
  pose proof (Zdigits2_range (Z.pos mx) ltac:(lia)) as Rx.
  pose proof (Zdigits2_range (Z.pos my) ltac:(lia)) as Ry.
  assert (Hmono : forall d, Zdigits2 d <= 53 -> 0 < d -> d < 2 ^ 53).
  { intros d Hd Hp. pose proof (Zdigits2_range d Hp) as R.
    pose proof (Z.pow_le_mono_r 2 (Zdigits2 d) 53 ltac:(lia) Hd). lia. }
  destruct (Z.compare_spec ex ey) as [E|E|E].
  - subst ey. rewrite Z.min_id, Z.sub_diag, Z.pow_0_r, !Z.mul_1_r. reflexivity.
  - rewrite Z.min_l by lia. rewrite Z.sub_diag, Z.pow_0_r, Z.mul_1_r.
    apply Z.compare_lt_iff.
    specialize (Hny ltac:(lia)). rewrite Hny in Ry. change (2 ^ (53 - 1)) with (2 ^ 52) in Ry.
    pose proof (Hmono (Z.pos mx) Hdx ltac:(lia)).
    pose proof (Z.pow_le_mono_r 2 1 (ey - ex) ltac:(lia) ltac:(lia)) as Hp.
    change (2 ^ 1) with 2 in Hp. change (2 ^ 53) with (2 ^ 52 * 2) in *. nia.
  - rewrite Z.min_r by lia. rewrite Z.sub_diag, Z.pow_0_r, Z.mul_1_r.
    apply Z.compare_gt_iff.
    specialize (Hnx ltac:(lia)). rewrite Hnx in Rx. change (2 ^ (53 - 1)) with (2 ^ 52) in Rx.
    pose proof (Hmono (Z.pos my) Hdy ltac:(lia)).
    pose proof (Z.pow_le_mono_r 2 1 (ex - ey) ltac:(lia) ltac:(lia)) as Hp.
    change (2 ^ 1) with 2 in Hp. change (2 ^ 53) with (2 ^ 52 * 2) in *. nia.
Qed.

(** The sign of a difference of two finite non-negative doubles tells which
    is larger: [0 < b - a] exactly when [a < b]. *)
Lemma SFsub_sign a b :
  valid_binary a = true -> valid_binary b = true ->
  SFfinite_nonneg a = true -> SFfinite_nonneg b = true ->
  SFltb (S754_zero false) (SF64sub b a) = SFltb a b.
Proof.
  destruct a as [[]|[]| |[] mx ex], b as [[]|[]| |[] my ey];
    cbn [SFfinite_nonneg]; try discriminate; intros Ha Hb _ _; try reflexivity.
  unfold SF64sub, SFsub. cbn [cond_Zopp].
  unfold SFltb at 2. cbn [SFcompare].
  rewrite <- (compare_aligned mx ex my ey Ha Hb).
  rewrite (Z.min_comm ey ex).
  set (a' := fst (shl_align mx ex (Z.min ex ey))).
  set (b' := fst (shl_align my ey (Z.min ex ey))).
  destruct (canonical_digits _ _ _ Ha) as (Hex & _).
  destruct (canonical_digits _ _ _ Hb) as (Hey & _).
  destruct (Z.compare_spec (Z.pos a') (Z.pos b')) as [E|E|E].
  - rewrite E, Z.sub_diag. reflexivity.
  - destruct (Z.pos b' - Z.pos a') as [|d|d] eqn:Ed; try lia.
    unfold binary_normalize.
    destruct (binary_round_pos false d (Z.min ex ey)) as [R|(m' & e' & R)].
    + pose proof (Zdigits2_pos (Z.pos d) ltac:(lia)). lia.
    + rewrite R. reflexivity.
    + rewrite R. reflexivity.
  - destruct (Z.pos b' - Z.pos a') as [|d|d] eqn:Ed; try lia.
    unfold binary_normalize.
    destruct (binary_round_pos true d (Z.min ex ey)) as [R|(m' & e' & R)].
    + pose proof (Zdigits2_pos (Z.pos d) ltac:(lia)). lia.
    + rewrite R. reflexivity.
    + rewrite R. reflexivity.
Qed.


(** ** [Math.min] *)

Lemma Prim2SF_zero : Prim2SF 0%float = S754_zero false.
Proof. vm_compute. reflexivity. Qed.

Lemma SFnonneg_not_nan f : SFnonneg f = true -> SFnot_nan f = true.
Proof. destruct f as [[]|[]| |[] m e]; simpl; congruence. Qed.

Lemma is_nan_false x : SFnot_nan (Prim2SF x) = true -> is_nan x = false.
Proof.
  intros H. unfold is_nan. rewrite eqb_spec. unfold SFeqb.
  rewrite SFcompare_refl by assumption. reflexivity.
Qed.

(** [Math.min(1, x)] of a non-negative [x] is a score between 0 and 1. *)
Lemma Math_min_1_range x :
  SFnonneg (Prim2SF x) = true ->
  is_score (Math_min 1%float x) /\
  (0 <=? Math_min 1 x)%float = true /\ (Math_min 1 x <=? 1)%float = true.
Proof.
  intros Hx. unfold Math_min.
  change (is_nan 1%float) with false. rewrite (is_nan_false x) by (apply SFnonneg_not_nan; assumption).
  change (get_sign 1%float) with false. cbn [orb].
  unfold is_score.
  destruct (1 <? x)%float eqn:L.
  - vm_compute. auto.
  - rewrite ltb_spec, Prim2SF_one, SFltb_cmp in L.
    destruct (x <? 1)%float;
      rewrite !leb_spec, Prim2SF_zero, Prim2SF_one, !SFleb_cmp;
      rewrite (SFcompare_antisym SF64one (Prim2SF x));
      (destruct (Prim2SF x) as [[]|[]| |[] m e]; try discriminate Hx;
       cbn [SFfinite_nonneg SFcompare SF64one cmp_lt cmp_le option_map CompOpp] in *;
       try discriminate L; try (repeat split; reflexivity);
       repeat split; try reflexivity;
       destruct (-52 ?= e); cbn [cmp_lt cmp_le CompOpp] in *; try congruence;
       destruct (Pos.compare_cont Eq 4503599627370496 m);
       cbn [cmp_lt cmp_le CompOpp] in *; congruence).
Qed.

Local Close Scope Z_scope.

(** ** [computeSimilarity] *)

Lemma new_Set_acc l : forall s,
  NoDup s ->
  NoDup (fold_left (fun s t => set_add string_dec t s) l s) /\
  (forall t, In t (fold_left (fun s t => set_add string_dec t s) l s) <-> In t s \/ In t l).
Proof.
  induction l as [|a l IH]; intros s Hs; cbn [fold_left].
  - split; [assumption|]. intros t. cbn [In]. tauto.
  - destruct (IH (set_add string_dec a s) (set_add_nodup string_dec a Hs)) as [H1 H2].
    split; [assumption|]. intros t. rewrite H2, set_add_iff. cbn [In]. intuition congruence.
Qed.

Lemma new_Set_NoDup l : NoDup (new_Set l).
Proof. apply new_Set_acc. constructor. Qed.

Lemma new_Set_In l t : In t (new_Set l) <-> In t l.
Proof.
  unfold new_Set. destruct (new_Set_acc l (empty_set string) (NoDup_nil _)) as [_ H].
  rewrite H. cbn. tauto.
Qed.

(** The size of the set of the tokens is the number of distinct tokens. *)
Lemma Set_size_new_Set l : Set_size (new_Set l) = List.length (nodup string_dec l).
Proof.
  unfold Set_size. apply Permutation_length, NoDup_Permutation.
  - apply new_Set_NoDup.
  - apply NoDup_nodup.
  - intros t. rewrite new_Set_In, nodup_In. tauto.
Qed.

Lemma Set_has_new_Set l t :
  Set_has (new_Set l) t = existsb (String.eqb t) (nodup string_dec l).
Proof.
  unfold Set_has. destruct (existsb (String.eqb t) (nodup string_dec l)) eqn:E.
  - apply set_mem_correct2. apply existsb_exists in E. destruct E as (u & Hu & Et).
    apply String.eqb_eq in Et. subst u. apply (proj2 (new_Set_In l t)).
    apply (proj1 (nodup_In string_dec l t)). assumption.
  - apply set_mem_complete2. intros Hin. apply (proj1 (new_Set_In l t)) in Hin.
    assert (existsb (String.eqb t) (nodup string_dec l) = true); [|congruence].
    apply existsb_exists. exists t.
    split; [apply (proj2 (nodup_In string_dec l t)); assumption|apply String.eqb_refl].
Qed.

(** The counter [matches], stepped by [++] at every matching token, is the
    number of the matching positions. *)
Lemma matches_loop (has : string -> bool) C : forall k,
  fold_left (fun m token => if has token then (m + 1)%float else m) C (Number_of_nat k)
  = Number_of_nat (k + List.length (filter has C)).
Proof.
  induction C as [|t C IH]; intros k; cbn [fold_left filter].
  - rewrite Nat.add_0_r. reflexivity.
  - destruct (has t).
    + change (Number_of_nat k + 1)%float with (Number_of_nat (S k)).
      rewrite IH. cbn [List.length]. f_equal. lia.
    + apply IH.
Qed.

Lemma computeSimilarity_score query content :
  computeSimilarity query content = score query content.
Proof.
  unfold computeSimilarity, score.
  rewrite Set_size_new_Set.
  destruct (nodup string_dec (tokenize query)) as [|t0 Q] eqn:EQ; [reflexivity|].
  destruct (tokenize content) as [|c0 C] eqn:EC; [reflexivity|].
  cbn [List.length Nat.eqb orb].
  change (0%float) with (Number_of_nat 0) at 1.
  rewrite matches_loop. cbn [Nat.add].
  rewrite (filter_ext _ (fun t => existsb (String.eqb t) (t0 :: Q))).
  2:{ intros t. rewrite Set_has_new_Set, EQ. reflexivity. }
  reflexivity.
Qed.

Lemma lit_0_3_nonneg : SFnonneg (Prim2SF lit_0_3) = true.
Proof. vm_compute. reflexivity. Qed.

(** A relevance score is zero or a positive finite double, between 0 and 1. *)
Lemma score_range query content :
  is_score (score query content) /\
  (0 <=? score query content)%float = true /\ (score query content <=? 1)%float = true.
Proof.
  unfold score.
  destruct (nodup string_dec (tokenize query)) as [|t0 Q];
    [vm_compute; auto|].
  destruct (tokenize content) as [|c0 C]; [vm_compute; auto|].
  apply Math_min_1_range.
  rewrite add_spec. apply SFadd_nonneg.
  - rewrite div_spec. apply SFdiv_nonneg.
    + apply Number_of_nat_finite_nonneg.
    + rewrite sqrt_spec. apply SFsqrt_positive; [apply Prim2SF_valid|].
      rewrite mul_spec. apply SFmul_ge1; apply Number_of_nat_ge1; cbn [List.length]; lia.
  - destruct (includes _ _); [apply lit_0_3_nonneg|vm_compute; reflexivity].
Qed.

Lemma computeSimilarity_is_score query content : is_score (computeSimilarity query content).
Proof. rewrite computeSimilarity_score. apply score_range. Qed.

(** [includes] is the test of a contiguous substring. *)
Lemma prefix_app sub s : prefix sub s = true <-> exists post, s = (sub ++ post)%string.
Proof.
  revert s. induction sub as [|c sub IH]; intros s.
  - split; [intros _; exists s; reflexivity|intros _; destruct s; reflexivity].
  - destruct s as [|d s]; cbn [prefix].
    + split; [discriminate|]. intros [post H]. discriminate.
    + destruct (ascii_dec c d) as [->|N].
      * rewrite IH. split; intros [post H]; exists post; cbn in *; congruence.
      * split; [discriminate|]. intros [post H]. cbn in H. congruence.
Qed.

Lemma includes_spec s sub :
  includes s sub = true <-> exists pre post, s = (pre ++ sub ++ post)%string.
Proof.
  induction s as [|c s IH]; cbn [includes].
  - rewrite orb_false_r, prefix_app. split.
    + intros [post H]. exists EmptyString, post. assumption.
    + intros (pre & post & H). destruct pre; cbn in H; [exists post; assumption|discriminate].
  - rewrite orb_true_iff, IH, prefix_app. split.
    + intros [[post H]|(pre & post & H)].
      * exists EmptyString, post. assumption.
      * exists (String c pre), post. cbn. congruence.
    + intros (pre & post & H). destruct pre as [|d pre]; cbn in H.
      * left. exists post. assumption.
      * right. exists pre, post. congruence.
Qed.

(** C4. [computeSimilarity] is the score of the specification: 0 when the
    query has no token or the content has none, and otherwise
    min(1, matches / sqrt(|Q| * |C|) + exactBoost) in the arithmetic of
    doubles, where [Q] is the set of the distinct tokens of the query, [C]
    the sequence of the tokens of the content, [matches] the number of
    positions of [C] whose token is in [Q], and [exactBoost] is 0.3 exactly
    when the lower-cased content contains the lower-cased query as a
    contiguous substring, and 0 otherwise.  The score is a double between 0
    and 1. *)
Theorem computeSimilarity_is_the_score query content :
  computeSimilarity query content = score query content /\
  (nodup string_dec (tokenize query) = [] \/ tokenize content = [] ->
   computeSimilarity query content = 0%float) /\
  (includes (toLowerCase content) (toLowerCase query) = true <->
   exists pre post, toLowerCase content = (pre ++ toLowerCase query ++ post)%string) /\
  (0 <=? computeSimilarity query content)%float = true /\
  (computeSimilarity query content <=? 1)%float = true.
Proof.
  split; [apply computeSimilarity_score|].
  split.
  - rewrite computeSimilarity_score. unfold score. intros [E|E]; rewrite E.
    + reflexivity.
    + destruct (nodup string_dec (tokenize query)); reflexivity.
  - split; [apply includes_spec|].
    rewrite computeSimilarity_score. apply score_range.
Qed.

(** ** The stable sort *)

Section StableSortFacts.
Context {A : Type}.
Variable after : A -> A -> bool.

Lemma sort_insert_perm x l : Permutation (sort_insert after x l) (x :: l).
Proof.
  induction l as [|y l IH]; cbn [sort_insert]; [reflexivity|].
  destruct (after x y); [|reflexivity].
  rewrite IH. apply perm_swap.
Qed.

Lemma stable_sort_perm l : Permutation (stable_sort after l) l.
Proof.
  induction l as [|x l IH]; cbn [stable_sort fold_right]; [reflexivity|].
  fold (stable_sort after l). rewrite sort_insert_perm. constructor. assumption.
Qed.

Lemma stable_sort_length l : List.length (stable_sort after l) = List.length l.
Proof. apply Permutation_length, stable_sort_perm. Qed.

Lemma stable_sort_In l x : In x (stable_sort after l) <-> In x l.
Proof.
  split; apply Permutation_in; [|symmetry]; apply stable_sort_perm.
Qed.

(** The elements are compared on a domain [P], on which the order is
    asymmetric and "not after" is transitive. *)
Variable P : A -> Prop.
Hypothesis after_asym : forall x y, P x -> P y -> after x y = true -> after y x = false.
Hypothesis not_after_trans : forall x y z, P x -> P y -> P z ->
  after x y = false -> after y z = false -> after x z = false.

Lemma sort_insert_sorted x l :
  P x -> Forall P l ->
  StronglySorted (fun a b => after a b = false) l ->
  StronglySorted (fun a b => after a b = false) (sort_insert after x l).
Proof.
  intros Hx Hl Hs. induction Hs as [|y l Hs IH Hy]; cbn [sort_insert].
  - repeat constructor.
  - inversion Hl as [|? ? Py Pl]; subst.
    destruct (after x y) eqn:E.
    + constructor; [apply IH; assumption|].
      eapply Permutation_Forall; [symmetry; apply sort_insert_perm|].
      constructor; [apply after_asym; assumption|assumption].
    + constructor; [constructor; assumption|].
      constructor; [assumption|].
      rewrite Forall_forall in *. intros z Hz.
      apply (not_after_trans x y z); auto.
Qed.

Lemma stable_sort_sorted l :
  Forall P l -> StronglySorted (fun a b => after a b = false) (stable_sort after l).
Proof.
  induction l as [|x l IH]; intros Hl; cbn [stable_sort fold_right]; [constructor|].
  fold (stable_sort after l). inversion Hl; subst.
  apply sort_insert_sorted; [assumption| |apply IH; assumption].
  eapply Permutation_Forall; [symmetry; apply stable_sort_perm|assumption].
Qed.

(** Stability: the elements of a class that the order does not separate
    keep their relative order. *)
Lemma sort_insert_filter (p : A -> bool) x l :
  (forall y, In y l -> p x = true -> p y = true -> after x y = false) ->
  filter p (sort_insert after x l) = filter p (x :: l).
Proof.
  induction l as [|y l IH]; intros H; cbn [sort_insert]; [reflexivity|].
  destruct (after x y) eqn:E; [|reflexivity].
  cbn [filter]. rewrite IH by (intros z Hz; apply H; right; exact Hz).
  cbn [filter]. destruct (p x) eqn:Px, (p y) eqn:Py; try reflexivity.
  rewrite H in E; [discriminate|left; reflexivity|auto|auto].
Qed.

Lemma stable_sort_filter (p : A -> bool) l :
  (forall x y, In x l -> In y l -> p x = true -> p y = true -> after x y = false) ->
  filter p (stable_sort after l) = filter p l.
Proof.
  induction l as [|x l IH]; intros H; cbn [stable_sort fold_right]; [reflexivity|].
  fold (stable_sort after l). rewrite sort_insert_filter.
  - cbn [filter]. rewrite IH; [reflexivity|].
    intros a b Ha Hb. apply H; right; assumption.
  - intros y Hy. apply H; [left; reflexivity|right].
    apply (proj1 (stable_sort_In l y)). assumption.
Qed.
End StableSortFacts.

(** ** The order of strings *)

Lemma ascii_compare_N a b : Ascii.compare a b = N.compare (N_of_ascii a) (N_of_ascii b).
Proof. reflexivity. Qed.

Lemma string_compare_not_lt_trans a : forall b c,
  String.compare a b <> Lt -> String.compare b c <> Lt -> String.compare a c <> Lt.
Proof.
  induction a as [|x a IH]; intros [|y b] [|z c]; cbn [String.compare]; try congruence.
  rewrite !ascii_compare_N.
  destruct (N.compare_spec (N_of_ascii x) (N_of_ascii y)) as [E1|E1|E1]; try congruence;
  destruct (N.compare_spec (N_of_ascii y) (N_of_ascii z)) as [E2|E2|E2]; try congruence;
  destruct (N.compare_spec (N_of_ascii x) (N_of_ascii z)) as [E3|E3|E3]; try congruence;
    try lia; intros; try apply (IH b c); assumption.
Qed.

Lemma string_ltb_asym a b : String.ltb a b = true -> String.ltb b a = false.
Proof.
  unfold String.ltb. rewrite (String.compare_antisym b a).
  destruct (String.compare a b); cbn; congruence.
Qed.

Lemma string_not_ltb_trans a b c :
  String.ltb a b = false -> String.ltb b c = false -> String.ltb a c = false.
Proof.
  unfold String.ltb. intros H1 H2.
  pose proof (string_compare_not_lt_trans a b c) as H.
  destruct (String.compare a b); try discriminate;
  destruct (String.compare b c); try discriminate;
  destruct (String.compare a c); try reflexivity; exfalso; apply H; congruence.
Qed.

(** ** The order of numbers *)

Lemma is_score_not_nan x : is_score x -> SFnot_nan (Prim2SF x) = true.
Proof. unfold is_score. destruct (Prim2SF x) as [[]|[]| |[] m e]; simpl; congruence. Qed.

(** [0 < b - a] exactly when [a < b], on scores. *)
Lemma sub_sign_scores a b :
  is_score a -> is_score b -> (0 <? b - a)%float = (a <? b)%float.
Proof.
  intros Ha Hb. rewrite !ltb_spec, sub_spec, Prim2SF_zero.
  apply SFsub_sign; auto using Prim2SF_valid.
Qed.

Lemma ltb_asym x y : (x <? y)%float = true -> (y <? x)%float = false.
Proof.
  rewrite !ltb_spec, !SFltb_cmp, (SFcompare_antisym (Prim2SF x) (Prim2SF y)).
  destruct (SFcompare (Prim2SF x) (Prim2SF y)) as [[]|]; cbn; congruence.
Qed.

Lemma not_ltb_leb x y :
  SFnot_nan (Prim2SF x) = true -> SFnot_nan (Prim2SF y) = true ->
  (x <? y)%float = negb (y <=? x)%float.
Proof.
  intros Hx Hy. rewrite ltb_spec, leb_spec, SFltb_cmp, SFleb_cmp.
  rewrite (SFcompare_antisym (Prim2SF x) (Prim2SF y)).
  destruct (Prim2SF x) as [[]|[]| |[] mx ex], (Prim2SF y) as [[]|[]| |[] my ey];
    try discriminate; cbn [SFcompare option_map CompOpp cmp_lt cmp_le negb]; try reflexivity;
    destruct (ex ?= ey)%Z; cbn [CompOpp cmp_lt cmp_le negb]; try reflexivity;
    destruct (Pos.compare_cont Eq mx my); reflexivity.
Qed.

Lemma leb_trans x y z :
  (x <=? y)%float = true -> (y <=? z)%float = true -> (x <=? z)%float = true.
Proof.
  rewrite !leb_spec, !SFleb_cmp. intros H1 H2.
  apply (SFcompare_trans _ _ _ H1 H2).
Qed.

Lemma leb_ltb_trans x y z :
  (x <=? y)%float = true -> (y <? z)%float = true -> (x <? z)%float = true.
Proof.
  rewrite !leb_spec, !ltb_spec, !SFleb_cmp, !SFltb_cmp. intros H1 H2.
  assert (H2' : cmp_le (SFcompare (Prim2SF y) (Prim2SF z)) = true)
    by (destruct (SFcompare (Prim2SF y) (Prim2SF z)) as [[]|]; cbn in *; congruence).
  apply (SFcompare_trans _ _ _ H1 H2'). right. assumption.
Qed.

Lemma eqb_leb x y : (x =? y)%float = true -> (x <=? y)%float = true /\ (y <=? x)%float = true.
Proof.
  rewrite eqb_spec, !leb_spec, !SFleb_cmp, (SFcompare_antisym (Prim2SF x) (Prim2SF y)).
  unfold SFeqb. destruct (SFcompare (Prim2SF x) (Prim2SF y)) as [[]|]; cbn; auto; discriminate.
Qed.

Lemma leb_not_nan x y :
  (x <=? y)%float = true -> SFnot_nan (Prim2SF x) = true /\ SFnot_nan (Prim2SF y) = true.
Proof.
  rewrite leb_spec, SFleb_cmp.
  destruct (Prim2SF x) as [[]|[]| |[] mx ex], (Prim2SF y) as [[]|[]| |[] my ey];
    cbn; auto; discriminate.
Qed.

(** ** Ranking *)

Section Ranking.
Context {R : Type}.
Variable sim : R -> number.

(** The order [array.sort((a, b) => sim(b) - sim(a))] sorts by. *)
Lemma ranking_after_asym x y :
  is_score (sim x) -> is_score (sim y) ->
  (0 <? sim y - sim x)%float = true -> (0 <? sim x - sim y)%float = false.
Proof.
  intros Hx Hy. rewrite !sub_sign_scores by assumption. apply ltb_asym.
Qed.

Lemma ranking_not_after_trans x y z :
  is_score (sim x) -> is_score (sim y) -> is_score (sim z) ->
  (0 <? sim y - sim x)%float = false -> (0 <? sim z - sim y)%float = false ->
  (0 <? sim z - sim x)%float = false.
Proof.
  intros Hx Hy Hz. rewrite !sub_sign_scores by assumption.
  rewrite !not_ltb_leb by (apply is_score_not_nan; assumption).
  rewrite !negb_false_iff. intros H1 H2. apply (leb_trans _ _ _ H2 H1).
Qed.

Lemma ranking_sorted l :
  Forall (fun r => is_score (sim r)) l ->
  StronglySorted (fun a b => (sim b <=? sim a)%float = true)
                 (Array_sort (fun a b => (sim b - sim a)%float) l).
Proof.
  intros Hl. unfold Array_sort.
  pose proof (stable_sort_sorted (fun x y => (0 <? sim y - sim x)%float)
                (fun r => is_score (sim r))
                ranking_after_asym ranking_not_after_trans l Hl) as Hs.
  pose proof (Permutation_Forall
                (Permutation_sym (stable_sort_perm (fun x y => (0 <? sim y - sim x)%float) l))
                Hl) as Hp.
  induction Hs as [|a l' Hs IH Ha]; constructor.
  - apply IH. inversion Hp; assumption.
  - inversion Hp as [|? ? Pa Pl]; subst. rewrite Forall_forall in *.
    intros b Hb. specialize (Ha b Hb). cbv beta in Ha.
    rewrite sub_sign_scores in Ha by auto.
    rewrite not_ltb_leb in Ha by (apply is_score_not_nan; auto).
    apply negb_false_iff in Ha. assumption.
Qed.

Lemma ranking_stable l v :
  Forall (fun r => is_score (sim r)) l ->
  filter (fun r => (sim r =? v)%float) (Array_sort (fun a b => (sim b - sim a)%float) l)
  = filter (fun r => (sim r =? v)%float) l.
Proof.
  intros Hl. unfold Array_sort. apply stable_sort_filter.
  rewrite Forall_forall in Hl.
  intros x y Hx Hy Ex Ey. rewrite sub_sign_scores by auto.
  rewrite not_ltb_leb by (apply is_score_not_nan; auto).
  apply negb_false_iff.
  apply eqb_leb in Ex, Ey. apply (leb_trans _ v); tauto.
Qed.

Lemma ranking_perm l :
  Permutation (Array_sort (fun a b => (sim b - sim a)%float) l) l.
Proof. apply stable_sort_perm. Qed.
End Ranking.

(** ** Selecting the working set *)

Lemma order_by_created_at_desc_perm rows : Permutation (order_by_created_at_desc rows) rows.
Proof. apply stable_sort_perm. Qed.

Lemma StronglySorted_weaken {A} (R1 R2 : A -> A -> Prop) l :
  (forall a b, R1 a b -> R2 a b) -> StronglySorted R1 l -> StronglySorted R2 l.
Proof.
  intros H Hs. induction Hs; constructor; [assumption|].
  eapply Forall_impl; [|eassumption]. intros b. apply H.
Qed.

Lemma order_by_created_at_desc_sorted rows :
  StronglySorted (fun a b => String.leb (created_at b) (created_at a) = true)
                 (order_by_created_at_desc rows).
Proof.
  unfold order_by_created_at_desc.
  apply (StronglySorted_weaken
           (fun a b => String.ltb (created_at a) (created_at b) = false)).
  - intros a b. unfold String.ltb, String.leb.
    rewrite (String.compare_antisym (created_at b) (created_at a)).
    destruct (String.compare (created_at a) (created_at b)); cbn; congruence.
  - apply (stable_sort_sorted _ (fun _ => True)).
    + intros x y _ _. apply string_ltb_asym.
    + intros x y z _ _ _. apply string_not_ltb_trans.
    + apply Forall_forall. trivial.
Qed.

Lemma In_firstn {A} n (l : list A) x : In x (firstn n l) -> In x l.
Proof. intros H. rewrite <- (firstn_skipn n l). apply in_or_app. left. assumption. Qed.

Lemma In_skipn {A} n (l : list A) x : In x (skipn n l) -> In x l.
Proof. intros H. rewrite <- (firstn_skipn n l). apply in_or_app. right. assumption. Qed.

Lemma select_active_In n tag db m :
  In m (select_active n tag db) ->
  In m (memories db) /\ container_tag m = tag /\ forgotten_at m = None.
Proof.
  unfold select_active. intros H. apply In_firstn in H.
  apply (Permutation_in _ (order_by_created_at_desc_perm _)) in H.
  apply filter_In in H. destruct H as [Hin Hc]. apply andb_prop in Hc.
  destruct Hc as [Ht Hf]. apply String.eqb_eq in Ht.
  destruct (forgotten_at m); [discriminate|]. auto.
Qed.

(** ** Slicing *)

Lemma Array_slice0_nonneg {A} n (l : list A) :
  (0 <= n)%Z -> Array_slice0 n l = firstn (Z.to_nat n) l.
Proof. intros H. unfold Array_slice0. destruct (Z.ltb_spec n 0); [lia|reflexivity]. Qed.

Lemma filter_length_mono {A} (p p' : A -> bool) l :
  (forall x, p x = true -> p' x = true) ->
  List.length (filter p l) <= List.length (filter p' l).
Proof.
  intros H. induction l as [|x l IH]; cbn [filter]; [lia|].
  destruct (p x) eqn:E.
  - rewrite (H x E). cbn [List.length]. lia.
  - destruct (p' x); cbn [List.length]; lia.
Qed.

Lemma Array_slice0_map {A B} (f : A -> B) n (l : list A) :
  Array_slice0 n (map f l) = map f (Array_slice0 n l).
Proof. unfold Array_slice0. rewrite length_map. destruct (n <? 0)%Z; apply firstn_map. Qed.

Lemma Array_slice0_negative {A} n (l : list A) :
  (n < 0)%Z -> Array_slice0 n l = firstn (List.length l - Z.to_nat (- n)) l.
Proof.
  intros H. unfold Array_slice0. destruct (Z.ltb_spec n 0); [|lia]. f_equal. lia.
Qed.

Lemma map_filter_comm {A B} (f : A -> B) (p : B -> bool) l :
  map f (filter (fun x => p (f x)) l) = filter p (map f l).
Proof.
  induction l as [|x l IH]; cbn [map filter]; [reflexivity|].
  destruct (p (f x)); cbn [map]; congruence.
Qed.

Lemma sort_insert_map {A B} (f : A -> B) (after : B -> B -> bool) x l :
  sort_insert after (f x) (map f l)
  = map f (sort_insert (fun a b => after (f a) (f b)) x l).
Proof.
  induction l as [|y l IH]; cbn [map sort_insert]; [reflexivity|].
  destruct (after (f x) (f y)); cbn [map]; congruence.
Qed.

Lemma stable_sort_map {A B} (f : A -> B) (after : B -> B -> bool) l :
  stable_sort after (map f l) = map f (stable_sort (fun a b => after (f a) (f b)) l).
Proof.
  unfold stable_sort. induction l as [|x l IH]; cbn [map fold_right]; [reflexivity|].
  rewrite IH. apply sort_insert_map.
Qed.

(** ** The search *)

(** C10. In every search response [total] is the number of entries of the
    returned [results], after the floor and the truncation to [limit]; it is
    not the number of memories that score above the floor, which can be
    larger. *)
Theorem search_total_is_length_of_results :
  (forall req db, total (search_memories req db) = List.length (results (search_memories req db)))
  /\ exists req db searchQuery,
       truthy (or_else (q req) (query req)) = Some searchQuery /\
       total (search_memories req db) <
       List.length
         (filter (fun r => (lit_0_05 <? similarity r)%float)
            (map (to_result searchQuery)
               (select_active 1000 (resolve_tag (containerTag req) (containerTags req)) db))).
Proof.
  split.
  - intros req db. unfold search_memories.
    destruct (truthy (or_else (q req) (query req))); reflexivity.
  - exists dark_mode_top1, two_dark_modes, "dark mode".
    split; [reflexivity|]. vm_compute. lia.
Qed.

(** The results of a search, memory by memory: the ranking is the stable
    sort by score of the memories of the working set above the floor, and
    the results are the images of the slice of it. *)
Lemma search_results_of_memories req db searchQuery :
  truthy (or_else (q req) (query req)) = Some searchQuery ->
  results (search_memories req db)
  = map (to_result searchQuery)
      (Array_slice0 (default 10%Z (limit req))
         (Array_sort (fun a b => (computeSimilarity searchQuery (content b)
                                  - computeSimilarity searchQuery (content a))%float)
            (filter (fun m => (lit_0_05 <? computeSimilarity searchQuery (content m))%float)
               (select_active 1000 (resolve_tag (containerTag req) (containerTags req)) db)))).
Proof.
  intros Hq. unfold search_memories. rewrite Hq. cbn [results].
  rewrite <- (map_filter_comm (to_result searchQuery)
                (fun r => (lit_0_05 <? similarity r)%float)).
  unfold Array_sort. rewrite stable_sort_map, Array_slice0_map. reflexivity.
Qed.

(** C5, as the code has it.  A search with a non-empty query ranks exactly
    the memories of the working set, the most recent 1000 active memories of
    the container, whose score [computeSimilarity] is strictly above 0.05;
    the ranking is by score, descending, and memories of equal score keep the
    order of the working set, most recent first.  Each result carries the id,
    the content, the score, the metadata and the dates of its memory.  With a
    limit that is a count (10 when absent) the results are the first [limit]
    entries of the ranking; a negative limit is accepted too, and the results
    are then the ranking without its last [- limit] entries. *)
Theorem search_results_ranked req db searchQuery :
  truthy (or_else (q req) (query req)) = Some searchQuery ->
  let tag := resolve_tag (containerTag req) (containerTags req) in
  let lim := default 10%Z (limit req) in
  let relevance := fun m => computeSimilarity searchQuery (content m) in
  exists recent ranked : list memory,
    Permutation recent
      (filter (fun m => String.eqb (container_tag m) tag && is_null (forgotten_at m))
              (memories db)) /\
    StronglySorted (fun a b => String.leb (created_at b) (created_at a) = true) recent /\
    let candidates :=
      filter (fun m => (lit_0_05 <? relevance m)%float) (firstn 1000 recent) in
    Permutation ranked candidates /\
    StronglySorted (fun a b => (relevance b <=? relevance a)%float = true) ranked /\
    (forall v, filter (fun m => (relevance m =? v)%float) ranked
               = filter (fun m => (relevance m =? v)%float) candidates) /\
    results (search_memories req db)
    = map (fun m => {| result_id := id m; result_memory := content m;
                       similarity := relevance m; result_metadata := metadata m;
                       createdAt := created_at m; updatedAt := updated_at m |})
          (firstn (if (lim <? 0)%Z then List.length ranked - Z.to_nat (- lim)
                   else Z.to_nat lim)
                  ranked) /\
    ((0 <= lim)%Z ->
     (Z.of_nat (List.length (results (search_memories req db))) <= lim)%Z).
Proof.
  intros Hq tag lim relevance.
  set (recent := order_by_created_at_desc
                   (filter (fun m => String.eqb (container_tag m) tag
                                     && is_null (forgotten_at m))
                           (memories db))).
  set (candidates := filter (fun m => (lit_0_05 <? relevance m)%float) (firstn 1000 recent)).
  set (ranked := Array_sort (fun a b => (relevance b - relevance a)%float) candidates).
  assert (Hs : Forall (fun m => is_score (relevance m)) candidates).
  { apply Forall_forall. intros m _. apply computeSimilarity_is_score. }
  assert (E : results (search_memories req db)
              = map (to_result searchQuery) (Array_slice0 lim ranked))
    by (apply search_results_of_memories; exact Hq).
  exists recent, ranked.
  split; [apply order_by_created_at_desc_perm|].
  split; [apply order_by_created_at_desc_sorted|].
  cbv zeta. fold candidates.
  split; [apply (ranking_perm relevance)|].
  split; [apply (ranking_sorted relevance); exact Hs|].
  split; [intros v; apply (ranking_stable relevance); exact Hs|].
  split.
  - rewrite E. unfold to_result. fold relevance. f_equal.
    destruct (Z.ltb_spec lim 0) as [H|H].
    + apply Array_slice0_negative. exact H.
    + apply Array_slice0_nonneg. exact H.
  - intros H. rewrite E, length_map, Array_slice0_nonneg, length_firstn by exact H. lia.
Qed.

Lemma search_results_ranked_witness :
  truthy (or_else (q dark_mode_top1) (query dark_mode_top1)) = Some "dark mode" /\
  let tag := resolve_tag (containerTag dark_mode_top1) (containerTags dark_mode_top1) in
  let lim := default 10%Z (limit dark_mode_top1) in
  let relevance := fun m => computeSimilarity "dark mode" (content m) in
  exists recent ranked : list memory,
    Permutation recent
      (filter (fun m => String.eqb (container_tag m) tag && is_null (forgotten_at m))
              (memories two_dark_modes)) /\
    StronglySorted (fun a b => String.leb (created_at b) (created_at a) = true) recent /\
    let candidates :=
      filter (fun m => (lit_0_05 <? relevance m)%float) (firstn 1000 recent) in
    Permutation ranked candidates /\
    StronglySorted (fun a b => (relevance b <=? relevance a)%float = true) ranked /\
    (forall v, filter (fun m => (relevance m =? v)%float) ranked
               = filter (fun m => (relevance m =? v)%float) candidates) /\
    results (search_memories dark_mode_top1 two_dark_modes)
    = map (fun m => {| result_id := id m; result_memory := content m;
                       similarity := relevance m; result_metadata := metadata m;
                       createdAt := created_at m; updatedAt := updated_at m |})
          (firstn (if (lim <? 0)%Z then List.length ranked - Z.to_nat (- lim)
                   else Z.to_nat lim)
                  ranked) /\
    ((0 <= lim)%Z ->
     (Z.of_nat (List.length (results (search_memories dark_mode_top1 two_dark_modes)))
      <= lim)%Z).
Proof.
  split; [reflexivity|].
  apply (search_results_ranked dark_mode_top1 two_dark_modes "dark mode"). reflexivity.
Defined.

(** The limit is not checked.  With the limit -1 two memories are ranked
    and one is returned: more than [limit] entries. *)
Lemma search_negative_limit_counterexample :
  truthy (or_else (q dark_mode_drop_last) (query dark_mode_drop_last)) = Some "dark mode" /\
  map result_id (results (search_memories dark_mode_drop_last two_dark_modes)) = ["m1"] /\
  ~ (Z.of_nat (List.length (results (search_memories dark_mode_drop_last two_dark_modes)))
     <= default 10%Z (limit dark_mode_drop_last))%Z.
Proof.
  split; [reflexivity|]. split; [vm_compute; reflexivity|].
  vm_compute. intros H. apply H. reflexivity.
Qed.

(** ** The profile search *)

Lemma profile_result_count parseFloat req db :
  result_count (profile_searchResults parseFloat req db) =
  match truthy (profile_q req) with
  | None => 0
  | Some q =>
      Nat.min 10
        (List.length
           (filter (fun r => (threshold_value parseFloat req <? profile_similarity r)%float)
                   (map (to_profile_result q)
                        (select_active 500 (default "default" (truthy (profile_containerTag req)))
                                       db))))
  end.
Proof.
  unfold profile_searchResults.
  destruct (truthy (profile_q req)) as [q|]; [|reflexivity].
  cbn [profile_total profile_results].
  rewrite Array_slice0_nonneg by lia.
  rewrite length_firstn. unfold Array_sort. rewrite stable_sort_length.
  change (Z.to_nat 10) with 10%nat.
  set (n := Nat.min 10 _).
  destruct (Nat.ltb_spec 0 n) as [H|H]; cbn [result_count profile_results].
  - rewrite length_firstn. unfold Array_sort. rewrite stable_sort_length. reflexivity.
  - lia.
Qed.

(** C9. For a fixed query, container and database, the profile endpoint
    returns no more search results under a threshold [t2] than under a
    threshold [t1 <= t2]. *)
Theorem profile_threshold_monotone parseFloat tag q t1 t2 db :
  (threshold_value parseFloat
     {| profile_containerTag := tag; profile_q := q; threshold := t1 |}
   <=? threshold_value parseFloat
     {| profile_containerTag := tag; profile_q := q; threshold := t2 |})%float = true ->
  result_count (profile_searchResults parseFloat
                  {| profile_containerTag := tag; profile_q := q; threshold := t2 |} db)
  <= result_count (profile_searchResults parseFloat
                     {| profile_containerTag := tag; profile_q := q; threshold := t1 |} db).
Proof.
  intros Ht. rewrite !profile_result_count. cbn [profile_q profile_containerTag].
  destruct (truthy q) as [q'|]; [|lia].
  apply Nat.min_le_compat_l. apply filter_length_mono.
  intros r Hr. apply (leb_ltb_trans _ _ _ Ht Hr).
Qed.

Lemma profile_threshold_monotone_witness :
  (threshold_value parseFloat_0_95
     {| profile_containerTag := Some "work"; profile_q := Some "dark mode";
        threshold := None |}
   <=? threshold_value parseFloat_0_95
     {| profile_containerTag := Some "work"; profile_q := Some "dark mode";
        threshold := Some "0.95" |})%float = true /\
  result_count (profile_searchResults parseFloat_0_95
                  {| profile_containerTag := Some "work"; profile_q := Some "dark mode";
                     threshold := Some "0.95" |} two_dark_modes)
  <= result_count (profile_searchResults parseFloat_0_95
                     {| profile_containerTag := Some "work"; profile_q := Some "dark mode";
                        threshold := None |} two_dark_modes).
Proof.
  split; [vm_compute; reflexivity|].
  apply (profile_threshold_monotone parseFloat_0_95). vm_compute. reflexivity.
Defined.

(** ** The fact extractor *)

Lemma push_on_first_match_spec ps trimmed facts :
  push_on_first_match ps trimmed facts =
  if existsb (fun p => pattern_test p trimmed) ps then facts ++ [trimmed] else facts.
Proof.
  induction ps as [|p ps IH]; cbn [push_on_first_match existsb]; [reflexivity|].
  destruct (pattern_test p trimmed); [reflexivity|apply IH].
Qed.

Lemma extract_loop sentences : forall facts,
  fold_left (fun facts sentence => push_on_first_match preferencePatterns (trim sentence) facts)
            sentences facts
  = facts ++ filter matches_a_pattern (map trim sentences).
Proof.
  induction sentences as [|s sentences IH]; intros facts; cbn [fold_left map filter].
  - rewrite app_nil_r. reflexivity.
  - rewrite IH, push_on_first_match_spec. fold (matches_a_pattern (trim s)).
    destruct (matches_a_pattern (trim s)); [|reflexivity].
    rewrite <- app_assoc. reflexivity.
Qed.

(** C6. [extractFacts] splits the content on the runs of [.], [!] and [?],
    trims the segments, drops those of length at most 10, and emits the
    others, in order and each once, exactly when one of the preference
    patterns matches; the sentence about green tea is extracted as it is. *)
Theorem extractFacts_extract :
  (forall content containerTag, extractFacts content containerTag = extract content) /\
  extractFacts "I always drink green tea in the morning" "work"
  = ["I always drink green tea in the morning"].
Proof.
  split; [|vm_compute; reflexivity].
  intros content containerTag. unfold extractFacts, extract.
  rewrite extract_loop. cbn [app].
  rewrite (map_filter_comm trim (fun s => (10 <? String.length s)%nat)). reflexivity.
Qed.

(** ** Promotion *)

Lemma update_where_changes {A} (cond : A -> bool) (set : A -> A) rows :
  (forall r, cond (set r) = cond r) ->
  List.length (filter cond (fst (update_where cond set rows)))
  = List.length (filter cond rows).
Proof.
  intros H. unfold update_where. cbn [fst].
  induction rows as [|r rows IH]; cbn [map filter]; [reflexivity|].
  destruct (cond r) eqn:E.
  - rewrite H, E. cbn [List.length]. congruence.
  - rewrite E. assumption.
Qed.

Lemma filter_length_pos {A} (p : A -> bool) l :
  (0 <? List.length (filter p l))%nat = existsb p l.
Proof.
  induction l as [|x l IH]; cbn [filter existsb]; [reflexivity|].
  destruct (p x); [reflexivity|assumption].
Qed.

Lemma promote_eq now containerTag fact_text db :
  promote now containerTag fact_text db =
  ({| promoted :=
        (0 <? List.length (filter (fact_matches containerTag fact_text) (profile_facts db)))%nat |},
   {| memories := memories db;
      profile_facts :=
        map (fun f => if fact_matches containerTag fact_text f then set_static now f else f)
            (profile_facts db) |}).
Proof. reflexivity. Qed.

(** C1, as the code has it.  [promote] reports whether some row of the
    container holds the fact text, whatever its type: called twice in
    succession it reports the same both times, [true] and [true] when
    matching rows exist, [false] and [false] when none does.  The second
    call flips no row, the matching rows being static already, and touches
    no memory: all it changes is [updated_at] of the matching rows, which it
    sets to its own time. *)
Theorem promote_twice now1 now2 containerTag fact_text db :
  let first := promote now1 containerTag fact_text db in
  let second := promote now2 containerTag fact_text (snd first) in
  promoted (fst first) = existsb (fact_matches containerTag fact_text) (profile_facts db) /\
  promoted (fst second) = promoted (fst first) /\
  map fact_type (profile_facts (snd second)) = map fact_type (profile_facts (snd first)) /\
  Forall (fun f => fact_matches containerTag fact_text f = true -> fact_type f = static)
         (profile_facts (snd first)) /\
  memories (snd second) = memories (snd first) /\
  Forall2 (refreshed now2 containerTag fact_text)
          (profile_facts (snd first)) (profile_facts (snd second)).
Proof.
  cbv zeta. rewrite !promote_eq. cbn [fst snd promoted profile_facts memories].
  assert (Hset : forall now f, fact_matches containerTag fact_text (set_static now f)
                               = fact_matches containerTag fact_text f) by reflexivity.
  split; [apply filter_length_pos|]. split.
  { f_equal. apply (update_where_changes _ (set_static now1)). apply Hset. }
  split.
  { rewrite !map_map. apply map_ext_in. intros f _.
    destruct (fact_matches containerTag fact_text f) eqn:E.
    - rewrite Hset, E. reflexivity.
    - rewrite E. reflexivity. }
  split.
  { apply Forall_forall. intros f Hf. apply in_map_iff in Hf.
    destruct Hf as (f0 & <- & _).
    destruct (fact_matches containerTag fact_text f0) eqn:E.
    - reflexivity.
    - rewrite E. discriminate. }
  split; [reflexivity|].
  induction (profile_facts db) as [|f l IH]; cbn [map]; constructor; [|exact IH].
  unfold refreshed. destruct (fact_matches containerTag fact_text f) eqn:E.
  - rewrite Hset, E. cbn. repeat split; reflexivity.
  - rewrite E. repeat split; reflexivity.
Qed.

(** Promoting the one dynamic fact of a container twice answers [true]
    twice, not [true] and then [false]. *)
Lemma promote_twice_counterexample :
  let first := promote "2024-02-01T00:00:00.000Z" "work" green_tea one_dynamic_fact in
  let second := promote "2024-02-02T00:00:00.000Z" "work" green_tea (snd first) in
  ~ (promoted (fst first) = true /\ promoted (fst second) = false).
Proof. vm_compute. intros [_ H]. discriminate H. Qed.

(** ** Forgetting *)

(** C2, as the code has it, against the claim: a forget by id answers
    [forgotten: true] whatever the [UPDATE] selected.  At the failing input,
    an id that no row has, the answer is [forgotten: true] and nothing was
    marked. *)
Theorem forget_by_id_reports_forgotten :
  (forall now tag c rest content db,
     fst (forget now {| forget_containerTag := tag; forget_id := Some (String c rest);
                        forget_content := content |} db)
     = Ok {| forgotten_id := String c rest; forgotten := true |}) /\
  forget "2024-02-01T00:00:00.000Z"
         {| forget_containerTag := "work"; forget_id := Some "no-such-id";
            forget_content := None |}
         empty_database
  = (Ok {| forgotten_id := "no-such-id"; forgotten := true |}, empty_database).
Proof.
  split; [|reflexivity].
  intros now tag c rest content db. reflexivity.
Qed.

(** ** Bulk deletion *)




(** ** Rows and responses *)

Lemma unique_id_row l a b :
  NoDup (map id l) -> In a l -> In b l -> id a = id b -> a = b.
Proof.
  induction l as [|x l IH]; cbn [map In]; intros Hn Ha Hb E; [contradiction|].
  inversion Hn as [|? ? Hx Hl]; subst.
  destruct Ha as [->|Ha], Hb as [->|Hb].
  - reflexivity.
  - exfalso. apply Hx. rewrite E. apply in_map. assumption.
  - exfalso. apply Hx. rewrite <- E. apply in_map. assumption.
  - apply IH; assumption.
Qed.

Lemma Array_slice0_In {A} n (l : list A) x : In x (Array_slice0 n l) -> In x l.
Proof. unfold Array_slice0. destruct (n <? 0)%Z; apply In_firstn. Qed.

Lemma sql_limit_offset_In {A} lim off (l : list A) x : In x (sql_limit_offset lim off l) -> In x l.
Proof.
  unfold sql_limit_offset. destruct (lim <? 0)%Z; intros H.
  - apply In_skipn in H. assumption.
  - apply In_firstn, In_skipn in H. assumption.
Qed.

(** Every search result is an active memory of the container searched. *)
Lemma search_result_source req db r :
  In r (results (search_memories req db)) ->
  exists m, In m (memories db) /\ result_id r = id m /\ forgotten_at m = None /\
            container_tag m = resolve_tag (containerTag req) (containerTags req).
Proof.
  unfold search_memories.
  destruct (truthy (or_else (q req) (query req))) as [searchQuery|]; cbn [results];
    [|contradiction].
  intros H. apply Array_slice0_In in H.
  apply (Permutation_in _ (stable_sort_perm _ _)) in H.
  apply filter_In in H. destruct H as [H _].
  apply in_map_iff in H. destruct H as (m & <- & Hm).
  apply select_active_In in Hm. exists m. cbn [result_id to_result]. tauto.
Qed.

(** Every listed document is an active memory of one of the containers
    listed. *)
Lemma list_result_source req db d :
  In d (list_memories (documents_list req db)) ->
  exists m, In m (memories db) /\ doc_id d = id m /\ forgotten_at m = None /\
            In (container_tag m) (default ["default"] (list_containerTags req)).
Proof.
  unfold documents_list. cbn [list_memories]. intros H.
  apply in_map_iff in H. destruct H as (m & <- & Hm).
  apply sql_limit_offset_In in Hm.
  apply (Permutation_in _ (order_by_created_at_desc_perm _)) in Hm.
  apply filter_In in Hm. destruct Hm as [Hin Hc]. unfold active_in in Hc.
  apply andb_prop in Hc. destruct Hc as [Ht Hf].
  apply existsb_exists in Ht. destruct Ht as (t & Ht & Et). apply String.eqb_eq in Et.
  exists m. cbn [doc_id to_document]. destruct (forgotten_at m); [discriminate|].
  subst t. auto.
Qed.

(** ** Soft deletion *)

Lemma forget_by_id_memories now tag i c db :
  i <> EmptyString ->
  memories (snd (forget now {| forget_containerTag := tag; forget_id := Some i;
                               forget_content := c |} db))
  = map (fun m => if forgets i tag m then set_forgotten_at now m else m) (memories db).
Proof.
  intros Hi. unfold forget. cbn [forget_id forget_containerTag truthy].
  destruct (String.eqb_spec i EmptyString); [contradiction|]. reflexivity.
Qed.

Lemma forgotten_rows now tag i l m r :
  NoDup (map id l) -> In m l -> id m = i -> container_tag m = tag ->
  In r (map (fun m => if forgets i tag m then set_forgotten_at now m else m) l) ->
  id r = i -> forgotten_at r = Some now /\ container_tag r = tag.
Proof.
  intros Hn Hm Hi Ht Hr Er. apply in_map_iff in Hr. destruct Hr as (r0 & <- & Hr0).
  assert (E0 : id r0 = i) by (destruct (forgets i tag r0); exact Er).
  assert (r0 = m) by (apply (unique_id_row l); congruence). subst r0.
  unfold forgets. rewrite Hi, Ht, !String.eqb_refl. cbn. auto.
Qed.

Lemma forget_keeps_ids now tag i l :
  map id (map (fun m => if forgets i tag m then set_forgotten_at now m else m) l) = map id l.
Proof.
  rewrite map_map. apply map_ext. intros m. destruct (forgets i tag m); reflexivity.
Qed.

Lemma filter_one_id l m :
  NoDup (map id l) -> In m l ->
  List.length (filter (fun r => existsb (String.eqb (id r)) [id m]) l) = 1%nat.
Proof.
  induction l as [|x l IH]; cbn [map In filter]; intros Hn Hm; [contradiction|].
  inversion Hn as [|? ? Hx Hl]; subst. cbn [existsb]. rewrite orb_false_r.
  destruct Hm as [->|Hm].
  - rewrite String.eqb_refl. cbn [List.length]. f_equal.
    rewrite (proj2 (length_zero_iff_nil _)); [reflexivity|].
    destruct (filter _ l) as [|y l'] eqn:E; [reflexivity|exfalso].
    assert (Hy : In y (filter (fun r => existsb (String.eqb (id r)) [id m]) l))
      by (rewrite E; left; reflexivity).
    apply filter_In in Hy. destruct Hy as [Hy Ey]. cbn [existsb] in Ey.
    rewrite orb_false_r in Ey. apply String.eqb_eq in Ey.
    apply Hx. rewrite <- Ey. apply in_map. assumption.
  - destruct (String.eqb_spec (id x) (id m)) as [E|E].
    + exfalso. apply Hx. rewrite E. apply in_map. assumption.
    + apply IH; assumption.
Qed.

(** C7. Once a memory is forgotten by its id, no search, no listing and no
    count of [stats] includes it, whatever the request; its row is still in
    the table, and a bulk delete of its id or a wipe of its container
    removes the row. *)
Theorem soft_delete_visibility now tag i c db m :
  unique_ids db -> In m (memories db) -> id m = i -> container_tag m = tag -> i <> EmptyString ->
  let db' := snd (forget now {| forget_containerTag := tag; forget_id := Some i;
                                forget_content := c |} db) in
  (forall req, ~ In i (map result_id (results (search_memories req db')))) /\
  (forall req, ~ In i (map doc_id (list_memories (documents_list req db')))) /\
  stats_memories (stats db')
  = List.length (filter (fun r => is_null (forgotten_at r) && negb (String.eqb (id r) i))
                        (memories db')) /\
  In i (map id (memories db')) /\
  fst (deleteBulk (IdsArray [i]) db') = Ok {| deleted := 1 |} /\
  ~ In i (map id (memories (snd (deleteBulk (IdsArray [i]) db')))) /\
  ~ In i (map id (memories (wipe tag db'))).
Proof.
  intros Hu Hm Hi Ht Hne db'.
  assert (Hmem : memories db'
                 = map (fun m => if forgets i tag m then set_forgotten_at now m else m)
                       (memories db))
    by (apply forget_by_id_memories; assumption).
  assert (Hrow : forall r, In r (memories db') -> id r = i ->
                           forgotten_at r = Some now /\ container_tag r = tag).
  { intros r Hr. rewrite Hmem in Hr. apply (forgotten_rows now tag i (memories db) m); assumption. }
  assert (Hids : map id (memories db') = map id (memories db))
    by (rewrite Hmem; apply forget_keeps_ids).
  assert (Hm' : exists m', In m' (memories db') /\ id m' = i).
  { assert (H : In i (map id (memories db'))) by (rewrite Hids, <- Hi; apply in_map; assumption).
    apply in_map_iff in H. destruct H as (m' & E & H). eauto. }
  repeat split.
  - intros req H. apply in_map_iff in H. destruct H as (r & Er & Hr).
    apply search_result_source in Hr. destruct Hr as (m0 & Hin & Eid & Hf & _).
    destruct (Hrow m0 Hin) as [Hf' _]; congruence.
  - intros req H. apply in_map_iff in H. destruct H as (d & Ed & Hd).
    apply list_result_source in Hd. destruct Hd as (m0 & Hin & Eid & Hf & _).
    destruct (Hrow m0 Hin) as [Hf' _]; congruence.
  - unfold stats. cbn [stats_memories]. f_equal. apply filter_ext_in.
    intros r Hr. destruct (String.eqb_spec (id r) i) as [E|E]; cbn [negb].
    + destruct (Hrow r Hr E) as [Hf _]. rewrite Hf. reflexivity.
    + rewrite andb_true_r. reflexivity.
  - rewrite Hids, <- Hi. apply in_map. assumption.
  - unfold deleteBulk, delete_where. cbn [ids_falsy ids_isArray negb orb fst]. f_equal. f_equal.
    destruct Hm' as (m' & Hin' & Ei). rewrite <- Ei.
    apply filter_one_id; [rewrite Hids; exact Hu|assumption].
  - unfold deleteBulk, delete_where. cbn [ids_falsy ids_isArray negb orb snd memories].
    intros H. apply in_map_iff in H. destruct H as (r & Er & Hr).
    apply filter_In in Hr. destruct Hr as [_ Hr]. cbn [existsb] in Hr.
    rewrite Er, String.eqb_refl in Hr. discriminate.
  - unfold wipe. cbn [memories]. intros H. apply in_map_iff in H.
    destruct H as (r & Er & Hr). apply filter_In in Hr. destruct Hr as [Hr Hc].
    destruct (Hrow r Hr Er) as [_ Hc']. rewrite Hc', String.eqb_refl in Hc. discriminate.
Qed.

Lemma two_dark_modes_unique_ids : unique_ids two_dark_modes.
Proof.
  unfold unique_ids. cbn. repeat constructor; cbn; intuition discriminate.
Defined.

Lemma soft_delete_visibility_witness :
  unique_ids two_dark_modes /\ In dark_mode_memory (memories two_dark_modes) /\
  id dark_mode_memory = "m1" /\ container_tag dark_mode_memory = "work" /\ "m1" <> EmptyString /\
  let db' := snd (forget "2024-03-01T00:00:00.000Z"
                         {| forget_containerTag := "work"; forget_id := Some "m1";
                            forget_content := None |} two_dark_modes) in
  (forall req, ~ In "m1" (map result_id (results (search_memories req db')))) /\
  (forall req, ~ In "m1" (map doc_id (list_memories (documents_list req db')))) /\
  stats_memories (stats db')
  = List.length (filter (fun r => is_null (forgotten_at r) && negb (String.eqb (id r) "m1"))
                        (memories db')) /\
  In "m1" (map id (memories db')) /\
  fst (deleteBulk (IdsArray ["m1"]) db') = Ok {| deleted := 1 |} /\
  ~ In "m1" (map id (memories (snd (deleteBulk (IdsArray ["m1"]) db')))) /\
  ~ In "m1" (map id (memories (wipe "work" db'))).
Proof.
  split; [exact two_dark_modes_unique_ids|].
  split; [left; reflexivity|].
  split; [reflexivity|]. split; [reflexivity|]. split; [discriminate|].
  apply (soft_delete_visibility "2024-03-01T00:00:00.000Z" "work" "m1" None
           two_dark_modes dark_mode_memory);
    [exact two_dark_modes_unique_ids|left; reflexivity|reflexivity|reflexivity|discriminate].
Defined.

(** ** Partitions *)

(** C8. A memory of container [A] is in no result of a search whose
    container is another container [B], and in no listing whose containers
    are all [B]: be it the listing of [[B]], of [[B; B]], or, for [B] the
    container [default], the listing of a request that names no container.
    More generally it is in no listing whose containers do not include [A].
    The container of a memory is the one [add] created it in
    ([add_creates_row]), and no request changes it
    ([handle_keeps_container]). *)
Theorem partition_isolation db m A B :
  unique_ids db -> In m (memories db) -> container_tag m = A -> A <> B ->
  (forall req, resolve_tag (containerTag req) (containerTags req) = B ->
               ~ In (id m) (map result_id (results (search_memories req db)))) /\
  (forall req, (forall t, In t (default ["default"] (list_containerTags req)) -> t = B) ->
               ~ In (id m) (map doc_id (list_memories (documents_list req db)))) /\
  (forall req, ~ In A (default ["default"] (list_containerTags req)) ->
               ~ In (id m) (map doc_id (list_memories (documents_list req db)))).
Proof.
  intros Hu Hm HA Hne.
  assert (Hlist : forall req, ~ In A (default ["default"] (list_containerTags req)) ->
                    ~ In (id m) (map doc_id (list_memories (documents_list req db)))).
  { intros req HB H. apply in_map_iff in H. destruct H as (d & Ed & Hd).
    apply list_result_source in Hd. destruct Hd as (m0 & Hin & Eid & _ & Hc).
    assert (m0 = m)
      by (apply (unique_id_row (memories db)); [exact Hu|assumption|assumption|congruence]).
    subst m0. apply HB. rewrite <- HA. exact Hc. }
  split; [|split; [|exact Hlist]].
  - intros req HB H. apply in_map_iff in H. destruct H as (r & Er & Hr).
    apply search_result_source in Hr. destruct Hr as (m0 & Hin & Eid & _ & Hc).
    assert (m0 = m)
      by (apply (unique_id_row (memories db)); [exact Hu|assumption|assumption|congruence]).
    congruence.
  - intros req HB. apply Hlist. intros HinA. apply Hne. apply HB. exact HinA.
Qed.

Lemma work_and_home_unique_ids : unique_ids work_and_home.
Proof.
  unfold unique_ids. cbn. repeat constructor; cbn; intuition discriminate.
Defined.

Lemma partition_isolation_witness :
  unique_ids work_and_home /\ In dark_mode_memory (memories work_and_home) /\
  container_tag dark_mode_memory = "work" /\ "work" <> "home" /\
  (forall req, resolve_tag (containerTag req) (containerTags req) = "home" ->
               ~ In (id dark_mode_memory)
                    (map result_id (results (search_memories req work_and_home)))) /\
  (forall req, (forall t, In t (default ["default"] (list_containerTags req)) -> t = "home") ->
               ~ In (id dark_mode_memory)
                    (map doc_id (list_memories (documents_list req work_and_home)))) /\
  (forall req, ~ In "work" (default ["default"] (list_containerTags req)) ->
               ~ In (id dark_mode_memory)
                    (map doc_id (list_memories (documents_list req work_and_home)))).
Proof.
  split; [exact work_and_home_unique_ids|].
  split; [left; reflexivity|]. split; [reflexivity|]. split; [discriminate|].
  apply (partition_isolation work_and_home dark_mode_memory "work" "home");
    [exact work_and_home_unique_ids|left; reflexivity|reflexivity|discriminate].
Defined.

(** The search and the listing of container [home] in that database return
    the memory of [home], and only it. *)
Example work_and_home_example :
  map result_id
      (results (search_memories
                  {| q := Some "dark mode"; query := None; containerTag := Some "home";
                     containerTags := None; limit := None |} work_and_home)) = ["m3"] /\
  map doc_id
      (list_memories (documents_list
                        {| list_containerTags := Some ["home"]; list_limit := None;
                           list_page := None |} work_and_home)) = ["m3"].
Proof. split; vm_compute; reflexivity. Qed.

(** ** The primary key, and the container of a row *)

Lemma NoDup_map_filter {A B} (f : A -> B) (p : A -> bool) l :
  NoDup (map f l) -> NoDup (map f (filter p l)).
Proof.
  induction l as [|x l IH]; cbn [map filter]; intros H; [constructor|].
  inversion H as [|? ? Hx Hl]; subst. destruct (p x); [|apply IH; assumption].
  cbn [map]. constructor; [|apply IH; assumption].
  intros Hin. apply Hx. apply in_map_iff in Hin. destruct Hin as (y & E & Hy).
  apply filter_In in Hy. rewrite <- E. apply in_map. tauto.
Qed.

Lemma insert_facts_memories ids k tag now facts : forall db,
  memories (fst (insert_facts ids k tag now facts db)) = memories db.
Proof.
  revert k. induction facts as [|f facts IH]; intros k db; cbn [insert_facts]; [reflexivity|].
  unfold insert_fact. destruct (existsb _ (profile_facts db)); [reflexivity|].
  rewrite IH. reflexivity.
Qed.

(** [add] answers 200 only after it has inserted a row with a new id, in
    the container the request resolves to, active. *)
Lemma add_creates_row ids now req db body db' :
  add ids now req db = (Ok body, db') ->
  exists content,
    memories db' =
    memories db ++
      [ {| id := added_id body;
           container_tag := resolve_tag (add_containerTag req) (add_containerTags req);
           content := content; metadata := add_metadata req;
           custom_id := truthy (add_customId req);
           created_at := now; updated_at := now; forgotten_at := None |} ] /\
    ~ In (added_id body) (map id (memories db)).
Proof.
  unfold add. destruct (truthy (add_content req)) as [content|]; [|discriminate].
  unfold insert_memory. cbn [id].
  destruct (existsb (fun m => String.eqb (id m) (ids 0%nat)) (memories db)) eqn:E; [discriminate|].
  pose proof (insert_facts_memories ids 1 (resolve_tag (add_containerTag req) (add_containerTags req))
                now (extractFacts content
                       (resolve_tag (add_containerTag req) (add_containerTags req)))
                {| memories := memories db ++
                     [ {| id := ids 0%nat;
                          container_tag := resolve_tag (add_containerTag req) (add_containerTags req);
                          content := content; metadata := add_metadata req;
                          custom_id := truthy (add_customId req);
                          created_at := now; updated_at := now; forgotten_at := None |} ];
                   profile_facts := profile_facts db |}) as Hmem.
  destruct (insert_facts _ _ _ _ _ _) as [db2 ok]. cbn [fst memories] in Hmem.
  destruct ok; [|discriminate]. intros H. inversion H; subst. cbn [added_id].
  exists content. split; [assumption|].
  intros Hin. apply in_map_iff in Hin. destruct Hin as (m & Em & Hm).
  assert (existsb (fun m => String.eqb (id m) (ids 0%nat)) (memories db) = true); [|congruence].
  apply existsb_exists. exists m. split; [assumption|]. apply String.eqb_eq. assumption.
Qed.

(** The ids of the memories stay unique under every request. *)
Lemma add_unique_ids ids now req db :
  unique_ids db -> unique_ids (snd (add ids now req db)).
Proof.
  intros Hu. unfold add. destruct (truthy (add_content req)) as [content|]; [|exact Hu].
  unfold insert_memory. cbn [id].
  destruct (existsb (fun m => String.eqb (id m) (ids 0%nat)) (memories db)) eqn:E; [exact Hu|].
  match goal with |- context [insert_facts ?a ?b ?c ?d ?e ?f] =>
    pose proof (insert_facts_memories a b c d e f) as Hmem;
    destruct (insert_facts a b c d e f) as [db2 ok] end.
  cbn [fst memories] in Hmem.
  assert (Hu2 : unique_ids db2).
  { unfold unique_ids. rewrite Hmem, map_app. cbn [map id].
    apply NoDup_app; [exact Hu|repeat constructor; intros []|].
    intros x Hx [<-|[]]. apply in_map_iff in Hx. destruct Hx as (m & Em & Hm).
    assert (existsb (fun m => String.eqb (id m) (ids 0%nat)) (memories db) = true); [|congruence].
    apply existsb_exists. exists m. split; [assumption|]. apply String.eqb_eq. assumption. }
  destruct ok; exact Hu2.
Qed.

Lemma forget_unique_ids now req db :
  unique_ids db -> unique_ids (snd (forget now req db)).
Proof.
  intros Hu. unfold forget, update_where, unique_ids.
  destruct (truthy (forget_id req)) as [i|]; cbn [snd memories].
  - rewrite map_map. erewrite map_ext; [exact Hu|].
    intros m. cbn beta. destruct (_ && _); reflexivity.
  - destruct (truthy (forget_content req)) as [c|]; cbn [snd memories]; [|exact Hu].
    rewrite map_map. erewrite map_ext; [exact Hu|].
    intros m. cbn beta. destruct (_ && _ && _); reflexivity.
Qed.

Lemma deleteBulk_unique_ids ids db :
  unique_ids db -> unique_ids (snd (deleteBulk ids db)).
Proof.
  intros Hu. unfold deleteBulk, delete_where.
  destruct (ids_falsy ids || negb (ids_isArray ids)); [exact Hu|].
  destruct ids; try exact Hu. cbn [snd]. unfold unique_ids. cbn [memories].
  apply NoDup_map_filter. exact Hu.
Qed.

Lemma wipe_unique_ids tag db : unique_ids db -> unique_ids (wipe tag db).
Proof. intros Hu. unfold wipe, unique_ids. cbn [memories]. apply NoDup_map_filter. exact Hu. Qed.

Lemma promote_unique_ids now tag text db :
  unique_ids db -> unique_ids (snd (promote now tag text db)).
Proof. intros Hu. exact Hu. Qed.

(** No request changes the container of a memory: a row that a request
    leaves in the table is in the container it was in. *)
Lemma forget_keeps_containers now req db :
  map (fun m => (id m, container_tag m)) (memories (snd (forget now req db)))
  = map (fun m => (id m, container_tag m)) (memories db).
Proof.
  unfold forget, update_where.
  destruct (truthy (forget_id req)) as [i|]; cbn [snd memories].
  - rewrite map_map. apply map_ext. intros m. destruct (_ && _); reflexivity.
  - destruct (truthy (forget_content req)) as [c|]; cbn [snd memories]; [|reflexivity].
    rewrite map_map. apply map_ext. intros m. destruct (_ && _ && _); reflexivity.
Qed.

Lemma deleteBulk_keeps_rows ids db m :
  In m (memories (snd (deleteBulk ids db))) -> In m (memories db).
Proof.
  unfold deleteBulk, delete_where.
  destruct (ids_falsy ids || negb (ids_isArray ids)); [trivial|].
  destruct ids; trivial. cbn [snd memories]. intros H. apply filter_In in H. tauto.
Qed.

Lemma wipe_keeps_rows tag db m : In m (memories (wipe tag db)) -> In m (memories db).
Proof. unfold wipe. cbn [memories]. intros H. apply filter_In in H. tauto. Qed.

Lemma add_memories ids now req db :
  memories (snd (add ids now req db)) = memories db \/
  (~ In (ids 0) (map id (memories db)) /\
   exists content,
     memories (snd (add ids now req db)) =
     memories db ++
       [ {| id := ids 0;
            container_tag := resolve_tag (add_containerTag req) (add_containerTags req);
            content := content; metadata := add_metadata req;
            custom_id := truthy (add_customId req);
            created_at := now; updated_at := now; forgotten_at := None |} ]).
Proof.
  unfold add. destruct (truthy (add_content req)) as [content|]; [|left; reflexivity].
  unfold insert_memory. cbn [id].
  destruct (existsb (fun m => String.eqb (id m) (ids 0)) (memories db)) eqn:E;
    [left; reflexivity|].
  right. split.
  - intros Hin. apply in_map_iff in Hin. destruct Hin as (m & Em & Hm).
    assert (existsb (fun m => String.eqb (id m) (ids 0)) (memories db) = true); [|congruence].
    apply existsb_exists. exists m. split; [assumption|]. apply String.eqb_eq. assumption.
  - exists content.
    match goal with |- context [insert_facts ?a ?b ?c ?d ?e ?f] =>
      pose proof (insert_facts_memories a b c d e f) as Hmem;
      destruct (insert_facts a b c d e f) as [db2 ok] end.
    cbn [fst memories] in Hmem. destruct ok; exact Hmem.
Qed.

(** The ids of the memories stay unique under every request. *)
Lemma handle_unique_ids r db : unique_ids db -> unique_ids (handle r db).
Proof.
  destruct r; cbn [handle].
  - apply add_unique_ids.
  - apply forget_unique_ids.
  - apply deleteBulk_unique_ids.
  - apply promote_unique_ids.
  - apply wipe_unique_ids.
Qed.

Lemma reachable_unique_ids db : reachable db -> unique_ids db.
Proof.
  induction 1 as [|r db _ IH]; [constructor|apply handle_unique_ids; assumption].
Qed.

(** No request moves a memory to another container: a row that is in the
    table after a request was there before, with the same id in the same
    container, or is the row an [add] has just created, under a new id, in
    the container its request resolves to. *)
Lemma handle_keeps_container r db m' :
  In m' (memories (handle r db)) ->
  (exists m, In m (memories db) /\ id m = id m' /\ container_tag m = container_tag m') \/
  (exists ids now req,
     r = Add ids now req /\ id m' = ids 0 /\ ~ In (ids 0) (map id (memories db)) /\
     container_tag m' = resolve_tag (add_containerTag req) (add_containerTags req)).
Proof.
  destruct r as [ids now req|now req|ids|now tag text|tag]; cbn [handle]; intros H.
  - destruct (add_memories ids now req db) as [E|(Hnew & content & E)]; rewrite E in H.
    + left. exists m'. auto.
    + apply in_app_or in H. destruct H as [H|[<-|[]]].
      * left. exists m'. auto.
      * right. exists ids, now, req. cbn. auto.
  - left.
    assert (Hin : In (id m', container_tag m')
                     (map (fun m => (id m, container_tag m)) (memories db))).
    { rewrite <- (forget_keeps_containers now req db).
      apply (in_map (fun m => (id m, container_tag m))). assumption. }
    apply in_map_iff in Hin. destruct Hin as (m & E & Hm). inversion E. eauto.
  - left. exists m'. split; [apply (deleteBulk_keeps_rows ids); assumption|auto].
  - left. exists m'. auto.
  - left. exists m'. split; [apply (wipe_keeps_rows tag); assumption|auto].
Qed.

(** ** The client and the plugin on examples *)

Example detectCategory_example :
  detectCategory "Remember to call mom" = "reminder" /\
  detectCategory "She said hello" = "person" /\
  detectCategory "The team shipped it" = "note" /\
  detectCategory "Finish the report" = "note" /\
  detectCategory "Lunch at noon" = "place" /\
  detectCategory "Standup on Monday" = "event".
Proof. repeat split; reflexivity. Qed.

Example parseConfig_example :
  config_containerTag (parseConfig "my-laptop.local" None) = "openclaw_my_laptop_local".
Proof. reflexivity. Qed.

Example forgetByQuery_example :
  fst (forgetByQuery work_client "2024-03-01T00:00:00.000Z" "dark mode" None two_dark_modes)
  = Resolved {| success := true;
                message := ("Forgot: " ++ quoted "I prefer dark mode")%string |}.
Proof. vm_compute. reflexivity. Qed.

Example wipeAllMemories_example :
  wipeAllMemories work_client two_dark_modes
  = (Resolved 2, {| memories := []; profile_facts := [] |}).
Proof. vm_compute. reflexivity. Qed.

(** ** Strings, character by character *)

Lemma string_forall_rev_append p s : forall acc,
  string_forall p (string_rev_append s acc) = string_forall p s && string_forall p acc.
Proof.
  induction s as [|c s IH]; intros acc; cbn [string_rev_append string_forall]; [reflexivity|].
  rewrite IH. cbn [string_forall]. destruct (p c), (string_forall p s); reflexivity.
Qed.

Lemma string_forall_rev p s : string_forall p (string_rev s) = string_forall p s.
Proof. unfold string_rev. rewrite string_forall_rev_append. cbn. apply andb_true_r. Qed.

Lemma string_forall_map p f s :
  string_forall p (string_map f s) = string_forall (fun c => p (f c)) s.
Proof. induction s as [|c s IH]; cbn [string_map string_forall]; congruence. Qed.

Lemma string_forall_toLowerCase p s :
  string_forall p (toLowerCase s) = string_forall (fun c => p (toLowerCase_char c)) s.
Proof. induction s as [|c s IH]; cbn [toLowerCase string_forall]; congruence. Qed.

Lemma string_forall_all p s : (forall c, p c = true) -> string_forall p s = true.
Proof. intros H. induction s as [|c s IH]; cbn [string_forall]; [reflexivity|]. rewrite H, IH. reflexivity. Qed.

Lemma string_forall_impl (p p' : ascii -> bool) s :
  (forall c, p c = true -> p' c = true) -> string_forall p s = true -> string_forall p' s = true.
Proof.
  intros H. induction s as [|c s IH]; cbn [string_forall]; [reflexivity|].
  intros E. apply andb_prop in E. destruct E as [E1 E2]. rewrite (H c E1), (IH E2). reflexivity.
Qed.

(** The pieces of a split hold no separator, and no character that the
    string does not hold. *)
Lemma split_runs_forall (sep p : ascii -> bool) s : forall cur in_run,
  string_forall (fun c => sep c || p c) s = true ->
  string_forall p cur = true ->
  Forall (fun piece => string_forall p piece = true) (split_runs sep s cur in_run).
Proof.
  induction s as [|c s IH]; intros cur in_run Hs Hc; cbn [split_runs].
  - constructor; [|constructor]. rewrite string_forall_rev. assumption.
  - cbn [string_forall] in Hs. apply andb_prop in Hs. destruct Hs as [Hc0 Hs].
    destruct (sep c) eqn:E.
    + destruct in_run.
      * apply IH; assumption.
      * constructor; [rewrite string_forall_rev; assumption|]. apply IH; [assumption|reflexivity].
    + apply IH; [assumption|]. cbn [string_forall]. cbn [orb] in Hc0. rewrite Hc0, Hc. reflexivity.
Qed.

Lemma split_forall (sep p : ascii -> bool) s :
  string_forall (fun c => sep c || p c) s = true ->
  Forall (fun piece => string_forall p piece = true) (split sep s).
Proof. intros H. apply split_runs_forall; [assumption|reflexivity]. Qed.

Lemma ascii_all (P : ascii -> bool) :
  forallb P (map ascii_of_nat (seq 0 256)) = true -> forall c, P c = true.
Proof.
  intros H c. rewrite forallb_forall in H. apply H.
  rewrite <- (ascii_nat_embedding c). apply in_map. apply in_seq.
  pose proof (nat_ascii_bounded c). lia.
Qed.

(** After lower-casing and the replacement of the other characters by
    spaces, a text holds spaces and token characters only. *)
Lemma normalized_char c :
  let c' := (fun c => if is_word c || is_space c then c else " "%char) (toLowerCase_char c) in
  is_space c' || is_token_char c' = true.
Proof. revert c. apply ascii_all. vm_compute. reflexivity. Qed.

(** X1. Every token has at least three characters, all of them lower-case
    letters, digits or underscores. *)
Theorem tokenize_tokens text :
  Forall (fun t => 3 <= String.length t /\ string_forall is_token_char t = true)
         (tokenize text).
Proof.
  unfold tokenize. apply Forall_forall. intros t Ht. apply filter_In in Ht.
  destruct Ht as [Ht Hlen]. apply Nat.ltb_lt in Hlen. split; [lia|].
  clear Hlen. revert t Ht. apply Forall_forall. apply split_forall.
  unfold replace_non_word. rewrite string_forall_map, string_forall_toLowerCase.
  apply string_forall_all. intros c. apply normalized_char.
Qed.

(** ** Case *)

Lemma toLowerCase_char_idempotent c :
  toLowerCase_char (toLowerCase_char c) = toLowerCase_char c.
Proof.
  assert (H : (fun c => Ascii.eqb (toLowerCase_char (toLowerCase_char c)) (toLowerCase_char c)) c
              = true)
    by (revert c; apply ascii_all; vm_compute; reflexivity).
  apply Ascii.eqb_eq in H. assumption.
Qed.

Lemma toLowerCase_idempotent s : toLowerCase (toLowerCase s) = toLowerCase s.
Proof.
  induction s as [|c s IH]; cbn [toLowerCase]; [reflexivity|].
  rewrite toLowerCase_char_idempotent, IH. reflexivity.
Qed.

(** X2. The scorer does not see the case of the query nor of the content:
    two queries, and two contents, that differ in case only score the same. *)
Theorem computeSimilarity_case_insensitive query query' content content' :
  toLowerCase query = toLowerCase query' ->
  toLowerCase content = toLowerCase content' ->
  computeSimilarity query content = computeSimilarity query' content'.
Proof.
  intros Hq Hc. unfold computeSimilarity, tokenize. rewrite Hq, Hc. reflexivity.
Qed.

Lemma computeSimilarity_case_insensitive_witness :
  toLowerCase "Dark MODE" = toLowerCase "dark mode" /\
  toLowerCase "I Love Dark Mode" = toLowerCase "i love dark mode" /\
  computeSimilarity "Dark MODE" "I Love Dark Mode"
  = computeSimilarity "dark mode" "i love dark mode".
Proof.
  split; [reflexivity|]. split; [reflexivity|].
  apply computeSimilarity_case_insensitive; reflexivity.
Defined.

(** ** A score of zero *)

Lemma zero_div_positive s :
  SFpositive (Prim2SF s) = true -> (0 / s)%float = 0%float.
Proof.
  intros H. apply Prim2SF_inj. rewrite div_spec, Prim2SF_zero.
  destruct (Prim2SF s) as [[]|[]| |[] m e]; try discriminate H; reflexivity.
Qed.

(** X3. A content that shares no token with the query and does not hold the
    query as a substring scores 0, below the floor of the search. *)
Theorem no_overlap_scores_zero query content :
  (forall t, In t (tokenize content) -> ~ In t (tokenize query)) ->
  includes (toLowerCase content) (toLowerCase query) = false ->
  computeSimilarity query content = 0%float /\
  (lit_0_05 <? computeSimilarity query content)%float = false.
Proof.
  intros Hno Hsub.
  assert (E : computeSimilarity query content = 0%float).
  { rewrite computeSimilarity_score. unfold score.
    destruct (nodup string_dec (tokenize query)) as [|t0 Q] eqn:EQ; [reflexivity|].
    destruct (tokenize content) as [|c0 C] eqn:EC; [reflexivity|].
    rewrite Hsub.
    rewrite (filter_ext_in _ (fun _ => false)), filter_false.
    - change (Number_of_nat (List.length (@nil string))) with 0%float.
      rewrite zero_div_positive; [reflexivity|].
      rewrite sqrt_spec. apply SFsqrt_positive; [apply Prim2SF_valid|].
      rewrite mul_spec. apply SFmul_ge1; apply Number_of_nat_ge1; cbn [List.length]; lia.
    - intros t Ht. destruct (existsb (String.eqb t) (t0 :: Q)) eqn:Ex; [exfalso|reflexivity].
      apply existsb_exists in Ex. destruct Ex as (u & Hu & Eu). apply String.eqb_eq in Eu.
      subst u. rewrite <- EQ in Hu. apply (proj1 (nodup_In string_dec _ t)) in Hu.
      exact (Hno t Ht Hu). }
  split; [exact E|]. rewrite E. reflexivity.
Qed.

Lemma no_overlap_scores_zero_witness :
  (forall t, In t (tokenize "the weather is nice") -> ~ In t (tokenize "dark mode")) /\
  includes (toLowerCase "the weather is nice") (toLowerCase "dark mode") = false /\
  computeSimilarity "dark mode" "the weather is nice" = 0%float /\
  (lit_0_05 <? computeSimilarity "dark mode" "the weather is nice")%float = false.
Proof.
  assert (H : forall t, In t (tokenize "the weather is nice") -> ~ In t (tokenize "dark mode")).
  { intros t Ht Hq. vm_compute in Ht, Hq.
    repeat match goal with
           | H : _ \/ _ |- _ => destruct H
           | H : False |- _ => destruct H
           end; subst; discriminate. }
  split; [exact H|]. split; [reflexivity|].
  apply no_overlap_scores_zero; [exact H|reflexivity].
Defined.

(** ** Reversal and trimming *)

Lemma append_nil_r s : (s ++ EmptyString)%string = s.
Proof. induction s as [|c s IH]; cbn; congruence. Qed.

Lemma append_assoc (a b c : string) : ((a ++ b) ++ c)%string = (a ++ b ++ c)%string.
Proof. induction a as [|x a IH]; cbn; congruence. Qed.

Lemma string_rev_append_app s : forall acc,
  string_rev_append s acc = (string_rev s ++ acc)%string.
Proof.
  unfold string_rev. induction s as [|c s IH]; intros acc; cbn [string_rev_append]; [reflexivity|].
  rewrite IH, (IH (String c EmptyString)), append_assoc. reflexivity.
Qed.

Lemma string_rev_cons c s : string_rev (String c s) = (string_rev s ++ String c EmptyString)%string.
Proof. unfold string_rev at 1. cbn [string_rev_append]. apply string_rev_append_app. Qed.

Lemma string_rev_app a b : string_rev (a ++ b) = (string_rev b ++ string_rev a)%string.
Proof.
  induction a as [|c a IH]; cbn [append].
  - symmetry. apply append_nil_r.
  - rewrite !string_rev_cons, IH. apply append_assoc.
Qed.

Lemma string_rev_involutive s : string_rev (string_rev s) = s.
Proof.
  induction s as [|c s IH]; [reflexivity|].
  rewrite string_rev_cons, string_rev_app, IH. reflexivity.
Qed.

Lemma trimStart_starts_clean s : starts_clean (trimStart s) = true.
Proof.
  induction s as [|c s IH]; [reflexivity|]. cbn [trimStart].
  destruct (is_space c) eqn:E; [exact IH|]. cbn. rewrite E. reflexivity.
Qed.

Lemma trimStart_clean s : starts_clean s = true -> trimStart s = s.
Proof.
  destruct s as [|c s]; [reflexivity|]. cbn. destruct (is_space c); [discriminate|reflexivity].
Qed.

Lemma starts_clean_app a b :
  starts_clean (a ++ b) = match a with EmptyString => starts_clean b | _ => starts_clean a end.
Proof. destruct a; reflexivity. Qed.

(** Trimming the front of a string whose end is clean leaves the end clean. *)
Lemma trimStart_ends_clean s :
  starts_clean (string_rev s) = true -> starts_clean (string_rev (trimStart s)) = true.
Proof.
  induction s as [|c s IH]; [reflexivity|]. cbn [trimStart].
  destruct (is_space c) eqn:E; [|trivial].
  rewrite string_rev_cons, starts_clean_app. intros H. apply IH.
  destruct (string_rev s) eqn:R; [reflexivity|exact H].
Qed.

Lemma trim_clean s :
  starts_clean s = true -> starts_clean (string_rev s) = true -> trim s = s.
Proof.
  intros H1 H2. unfold trim. rewrite (trimStart_clean s H1), (trimStart_clean _ H2).
  apply string_rev_involutive.
Qed.

Lemma trim_ends s :
  starts_clean (trim s) = true /\ starts_clean (string_rev (trim s)) = true.
Proof.
  unfold trim. rewrite string_rev_involutive. split; [|apply trimStart_starts_clean].
  apply trimStart_ends_clean. rewrite string_rev_involutive. apply trimStart_starts_clean.
Qed.

Lemma trim_idempotent s : trim (trim s) = trim s.
Proof. apply trim_clean; apply trim_ends. Qed.

Lemma string_forall_trimStart p s :
  string_forall p s = true -> string_forall p (trimStart s) = true.
Proof.
  induction s as [|c s IH]; [trivial|]. cbn [trimStart].
  destruct (is_space c); [|trivial]. cbn [string_forall]. intros H.
  apply andb_prop in H. apply IH, H.
Qed.

Lemma string_forall_trim p s : string_forall p s = true -> string_forall p (trim s) = true.
Proof.
  intros H. unfold trim. rewrite string_forall_rev. apply string_forall_trimStart.
  rewrite string_forall_rev. apply string_forall_trimStart, H.
Qed.

(** ** The extracted facts *)

Lemma split_pieces sep s :
  Forall (fun piece => string_forall (fun c => negb (sep c)) piece = true) (split sep s).
Proof.
  apply split_forall. apply string_forall_all. intros c. apply orb_negb_r.
Qed.

Lemma extractFacts_filter content containerTag :
  extractFacts content containerTag =
  filter matches_a_pattern
    (map trim (filter (fun s => (10 <? String.length (trim s))%nat)
                      (split is_sentence_end content))).
Proof. unfold extractFacts. rewrite extract_loop. reflexivity. Qed.

Lemma extractFacts_In content containerTag f :
  In f (extractFacts content containerTag) -> is_fact_text f.
Proof.
  rewrite extractFacts_filter. intros Hf.
  apply filter_In in Hf. destruct Hf as [Hf Hm].
  apply in_map_iff in Hf. destruct Hf as (s & <- & Hs).
  apply filter_In in Hs. destruct Hs as [Hs Hlen].
  apply Nat.ltb_lt in Hlen.
  repeat split; [exact Hlen|apply trim_idempotent| |exact Hm].
  apply string_forall_trim.
  exact (proj1 (Forall_forall _ _) (split_pieces is_sentence_end content) s Hs).
Qed.

(** X4. Every extracted fact is a trimmed piece of the content between
    sentence terminators: it has more than ten characters, no white space at
    either end, no full stop, exclamation mark or question mark, and it
    matches a preference pattern. *)
Theorem extractFacts_facts content containerTag :
  Forall is_fact_text (extractFacts content containerTag).
Proof. apply Forall_forall. intros f. apply extractFacts_In. Qed.

(** ** Sentences *)

Lemma split_runs_restart (sep : ascii -> bool) (keep : string -> bool) b :
  keep EmptyString = false ->
  filter keep (split_runs sep b EmptyString true) = filter keep (split sep b).
Proof.
  intros K. unfold split. destruct b as [|c b]; [reflexivity|]. cbn [split_runs].
  destruct (sep c); [|reflexivity]. cbn [filter string_rev string_rev_append].
  rewrite K. reflexivity.
Qed.

Lemma split_runs_app (sep : ascii -> bool) (keep : string -> bool) p b :
  sep p = true -> keep EmptyString = false ->
  forall a cur in_run, (in_run = true -> cur = EmptyString) ->
  filter keep (split_runs sep (a ++ String p b) cur in_run)
  = (filter keep (split_runs sep a cur in_run) ++ filter keep (split sep b))%list.
Proof.
  intros P K. induction a as [|c a IH]; intros cur in_run Hrun; cbn [append split_runs].
  - rewrite P. destruct in_run.
    + rewrite (Hrun eq_refl). cbn [filter string_rev string_rev_append]. rewrite K.
      apply split_runs_restart, K.
    + cbn [filter]. rewrite (split_runs_restart sep keep b K).
      destruct (keep (string_rev cur)); reflexivity.
  - destruct (sep c).
    + destruct in_run.
      * apply IH, Hrun.
      * cbn [filter]. rewrite (IH EmptyString true (fun _ => eq_refl)).
        destruct (keep (string_rev cur)); reflexivity.
    + apply IH. discriminate.
Qed.

(** X5. The extractor works sentence by sentence: the facts of two texts
    joined by a sentence terminator are the facts of the first followed by
    the facts of the second. *)
Theorem extractFacts_sentences a p b containerTag :
  is_sentence_end p = true ->
  extractFacts (a ++ String p b) containerTag
  = (extractFacts a containerTag ++ extractFacts b containerTag)%list.
Proof.
  intros P. rewrite !extractFacts_filter. unfold split.
  rewrite (split_runs_app is_sentence_end _ p b P eq_refl a EmptyString false);
    [|discriminate].
  rewrite map_app, filter_app. reflexivity.
Qed.

Lemma extractFacts_sentences_witness :
  is_sentence_end "."%char = true /\
  extractFacts ("I prefer dark mode" ++ String "."%char " My favorite editor is vim") "work"
  = (extractFacts "I prefer dark mode" "work"
     ++ extractFacts " My favorite editor is vim" "work")%list.
Proof.
  split; [reflexivity|]. apply extractFacts_sentences. reflexivity.
Defined.

(** ** A lower bound of a sum of doubles *)

Local Open Scope Z_scope.

Lemma binary_round_mag s m e : -1074 < Zdigits2 (Z.pos m) + e ->
  binary_round prec emax s m e = S754_infinity s \/
  exists m' e', binary_round prec emax s m e = S754_finite s m' e' /\
                Zdigits2 (Z.pos m) + e <= Zdigits2 (Z.pos m') + e'.
Proof.
  intros H. unfold binary_round.
  pose proof (shl_align_digits m e (SpecFloat.fexp prec emax (Z.pos (digits2_pos m) + e))) as Hd.
  destruct (shl_align m e _) as [mz ez]. cbn [fst snd] in Hd.
  destruct (binary_round_aux_pos s (Z.pos mz) ez loc_Exact) as [E|(m' & e' & E & Hm)];
    [lia|lia|left; assumption|right].
  exists m', e'. split; [assumption|lia].
Qed.

(** Adding a non-negative double does not take a double below the power
    of two it has reached. *)
Lemma SFadd_mag k x y :
  -1074 < k -> SFnonneg x = true -> SFmag_ge k y = true -> SFmag_ge k (SF64add x y) = true.
Proof.
  intros Hk.
  destruct x as [[]|[]| |[] mx ex], y as [[]|[]| |[] my ey];
    cbn [SFnonneg SFmag_ge SF64add SFadd Bool.eqb]; try congruence;
    try (intros _ H; exact H).
  intros _ Hy. apply Z.leb_le in Hy. cbn [cond_Zopp].
  pose proof (shl_align_fst mx ex (Z.min ex ey) ltac:(lia)) as Ha.
  pose proof (shl_align_fst my ey (Z.min ex ey) ltac:(lia)) as Hb.
  set (a := fst (shl_align mx ex (Z.min ex ey))) in *.
  set (b := fst (shl_align my ey (Z.min ex ey))) in *.
  change (Z.pos a + Z.pos b) with (Z.pos (a + b)).
  unfold binary_normalize.
  assert (Hmag : Zdigits2 (Z.pos my) + ey <= Zdigits2 (Z.pos (a + b)) + Z.min ex ey).
  { pose proof (Zdigits2_le (Z.pos b) (Z.pos (a + b)) ltac:(lia) ltac:(lia)) as Hle.
    rewrite Hb in Hle at 1. rewrite Zdigits2_mul_pow2 in Hle by lia. lia. }
  destruct (binary_round_mag false (a + b) (Z.min ex ey)) as [E|(m' & e' & E & Hm)];
    [lia|rewrite E; reflexivity|].
  rewrite E. cbn [SFmag_ge]. apply Z.leb_le. lia.
Qed.

(** A valid double that has reached [2 ^ (k - 1)] is above a finite
    non-negative one that has not. *)
Lemma SFmag_ltb k x y :
  valid_binary x = true -> valid_binary y = true ->
  SFfinite_nonneg x = true -> SFmag_ge k x = false -> SFmag_ge k y = true ->
  SFltb x y = true.
Proof.
  destruct x as [[]|[]| |[] mx ex], y as [[]|[]| |[] my ey];
    cbn [SFmag_ge SFfinite_nonneg]; try congruence; try reflexivity.
  intros Vx Vy _ Hx Hy. apply Z.leb_le in Hy. apply Z.leb_gt in Hx.
  destruct (canonical_digits _ _ _ Vx) as (Hex & Hdx & Hnx).
  destruct (canonical_digits _ _ _ Vy) as (Hey & Hdy & Hny).
  unfold SFltb. cbn [SFcompare].
  destruct (Z.compare_spec ex ey) as [E|E|E]; [|reflexivity|].
  - subst ey. change (Pos.compare_cont Eq mx my) with (Pos.compare mx my).
    destruct (Pos.compare_spec mx my) as [E|E|E]; [exfalso|reflexivity|exfalso].
    + subst my. lia.
    + pose proof (Zdigits2_le (Z.pos my) (Z.pos mx) ltac:(lia) ltac:(lia)). lia.
  - exfalso. specialize (Hnx ltac:(lia)). lia.
Qed.

Local Close Scope Z_scope.

(** ** The score of a content that holds the query *)

Lemma Math_min_1_mag k x :
  SFmag_ge k (Prim2SF 1%float) = true -> SFmag_ge k (Prim2SF x) = true ->
  SFmag_ge k (Prim2SF (Math_min 1%float x)) = true.
Proof.
  intros H1 Hx. unfold Math_min.
  destruct (is_nan 1%float || is_nan x) eqn:N.
  - unfold is_nan in N. change (1 =? 1)%float with true in N. cbn [negb orb] in N.
    rewrite eqb_spec in N. unfold SFeqb in N. rewrite SFcompare_refl in N; [discriminate|].
    destruct (Prim2SF x) as [[]|[]| |[] m e]; cbn in Hx |- *; congruence.
  - destruct (1 <? x)%float; [exact H1|].
    destruct (x <? 1)%float; [exact Hx|]. change (get_sign 1%float) with false. exact Hx.
Qed.

Lemma substring_score_mag query content :
  tokenize query <> [] -> tokenize content <> [] ->
  includes (toLowerCase content) (toLowerCase query) = true ->
  SFmag_ge (-1) (Prim2SF (computeSimilarity query content)) = true.
Proof.
  intros HQ HC Hsub. rewrite computeSimilarity_score. unfold score.
  destruct (nodup string_dec (tokenize query)) as [|t0 Q] eqn:EQ.
  { destruct (tokenize query) as [|t l]; [congruence|].
    assert (In t (nodup string_dec (t :: l))) as Hin by (apply nodup_In; left; reflexivity).
    rewrite EQ in Hin. destruct Hin. }
  destruct (tokenize content) as [|c0 C]; [congruence|].
  rewrite Hsub. apply Math_min_1_mag; [vm_compute; reflexivity|].
  rewrite add_spec. apply SFadd_mag; [lia| |vm_compute; reflexivity].
  rewrite div_spec. apply SFdiv_nonneg.
  - apply Number_of_nat_finite_nonneg.
  - rewrite sqrt_spec. apply SFsqrt_positive; [apply Prim2SF_valid|].
    rewrite mul_spec. apply SFmul_ge1; apply Number_of_nat_ge1; cbn [List.length]; lia.
Qed.

(** A double that has reached a quarter is above 0.05. *)
Lemma quarter_above_floor x :
  SFmag_ge (-1) (Prim2SF x) = true -> (lit_0_05 <? x)%float = true.
Proof.
  intros M. rewrite ltb_spec.
  apply (SFmag_ltb (-1)); try apply Prim2SF_valid; try exact M; vm_compute; reflexivity.
Qed.

Lemma quarter_above_threshold x :
  SFmag_ge (-1) (Prim2SF x) = true -> (lit_0_1 <? x)%float = true.
Proof.
  intros M. rewrite ltb_spec.
  apply (SFmag_ltb (-1)); try apply Prim2SF_valid; try exact M; vm_compute; reflexivity.
Qed.

(** X6. A content that holds the query as a substring, whatever the case,
    scores above the floor 0.05 of the search and above the default
    threshold 0.1 of the profile, provided both have a token. *)
Theorem substring_scores query content :
  tokenize query <> [] -> tokenize content <> [] ->
  includes (toLowerCase content) (toLowerCase query) = true ->
  (lit_0_05 <? computeSimilarity query content)%float = true /\
  (lit_0_1 <? computeSimilarity query content)%float = true.
Proof.
  intros HQ HC Hsub. pose proof (substring_score_mag query content HQ HC Hsub) as M.
  split; [apply quarter_above_floor|apply quarter_above_threshold]; exact M.
Qed.

Lemma substring_scores_witness :
  tokenize "dark mode" <> [] /\ tokenize "I prefer Dark Mode" <> [] /\
  includes (toLowerCase "I prefer Dark Mode") (toLowerCase "dark mode") = true /\
  (lit_0_05 <? computeSimilarity "dark mode" "I prefer Dark Mode")%float = true /\
  (lit_0_1 <? computeSimilarity "dark mode" "I prefer Dark Mode")%float = true.
Proof.
  split; [vm_compute; discriminate|]. split; [vm_compute; discriminate|].
  split; [reflexivity|].
  apply substring_scores; [vm_compute; discriminate|vm_compute; discriminate|reflexivity].
Defined.

(** ** What the search returns *)

Lemma NoDup_firstn {A} n (l : list A) : NoDup l -> NoDup (firstn n l).
Proof.
  intros H. rewrite <- (firstn_skipn n l) in H. apply NoDup_app_remove_r in H. exact H.
Qed.

Lemma NoDup_skipn {A} n (l : list A) : NoDup l -> NoDup (skipn n l).
Proof.
  intros H. rewrite <- (firstn_skipn n l) in H. apply NoDup_app_remove_l in H. exact H.
Qed.

Lemma Array_slice0_firstn {A} n (l : list A) : exists k, Array_slice0 n l = firstn k l.
Proof. unfold Array_slice0. destruct (n <? 0)%Z; eauto. Qed.

Lemma select_active_ids n tag db :
  unique_ids db -> NoDup (map id (select_active n tag db)).
Proof.
  intros H. unfold select_active. rewrite <- firstn_map. apply NoDup_firstn.
  apply (Permutation_NoDup
           (Permutation_sym (Permutation_map id (order_by_created_at_desc_perm _)))).
  apply NoDup_map_filter. exact H.
Qed.

Lemma select_active_length n tag db : List.length (select_active n tag db) <= n.
Proof. unfold select_active. apply firstn_le_length. Qed.

Lemma select_active_small n tag db m :
  List.length (filter (active_of tag) (memories db)) <= n ->
  In m (memories db) -> active_of tag m = true -> In m (select_active n tag db).
Proof.
  intros Hn Hin Ha. unfold select_active. fold (active_of tag).
  rewrite firstn_all2.
  - apply (Permutation_in _ (Permutation_sym (order_by_created_at_desc_perm _))).
    apply filter_In. auto.
  - unfold order_by_created_at_desc. rewrite stable_sort_length. exact Hn.
Qed.

Lemma search_results_eq req db searchQuery :
  truthy (or_else (q req) (query req)) = Some searchQuery ->
  results (search_memories req db) =
  Array_slice0 (default 10%Z (limit req))
    (Array_sort by_similarity_desc
       (filter (fun r => (lit_0_05 <? similarity r)%float)
          (map (to_result searchQuery)
             (select_active 1000 (resolve_tag (containerTag req) (containerTags req)) db)))).
Proof. intros Hq. unfold search_memories. rewrite Hq. reflexivity. Qed.

(** X7. Every result of a search is the image of an active memory of the
    container searched, with a score above 0.05 and at most 1; there are at
    most 1000 results; without a query there is none. *)
Theorem search_results_sound req db :
  Forall (fun r =>
            exists searchQuery m,
              truthy (or_else (q req) (query req)) = Some searchQuery /\
              In m (memories db) /\
              active_of (resolve_tag (containerTag req) (containerTags req)) m = true /\
              r = to_result searchQuery m /\
              (lit_0_05 <? similarity r)%float = true /\
              (similarity r <=? 1)%float = true)
         (results (search_memories req db)) /\
  List.length (results (search_memories req db)) <= 1000.
Proof.
  destruct (truthy (or_else (q req) (query req))) as [searchQuery|] eqn:Hq.
  2:{ unfold search_memories. rewrite Hq. cbn. split; [constructor|lia]. }
  rewrite (search_results_eq req db searchQuery Hq). split.
  - apply Forall_forall. intros r Hr. apply Array_slice0_In in Hr.
    apply (Permutation_in _ (stable_sort_perm _ _)) in Hr.
    apply filter_In in Hr. destruct Hr as [Hr Hs].
    apply in_map_iff in Hr. destruct Hr as (m & <- & Hm).
    apply select_active_In in Hm. destruct Hm as (Hin & Ht & Hf).
    exists searchQuery, m. repeat split; try assumption.
    + unfold active_of. rewrite Ht, Hf, String.eqb_refl. reflexivity.
    + cbn [similarity to_result]. rewrite computeSimilarity_score. apply score_range.
  - destruct (Array_slice0_firstn (default 10%Z (limit req))
                (Array_sort by_similarity_desc
                   (filter (fun r => (lit_0_05 <? similarity r)%float)
                      (map (to_result searchQuery)
                         (select_active 1000
                            (resolve_tag (containerTag req) (containerTags req)) db)))))
      as [k ->].
    rewrite length_firstn. unfold Array_sort. rewrite stable_sort_length.
    pose proof (filter_length_le (fun r => (lit_0_05 <? similarity r)%float)
                  (map (to_result searchQuery)
                     (select_active 1000
                        (resolve_tag (containerTag req) (containerTags req)) db))) as H1.
    rewrite length_map in H1.
    pose proof (select_active_length 1000
                  (resolve_tag (containerTag req) (containerTags req)) db). lia.
Qed.

(** X8. With [id] a primary key, no memory is returned twice by a
    search. *)
Theorem search_results_distinct req db :
  unique_ids db -> NoDup (map result_id (results (search_memories req db))).
Proof.
  intros Hu.
  destruct (truthy (or_else (q req) (query req))) as [searchQuery|] eqn:Hq.
  2:{ unfold search_memories. rewrite Hq. constructor. }
  rewrite (search_results_eq req db searchQuery Hq).
  destruct (Array_slice0_firstn (default 10%Z (limit req))
              (Array_sort by_similarity_desc
                 (filter (fun r => (lit_0_05 <? similarity r)%float)
                    (map (to_result searchQuery)
                       (select_active 1000
                          (resolve_tag (containerTag req) (containerTags req)) db)))))
    as [k ->].
  rewrite <- firstn_map. apply NoDup_firstn.
  apply (Permutation_NoDup
           (Permutation_sym (Permutation_map result_id (stable_sort_perm _ _)))).
  apply NoDup_map_filter. rewrite map_map. cbn [result_id to_result].
  apply select_active_ids. exact Hu.
Qed.

Lemma search_results_distinct_witness :
  unique_ids two_dark_modes /\
  NoDup (map result_id (results (search_memories dark_mode_top1 two_dark_modes))).
Proof.
  split; [exact two_dark_modes_unique_ids|].
  apply search_results_distinct. exact two_dark_modes_unique_ids.
Defined.

(** A container with no more active memories than the limit asks for, and
    no more than 1000, is searched completely. *)
Lemma search_small_container req db searchQuery m :
  truthy (or_else (q req) (query req)) = Some searchQuery ->
  let tag := resolve_tag (containerTag req) (containerTags req) in
  (Z.of_nat (List.length (filter (active_of tag) (memories db))) <= default 10%Z (limit req))%Z ->
  List.length (filter (active_of tag) (memories db)) <= 1000 ->
  In m (memories db) -> active_of tag m = true ->
  (lit_0_05 <? computeSimilarity searchQuery (content m))%float = true ->
  In (to_result searchQuery m) (results (search_memories req db)).
Proof.
  intros Hq tag Hlim Hcap Hin Ha Hs.
  rewrite (search_results_eq req db searchQuery Hq). fold tag.
  assert (Hlen : List.length (select_active 1000 tag db)
                 <= List.length (filter (active_of tag) (memories db))).
  { unfold select_active. fold (active_of tag). rewrite length_firstn.
    unfold order_by_created_at_desc. rewrite stable_sort_length. lia. }
  rewrite Array_slice0_nonneg by lia. rewrite firstn_all2.
  - apply (Permutation_in _ (Permutation_sym (stable_sort_perm _ _))).
    apply filter_In. split; [|exact Hs].
    apply in_map. apply select_active_small; assumption.
  - unfold Array_sort. rewrite stable_sort_length.
    pose proof (filter_length_le (fun r => (lit_0_05 <? similarity r)%float)
                  (map (to_result searchQuery) (select_active 1000 tag db))) as H1.
    rewrite length_map in H1. lia.
Qed.

(** X9. A search of a container that holds no more active memories than
    the limit, and no more than 1000, misses nothing: every active memory of
    the container whose content holds the query is among the results. *)
Theorem search_finds_substring req db searchQuery m :
  truthy (or_else (q req) (query req)) = Some searchQuery ->
  let tag := resolve_tag (containerTag req) (containerTags req) in
  (Z.of_nat (List.length (filter (active_of tag) (memories db))) <= default 10%Z (limit req))%Z ->
  List.length (filter (active_of tag) (memories db)) <= 1000 ->
  In m (memories db) -> active_of tag m = true ->
  tokenize searchQuery <> [] -> tokenize (content m) <> [] ->
  includes (toLowerCase (content m)) (toLowerCase searchQuery) = true ->
  In (id m) (map result_id (results (search_memories req db))).
Proof.
  intros Hq tag Hlim Hcap Hin Ha HQ HC Hsub.
  change (id m) with (result_id (to_result searchQuery m)). apply in_map.
  apply search_small_container; try assumption.
  apply quarter_above_floor, substring_score_mag; assumption.
Qed.

Lemma search_finds_substring_witness :
  truthy (or_else (q dark_mode_query) (query dark_mode_query)) = Some "dark mode" /\
  let tag := resolve_tag (containerTag dark_mode_query) (containerTags dark_mode_query) in
  (Z.of_nat (List.length (filter (active_of tag) (memories two_dark_modes)))
   <= default 10%Z (limit dark_mode_query))%Z /\
  List.length (filter (active_of tag) (memories two_dark_modes)) <= 1000 /\
  In dark_mode_memory (memories two_dark_modes) /\ active_of tag dark_mode_memory = true /\
  tokenize "dark mode" <> [] /\ tokenize (content dark_mode_memory) <> [] /\
  includes (toLowerCase (content dark_mode_memory)) (toLowerCase "dark mode") = true /\
  In (id dark_mode_memory)
     (map result_id (results (search_memories dark_mode_query two_dark_modes))).
Proof.
  split; [reflexivity|]. split; [vm_compute; discriminate|]. split; [vm_compute; lia|].
  split; [left; reflexivity|]. split; [reflexivity|].
  split; [vm_compute; discriminate|]. split; [vm_compute; discriminate|].
  split; [reflexivity|].
  apply (search_finds_substring dark_mode_query two_dark_modes "dark mode" dark_mode_memory);
    [reflexivity|vm_compute; discriminate|vm_compute; lia|left; reflexivity|reflexivity
    |vm_compute; discriminate|vm_compute; discriminate|reflexivity].
Defined.

(** ** Adding *)

Lemma existsb_eqb_In {A} (f : A -> string) i l :
  existsb (fun x => String.eqb (f x) i) l = true <-> In i (map f l).
Proof.
  rewrite existsb_exists, in_map_iff. split; intros (x & H1 & H2).
  - apply String.eqb_eq in H2. eauto.
  - exists x. split; [assumption|]. rewrite H1. apply String.eqb_refl.
Qed.

Lemma existsb_false {A} (p : A -> bool) l :
  ~ (exists x, In x l /\ p x = true) -> existsb p l = false.
Proof.
  intros H. destruct (existsb p l) eqn:E; [|reflexivity].
  apply existsb_exists in E. contradiction.
Qed.

Lemma insert_fact_fresh row db :
  ~ In (fact_id row) (map fact_id (profile_facts db)) ->
  insert_fact row db
  = Some {| memories := memories db; profile_facts := profile_facts db ++ [row] |}.
Proof.
  intros H. unfold insert_fact. rewrite existsb_false; [reflexivity|].
  intros (f & Hf & E). apply String.eqb_eq in E. apply H. rewrite <- E. apply in_map, Hf.
Qed.

Lemma insert_memory_fresh row db :
  ~ In (id row) (map id (memories db)) ->
  insert_memory row db
  = Some {| memories := memories db ++ [row]; profile_facts := profile_facts db |}.
Proof.
  intros H. unfold insert_memory. rewrite existsb_false; [reflexivity|].
  intros (f & Hf & E). apply String.eqb_eq in E. apply H. rewrite <- E. apply in_map, Hf.
Qed.

Lemma fact_rows_ids ids tag now facts : forall k,
  map fact_id (fact_rows ids k tag now facts) = map ids (seq k (List.length facts)).
Proof.
  induction facts as [|f facts IH]; intros k; cbn [fact_rows List.length seq map]; [reflexivity|].
  rewrite IH. reflexivity.
Qed.

Lemma fact_rows_length ids tag now facts k :
  List.length (fact_rows ids k tag now facts) = List.length facts.
Proof. revert k. induction facts as [|f facts IH]; intros k; cbn; [reflexivity|]. rewrite IH. reflexivity. Qed.

Lemma insert_facts_fresh ids tag now facts : forall k db,
  fresh_fact_ids ids k (List.length facts) db ->
  insert_facts ids k tag now facts db
  = ({| memories := memories db;
        profile_facts := profile_facts db ++ fact_rows ids k tag now facts |}, true).
Proof.
  induction facts as [|f facts IH]; intros k db [Hnd Hnew]; cbn [insert_facts fact_rows].
  - rewrite app_nil_r. destruct db; reflexivity.
  - cbn [List.length seq map] in Hnd, Hnew. apply NoDup_cons_iff in Hnd. destruct Hnd as [Hk Hnd].
    rewrite insert_fact_fresh by (apply Hnew; left; reflexivity).
    rewrite IH.
    + cbn [memories profile_facts]. rewrite <- app_assoc. reflexivity.
    + split; [exact Hnd|]. intros j Hj. cbn [profile_facts]. rewrite map_app, in_app_iff.
      intros [H|[H|[]]].
      * apply (Hnew j); [right; exact Hj|exact H].
      * cbn [fact_id] in H. apply Hk. rewrite H. apply in_map, Hj.
Qed.

(** X10. An [add] with a content, a fresh memory id and fresh fact ids
    answers with the new id and appends to the database exactly one active
    memory, in the container the request resolves to, and one dynamic fact
    for each fact extracted from the content, in order. *)
Theorem add_stores ids now req db content :
  truthy (add_content req) = Some content ->
  ~ In (ids 0) (map id (memories db)) ->
  fresh_fact_ids ids 1
    (List.length (extractFacts content
                    (resolve_tag (add_containerTag req) (add_containerTags req)))) db ->
  add ids now req db =
  (Ok {| added_id := ids 0; created := true |},
   {| memories := memories db ++ [memory_row ids now req content];
      profile_facts :=
        profile_facts db ++
        fact_rows ids 1 (resolve_tag (add_containerTag req) (add_containerTags req)) now
          (extractFacts content
             (resolve_tag (add_containerTag req) (add_containerTags req))) |}).
Proof.
  intros Hc Hid Hfresh. unfold add. rewrite Hc.
  fold (memory_row ids now req content).
  rewrite insert_memory_fresh by exact Hid.
  rewrite insert_facts_fresh by exact Hfresh. reflexivity.
Qed.

Lemma add_stores_witness :
  truthy (add_content add_dark_mode) = Some "I prefer dark mode" /\
  ~ In (example_ids 0) (map id (memories empty_database)) /\
  fresh_fact_ids example_ids 1
    (List.length (extractFacts "I prefer dark mode"
                    (resolve_tag (add_containerTag add_dark_mode)
                                 (add_containerTags add_dark_mode)))) empty_database /\
  add example_ids "2024-01-01T00:00:00.000Z" add_dark_mode empty_database =
  (Ok {| added_id := example_ids 0; created := true |},
   {| memories :=
        memories empty_database
        ++ [memory_row example_ids "2024-01-01T00:00:00.000Z" add_dark_mode
                       "I prefer dark mode"];
      profile_facts :=
        profile_facts empty_database ++
        fact_rows example_ids 1
          (resolve_tag (add_containerTag add_dark_mode) (add_containerTags add_dark_mode))
          "2024-01-01T00:00:00.000Z"
          (extractFacts "I prefer dark mode"
             (resolve_tag (add_containerTag add_dark_mode)
                          (add_containerTags add_dark_mode))) |}).
Proof.
  assert (F : fresh_fact_ids example_ids 1
                (List.length (extractFacts "I prefer dark mode"
                                (resolve_tag (add_containerTag add_dark_mode)
                                             (add_containerTags add_dark_mode))))
                empty_database).
  { split; vm_compute; [repeat constructor; intuition discriminate|intuition]. }
  split; [reflexivity|]. split; [intros []|]. split; [exact F|].
  apply add_stores; [reflexivity|intros []|exact F].
Defined.

(** X11. An [add] is refused with status 400 exactly when the content is
    missing or empty, and then, as whenever it fails before the insert of
    the memory, the database is left as it was; a request with a content is
    never refused for its other fields. *)
Theorem add_validation ids now req db :
  (truthy (add_content req) = None <->
   exists e, fst (add ids now req db) = Error 400 e) /\
  (truthy (add_content req) = None -> snd (add ids now req db) = db) /\
  (forall status e, fst (add ids now req db) = Error status e -> status = 400 \/ status = 500).
Proof.
  unfold add. destruct (truthy (add_content req)) as [c|].
  - destruct (insert_memory _ db) as [db1|].
    + destruct (insert_facts ids 1 _ now _ db1) as [db2 []]; cbn [fst snd].
      * repeat split; try discriminate. intros [e H]. discriminate.
      * repeat split; try discriminate.
        -- intros [e H]. discriminate.
        -- intros status e H. injection H as <- _. auto.
    + cbn [fst snd]. repeat split; try discriminate.
      * intros [e H]. discriminate.
      * intros status e H. injection H as <- _. auto.
  - cbn [fst snd]. repeat split; eauto. intros status e H. injection H as <- _. auto.
Qed.

(** ** Forgetting by content, and what a forget leaves alone *)

Lemma forget_by_content_eq now tag i c db :
  truthy i = None -> c <> EmptyString ->
  forget now {| forget_containerTag := tag; forget_id := i; forget_content := Some c |} db
  = (Ok {| forgotten_id := "content-match";
           forgotten := existsb (forgets_content c tag) (memories db) |},
     {| memories :=
          map (fun m => if forgets_content c tag m then set_forgotten_at now m else m)
              (memories db);
        profile_facts := profile_facts db |}).
Proof.
  intros Hi Hc. unfold forget. cbn [forget_id forget_content forget_containerTag].
  rewrite Hi. unfold truthy. destruct (String.eqb_spec c EmptyString) as [E|_]; [contradiction|].
  unfold update_where. rewrite filter_length_pos. reflexivity.
Qed.

(** X12. A forget by content reports whether an active memory of the
    container had exactly that content; it hides all of them at once, so
    that the same request, repeated, reports [false] and changes nothing. *)
Theorem forget_by_content_twice now1 now2 tag i c db :
  truthy i = None -> c <> EmptyString ->
  let req := {| forget_containerTag := tag; forget_id := i; forget_content := Some c |} in
  let first := forget now1 req db in
  let second := forget now2 req (snd first) in
  fst first = Ok {| forgotten_id := "content-match";
                    forgotten := existsb (forgets_content c tag) (memories db) |} /\
  second = (Ok {| forgotten_id := "content-match"; forgotten := false |}, snd first).
Proof.
  intros Hi Hc req first second. subst second first req.
  rewrite (forget_by_content_eq now1 tag i c db Hi Hc). cbn [fst snd]. split; [reflexivity|].
  rewrite (forget_by_content_eq now2 tag i c _ Hi Hc). cbn [memories profile_facts].
  assert (Hnone : forall l,
             Forall (fun m => forgets_content c tag m = false)
               (map (fun m => if forgets_content c tag m then set_forgotten_at now1 m else m) l)).
  { intros l. apply Forall_forall. intros m' Hm'. apply in_map_iff in Hm'.
    destruct Hm' as (m & <- & _). destruct (forgets_content c tag m) eqn:E; [|exact E].
    unfold forgets_content. cbn [forgotten_at set_forgotten_at is_null]. apply andb_false_r. }
  f_equal.
  - f_equal. f_equal. apply existsb_false. intros (m & Hm & E).
    pose proof (proj1 (Forall_forall _ _) (Hnone (memories db)) m Hm). congruence.
  - f_equal. rewrite <- (map_id (map _ (memories db))) at 2. apply map_ext_in.
    intros m Hm. rewrite (proj1 (Forall_forall _ _) (Hnone (memories db)) m Hm). reflexivity.
Qed.

Lemma forget_by_content_twice_witness :
  truthy None = None /\ "I prefer dark mode" <> EmptyString /\
  let req := {| forget_containerTag := "work"; forget_id := None;
                forget_content := Some "I prefer dark mode" |} in
  let first := forget "2024-03-01T00:00:00.000Z" req two_dark_modes in
  let second := forget "2024-03-02T00:00:00.000Z" req (snd first) in
  fst first = Ok {| forgotten_id := "content-match";
                    forgotten := existsb (forgets_content "I prefer dark mode" "work")
                                         (memories two_dark_modes) |} /\
  second = (Ok {| forgotten_id := "content-match"; forgotten := false |}, snd first).
Proof.
  split; [reflexivity|]. split; [discriminate|].
  apply (forget_by_content_twice "2024-03-01T00:00:00.000Z" "2024-03-02T00:00:00.000Z"
           "work" None "I prefer dark mode" two_dark_modes); [reflexivity|discriminate].
Defined.

Lemma marked_refl now m : marked now m m.
Proof. unfold marked. tauto. Qed.

Lemma marked_set now m : marked now m (set_forgotten_at now m).
Proof. unfold marked. cbn. tauto. Qed.

Lemma Forall2_map_marked now (cond : memory -> bool) l :
  Forall2 (marked now) l (map (fun m => if cond m then set_forgotten_at now m else m) l).
Proof.
  induction l as [|m l IH]; cbn [map]; constructor; [|exact IH].
  destruct (cond m); [apply marked_set|apply marked_refl].
Qed.

Lemma Forall2_refl {A} (R : A -> A -> Prop) l : (forall x, R x x) -> Forall2 R l l.
Proof. intros H. induction l; constructor; auto. Qed.

(** X13. A forget deletes nothing: it leaves the profile facts as they
    are and the memories in place, row by row, each unchanged but for
    [forgotten_at], which it either keeps or sets to the time of the request.
    In particular no memory becomes active again, and [updated_at] does not
    move. *)
Theorem forget_only_marks now req db :
  profile_facts (snd (forget now req db)) = profile_facts db /\
  Forall2 (marked now) (memories db) (memories (snd (forget now req db))).
Proof.
  unfold forget. destruct (truthy (forget_id req)) as [i|].
  - cbn [update_where snd memories profile_facts]. split; [reflexivity|].
    apply Forall2_map_marked.
  - destruct (truthy (forget_content req)) as [c|].
    + cbn [update_where snd memories profile_facts]. split; [reflexivity|].
      apply Forall2_map_marked.
    + cbn [snd]. split; [reflexivity|]. apply Forall2_refl. apply marked_refl.
Qed.

(** ** Bulk deletion *)

Lemma deleteBulk_eq l db :
  deleteBulk (IdsArray l) db =
  (Ok {| deleted := List.length (filter (listed l) (memories db)) |},
   {| memories := filter (fun m => negb (listed l m)) (memories db);
      profile_facts := profile_facts db |}).
Proof. reflexivity. Qed.

Lemma listed_In l m : listed l m = true <-> In (id m) l.
Proof.
  unfold listed. rewrite existsb_exists. split.
  - intros (i & Hi & E). apply String.eqb_eq in E. congruence.
  - intros H. exists (id m). split; [exact H|apply String.eqb_refl].
Qed.

Lemma filter_partition_length {A} (p : A -> bool) l :
  List.length (filter p l) + List.length (filter (fun x => negb (p x)) l) = List.length l.
Proof. induction l as [|x l IH]; cbn; [reflexivity|]. destruct (p x); cbn; lia. Qed.

Lemma filter_nothing {A} (p : A -> bool) l :
  (forall x, In x l -> p x = false) -> filter p l = [].
Proof.
  intros H. induction l as [|x l IH]; cbn; [reflexivity|].
  rewrite (H x (or_introl eq_refl)). apply IH. intros y Hy. apply H. right. exact Hy.
Qed.

Lemma filter_everything {A} (p : A -> bool) l :
  (forall x, In x l -> p x = true) -> filter p l = l.
Proof.
  intros H. induction l as [|x l IH]; cbn; [reflexivity|].
  rewrite (H x (or_introl eq_refl)). f_equal. apply IH. intros y Hy. apply H. right. exact Hy.
Qed.

(** X14. A bulk deletion of at most 32766 ids, the most that SQLite
    takes in one statement, removes the rows whose id is listed, whatever
    their container and whether forgotten or not, and no other: the count it
    reports is the number of rows gone, the rows left keep their order, the
    profile facts stay, and the same deletion repeated removes nothing. *)
Theorem deleteBulk_removes l db :
  (Z.of_nat (List.length l) <= SQLITE_MAX_VARIABLE_NUMBER)%Z ->
  let db' := snd (deleteBulk (IdsArray l) db) in
  fst (deleteBulk (IdsArray l) db)
  = Ok {| deleted := List.length (memories db) - List.length (memories db') |} /\
  memories db' = filter (fun m => negb (listed l m)) (memories db) /\
  (forall m, In m (memories db') <-> In m (memories db) /\ ~ In (id m) l) /\
  profile_facts db' = profile_facts db /\
  deleteBulk (IdsArray l) db' = (Ok {| deleted := 0 |}, db').
Proof.
  intros _ db'. subst db'. rewrite deleteBulk_eq. cbn [fst snd memories profile_facts].
  split.
  { pose proof (filter_partition_length (listed l) (memories db)) as H.
    f_equal. f_equal. lia. }
  split; [reflexivity|]. split.
  { intros m. rewrite filter_In, negb_true_iff, <- listed_In.
    destruct (listed l m); intuition congruence. }
  split; [reflexivity|].
  rewrite deleteBulk_eq. cbn [memories profile_facts].
  rewrite filter_nothing.
  2:{ intros m Hm. apply filter_In in Hm. apply negb_true_iff. apply Hm. }
  rewrite filter_everything; [reflexivity|].
  intros m Hm. apply filter_In in Hm. apply Hm.
Qed.

Lemma deleteBulk_removes_witness :
  (Z.of_nat (List.length ["m1"; "m9"]) <= SQLITE_MAX_VARIABLE_NUMBER)%Z /\
  let db' := snd (deleteBulk (IdsArray ["m1"; "m9"]) two_dark_modes) in
  fst (deleteBulk (IdsArray ["m1"; "m9"]) two_dark_modes)
  = Ok {| deleted := List.length (memories two_dark_modes) - List.length (memories db') |} /\
  memories db' = filter (fun m => negb (listed ["m1"; "m9"] m)) (memories two_dark_modes) /\
  (forall m, In m (memories db')
             <-> In m (memories two_dark_modes) /\ ~ In (id m) ["m1"; "m9"]) /\
  profile_facts db' = profile_facts two_dark_modes /\
  deleteBulk (IdsArray ["m1"; "m9"]) db' = (Ok {| deleted := 0 |}, db').
Proof.
  split; [vm_compute; discriminate|].
  apply (deleteBulk_removes ["m1"; "m9"] two_dark_modes). vm_compute. discriminate.
Defined.

Lemma NoDup_same_length {A} (l l' : list A) :
  NoDup l -> NoDup l' -> (forall x, In x l <-> In x l') -> List.length l = List.length l'.
Proof. intros H H' E. apply Permutation_length, NoDup_Permutation; assumption. Qed.

(** X15. With [id] a primary key, a bulk deletion of at most 32766 ids
    reports as many deletions as there are distinct listed ids that are ids
    of memories: an id listed twice, or unknown, adds nothing. *)
Theorem deleteBulk_count l db :
  (Z.of_nat (List.length l) <= SQLITE_MAX_VARIABLE_NUMBER)%Z ->
  unique_ids db ->
  fst (deleteBulk (IdsArray l) db)
  = Ok {| deleted :=
            List.length (filter (fun i => existsb (String.eqb i) (map id (memories db)))
                                (nodup string_dec l)) |}.
Proof.
  intros _ Hu. rewrite deleteBulk_eq. cbn [fst]. f_equal. f_equal.
  rewrite <- (length_map id (filter (listed l) (memories db))).
  apply NoDup_same_length.
  - apply NoDup_map_filter. exact Hu.
  - apply NoDup_filter. apply NoDup_nodup.
  - intros i. rewrite in_map_iff, filter_In, nodup_In. split.
    + intros (m & <- & Hm). apply filter_In in Hm. destruct Hm as [Hm Hl].
      apply listed_In in Hl. split; [exact Hl|].
      apply existsb_exists. exists (id m). split; [apply in_map, Hm|apply String.eqb_refl].
    + intros [Hl He]. apply existsb_exists in He. destruct He as (j & Hj & E).
      apply String.eqb_eq in E. subst j. apply in_map_iff in Hj. destruct Hj as (m & <- & Hm).
      exists m. split; [reflexivity|]. apply filter_In. split; [exact Hm|].
      apply listed_In, Hl.
Qed.

Lemma deleteBulk_count_witness :
  (Z.of_nat (List.length ["m1"; "m1"; "m9"]) <= SQLITE_MAX_VARIABLE_NUMBER)%Z /\
  unique_ids two_dark_modes /\
  fst (deleteBulk (IdsArray ["m1"; "m1"; "m9"]) two_dark_modes)
  = Ok {| deleted :=
            List.length (filter (fun i => existsb (String.eqb i)
                                            (map id (memories two_dark_modes)))
                                (nodup string_dec ["m1"; "m1"; "m9"])) |}.
Proof.
  split; [vm_compute; discriminate|]. split; [exact two_dark_modes_unique_ids|].
  apply deleteBulk_count; [vm_compute; discriminate|exact two_dark_modes_unique_ids].
Defined.

(** ** Wiping a container *)

(** X16. Wiping a container removes its memories and its profile facts,
    forgotten or not, and nothing else: the rows of every other container
    stay, in order.  Wiping twice is wiping once, two wipes commute, and a
    search of the wiped container finds nothing. *)
Theorem wipe_container tag db :
  (forall m, In m (memories (wipe tag db)) <-> In m (memories db) /\ container_tag m <> tag) /\
  (forall f, In f (profile_facts (wipe tag db))
             <-> In f (profile_facts db) /\ fact_container_tag f <> tag) /\
  (forall other, other <> tag ->
     filter (fun m => String.eqb (container_tag m) other) (memories (wipe tag db))
     = filter (fun m => String.eqb (container_tag m) other) (memories db) /\
     filter (fun f => String.eqb (fact_container_tag f) other) (profile_facts (wipe tag db))
     = filter (fun f => String.eqb (fact_container_tag f) other) (profile_facts db)) /\
  wipe tag (wipe tag db) = wipe tag db /\
  (forall tag', wipe tag (wipe tag' db) = wipe tag' (wipe tag db)) /\
  (forall req, resolve_tag (containerTag req) (containerTags req) = tag ->
               results (search_memories req (wipe tag db)) = []).
Proof.
  assert (Hin : forall A (f : A -> string) (l : list A) (x : A),
             In x (filter (fun y => negb (String.eqb (f y) tag)) l) <-> In x l /\ f x <> tag).
  { intros A f l x. rewrite filter_In, negb_true_iff.
    destruct (String.eqb_spec (f x) tag); intuition congruence. }
  assert (Hother : forall A (f : A -> string) (l : list A) other, other <> tag ->
             filter (fun y => String.eqb (f y) other)
                    (filter (fun y => negb (String.eqb (f y) tag)) l)
             = filter (fun y => String.eqb (f y) other) l).
  { intros A f l other Ho. induction l as [|x l IH]; cbn [filter]; [reflexivity|].
    destruct (String.eqb_spec (f x) tag) as [E|E]; cbn [negb filter].
    - destruct (String.eqb_spec (f x) other) as [E'|E']; [congruence|exact IH].
    - destruct (String.eqb (f x) other); [f_equal|]; exact IH. }
  assert (Hcomm : forall A (p p' : A -> bool) (l : list A),
             filter p (filter p' l) = filter p' (filter p l)).
  { intros A p p' l. induction l as [|x l IH]; cbn [filter]; [reflexivity|].
    destruct (p x) eqn:P, (p' x) eqn:P'; cbn [filter]; rewrite ?P, ?P', IH; reflexivity. }
  split; [intros m; apply (Hin memory container_tag)|].
  split; [intros f; apply (Hin profile_fact fact_container_tag)|].
  split; [intros other Ho; split; [apply (Hother memory container_tag)
                                  |apply (Hother profile_fact fact_container_tag)]; exact Ho|].
  split.
  { unfold wipe. cbn [memories profile_facts]. f_equal; apply filter_everything;
      intros x Hx; apply filter_In in Hx; apply Hx. }
  split.
  { intros tag'. unfold wipe. cbn [memories profile_facts]. f_equal; apply Hcomm. }
  intros req Hreq.
  destruct (results (search_memories req (wipe tag db))) as [|r rs] eqn:E; [reflexivity|exfalso].
  destruct (search_result_source req (wipe tag db) r) as (m & Hm & _ & _ & Ht).
  { rewrite E. left. reflexivity. }
  apply (Hin memory container_tag) in Hm. destruct Hm as [_ Hm]. congruence.
Qed.

(** ** Pages of a listing *)

Lemma firstn_add {A} a b (l : list A) :
  firstn (a + b) l = (firstn a l ++ firstn b (skipn a l))%list.
Proof.
  rewrite firstn_skipn_comm.
  rewrite <- (firstn_skipn a (firstn (a + b) l)) at 1.
  rewrite firstn_firstn. replace (Nat.min a (a + b)) with a by lia. reflexivity.
Qed.

Lemma documents_page tags L p db :
  (0 < L)%Z -> 0 < p ->
  list_memories (documents_list (page_request tags L p) db)
  = firstn (Z.to_nat L)
      (skipn ((p - 1) * Z.to_nat L) (all_documents (default ["default"] tags) db)).
Proof.
  intros HL Hp. unfold documents_list, page_request, all_documents.
  cbn [list_memories list_containerTags list_limit list_page default].
  unfold sql_limit_offset. destruct (Z.ltb_spec L 0) as [H|_]; [lia|].
  rewrite skipn_map, firstn_map. do 3 f_equal. nia.
Qed.

(** X17. Pages of a listing tile it.  For a listing that SQLite runs,
    of at most 32764 containers (they and the two numbers are the parameters
    of the statement), with a positive page size [L] and [k] pages that
    together count no more documents than [Number.MAX_SAFE_INTEGER]: the
    pages 1 to [k], one after the other, are the first [k] times [L]
    documents of the whole listing, most recent first; none of these pages
    is longer than the page size, and the total reported on each of them is
    the length of the whole listing. *)
Theorem documents_list_pages tags L k db :
  (Z.of_nat (List.length (default ["default"] tags)) + 2 <= SQLITE_MAX_VARIABLE_NUMBER)%Z ->
  (0 < L)%Z -> (Z.of_nat k * L <= MAX_SAFE_INTEGER)%Z ->
  flat_map (fun p => list_memories (documents_list (page_request tags L p) db)) (seq 1 k)
  = firstn (k * Z.to_nat L) (all_documents (default ["default"] tags) db) /\
  (forall p, 0 < p <= k ->
     List.length (list_memories (documents_list (page_request tags L p) db)) <= Z.to_nat L) /\
  (forall p, 0 < p <= k ->
     pagination_total (documents_list (page_request tags L p) db)
     = List.length (all_documents (default ["default"] tags) db)).
Proof.
  intros _ HL _. split; [|split].
  - induction k as [|k IH]; [reflexivity|].
    rewrite seq_S, flat_map_app, IH. cbn [flat_map]. rewrite app_nil_r.
    rewrite documents_page by lia.
    replace (1 + k - 1) with k by lia.
    replace (S k * Z.to_nat L) with (k * Z.to_nat L + Z.to_nat L) by lia.
    symmetry. apply firstn_add.
  - intros p Hp. rewrite documents_page by (assumption || lia). apply firstn_le_length.
  - intros p _. unfold documents_list, all_documents, order_by_created_at_desc.
    cbn [pagination_total list_containerTags page_request].
    rewrite length_map, stable_sort_length. reflexivity.
Qed.

Lemma documents_list_pages_witness :
  (Z.of_nat (List.length (default ["default"] (Some ["work"]))) + 2
   <= SQLITE_MAX_VARIABLE_NUMBER)%Z /\
  (0 < 1)%Z /\ (Z.of_nat 2 * 1 <= MAX_SAFE_INTEGER)%Z /\
  flat_map (fun p => list_memories
                       (documents_list (page_request (Some ["work"]) 1 p) two_dark_modes))
           (seq 1 2)
  = firstn (2 * Z.to_nat 1) (all_documents (default ["default"] (Some ["work"])) two_dark_modes) /\
  (forall p, 0 < p <= 2 ->
     List.length (list_memories
                    (documents_list (page_request (Some ["work"]) 1 p) two_dark_modes))
     <= Z.to_nat 1) /\
  (forall p, 0 < p <= 2 ->
     pagination_total (documents_list (page_request (Some ["work"]) 1 p) two_dark_modes)
     = List.length (all_documents (default ["default"] (Some ["work"])) two_dark_modes)).
Proof.
  split; [vm_compute; discriminate|]. split; [lia|]. split; [vm_compute; discriminate|].
  apply documents_list_pages; [vm_compute; discriminate|lia|vm_compute; discriminate].
Defined.

(** ** What a promotion leaves alone *)

(** X18. A promotion touches no memory and removes, adds or reorders no
    fact: row by row, a fact keeps its id, container, text and creation time;
    it is left as it is unless it is the fact named, which becomes static
    with [updated_at] stamped; a static fact is never made dynamic. *)
Theorem promote_only_promotes now containerTag fact_text db :
  memories (snd (promote now containerTag fact_text db)) = memories db /\
  Forall2 (promoted_from now containerTag fact_text)
          (profile_facts db)
          (profile_facts (snd (promote now containerTag fact_text db))).
Proof.
  rewrite promote_eq. cbn [snd memories profile_facts]. split; [reflexivity|].
  induction (profile_facts db) as [|f l IH]; cbn [map]; constructor; [|exact IH].
  unfold promoted_from. destruct (fact_matches containerTag fact_text f) eqn:E.
  - cbn [set_static fact_id fact_container_tag fact fact_created_at fact_type fact_updated_at].
    repeat split; auto.
  - repeat split; auto.
Qed.

(** ** The search results of a profile *)

Lemma profile_results_eq parseFloat req db r :
  profile_searchResults parseFloat req db = Some r ->
  exists q,
    truthy (profile_q req) = Some q /\
    profile_results r =
    Array_slice0 10
      (Array_sort by_profile_similarity_desc
         (filter (fun x => (threshold_value parseFloat req <? profile_similarity x)%float)
            (map (to_profile_result q)
               (select_active 500 (default "default" (truthy (profile_containerTag req))) db))))
    /\ profile_total r = List.length (profile_results r) /\ 0 < profile_total r.
Proof.
  unfold profile_searchResults. destruct (truthy (profile_q req)) as [q|].
  - cbn [profile_total profile_results].
    match goal with |- context [(0 <? ?n)%nat] => destruct (Nat.ltb_spec 0 n) as [H|H] end;
      [|discriminate].
    intros E. injection E as <-. exists q. cbn [profile_results profile_total]. auto.
  - cbn. discriminate.
Qed.

(** X19. The search results of a profile, when there are any, come from a
    query: they are between 1 and 10, [total] is their number, and each is
    the image of an active memory of the container whose score is above the
    threshold. *)
Theorem profile_search_results_sound parseFloat req db r :
  profile_searchResults parseFloat req db = Some r ->
  exists q,
    truthy (profile_q req) = Some q /\
    profile_total r = List.length (profile_results r) /\
    1 <= profile_total r <= 10 /\
    Forall (fun x =>
              exists m,
                In m (memories db) /\
                active_of (default "default" (truthy (profile_containerTag req))) m = true /\
                x = to_profile_result q m /\
                (threshold_value parseFloat req <? profile_similarity x)%float = true)
           (profile_results r).
Proof.
  intros H. destruct (profile_results_eq parseFloat req db r H) as (q & Hq & Hr & Ht & Hpos).
  exists q. split; [exact Hq|]. split; [exact Ht|]. split.
  - split; [lia|]. rewrite Ht, Hr. rewrite Array_slice0_nonneg by lia.
    rewrite length_firstn. change (Z.to_nat 10) with 10. lia.
  - apply Forall_forall. intros x Hx. rewrite Hr in Hx. apply Array_slice0_In in Hx.
    apply (Permutation_in _ (stable_sort_perm _ _)) in Hx.
    apply filter_In in Hx. destruct Hx as [Hx Hs].
    apply in_map_iff in Hx. destruct Hx as (m & <- & Hm).
    apply select_active_In in Hm. destruct Hm as (Hin & Htag & Hf).
    exists m. repeat split; try assumption.
    unfold active_of. rewrite Htag, Hf, String.eqb_refl. reflexivity.
Qed.

Lemma profile_search_results_sound_witness :
  profile_searchResults parseFloat_0_95 dark_mode_profile_request two_dark_modes
  = Some dark_mode_profile /\
  exists q,
    truthy (profile_q dark_mode_profile_request) = Some q /\
    profile_total dark_mode_profile = List.length (profile_results dark_mode_profile) /\
    1 <= profile_total dark_mode_profile <= 10 /\
    Forall (fun x =>
              exists m,
                In m (memories two_dark_modes) /\
                active_of (default "default"
                             (truthy (profile_containerTag dark_mode_profile_request))) m = true /\
                x = to_profile_result q m /\
                (threshold_value parseFloat_0_95 dark_mode_profile_request
                 <? profile_similarity x)%float = true)
           (profile_results dark_mode_profile).
Proof.
  split; [vm_compute; reflexivity|].
  apply (profile_search_results_sound parseFloat_0_95 dark_mode_profile_request two_dark_modes).
  vm_compute. reflexivity.
Defined.

Lemma is_nan_Prim2SF x : is_nan x = true -> Prim2SF x = S754_nan.
Proof.
  unfold is_nan. rewrite eqb_spec. unfold SFeqb. intros H.
  destruct (Prim2SF x) as [[]|[]| |[] m e] eqn:E; try reflexivity;
    rewrite SFcompare_refl in H by reflexivity; discriminate.
Qed.

(** X20. A threshold that reads as NaN, or as 1 or more, hides every
    search result of a profile: no score is above it. *)
Theorem profile_threshold_too_high parseFloat req db :
  is_nan (threshold_value parseFloat req) = true \/
  (1 <=? threshold_value parseFloat req)%float = true ->
  profile_searchResults parseFloat req db = None.
Proof.
  intros H. unfold profile_searchResults.
  destruct (truthy (profile_q req)) as [q|]; [|reflexivity].
  rewrite filter_nothing; [reflexivity|].
  intros x Hx. apply in_map_iff in Hx. destruct Hx as (m & <- & _).
  cbn [profile_similarity to_profile_result].
  destruct H as [H|H].
  - rewrite ltb_spec, (is_nan_Prim2SF _ H). reflexivity.
  - destruct (threshold_value parseFloat req <? computeSimilarity q (content m))%float eqn:L;
      [exfalso|reflexivity].
    pose proof (leb_ltb_trans _ _ _ H L) as L1.
    pose proof (score_range q (content m)) as (_ & _ & Hle).
    rewrite <- computeSimilarity_score in Hle.
    pose proof (leb_ltb_trans _ _ _ Hle L1) as L2.
    pose proof (ltb_asym _ _ L2). congruence.
Qed.

Lemma profile_threshold_too_high_witness :
  (is_nan (threshold_value parseFloat_0_95 unreadable_threshold) = true \/
   (1 <=? threshold_value parseFloat_0_95 unreadable_threshold)%float = true) /\
  profile_searchResults parseFloat_0_95 unreadable_threshold two_dark_modes = None.
Proof.
  split; [left; reflexivity|].
  apply profile_threshold_too_high. left. reflexivity.
Defined.

(** ** What holds of every stored row *)

Lemma resolve_tag_nonempty containerTag containerTags :
  resolve_tag containerTag containerTags <> EmptyString.
Proof.
  unfold resolve_tag.
  assert (T : forall o t, truthy o = Some t -> t <> EmptyString).
  { intros [s|] t; cbn; [|discriminate].
    destruct (String.eqb_spec s EmptyString); [discriminate|]. congruence. }
  destruct (truthy containerTag) as [t|] eqn:E; [exact (T _ _ E)|].
  destruct (truthy (first_tag containerTags)) as [t|] eqn:E'; [exact (T _ _ E')|].
  discriminate.
Qed.

Lemma truthy_nonempty o t : truthy o = Some t -> t <> EmptyString.
Proof.
  destruct o as [s|]; cbn; [|discriminate].
  destruct (String.eqb_spec s EmptyString); [discriminate|]. congruence.
Qed.

Lemma insert_facts_stored ids tag now facts : forall k db,
  tag <> EmptyString -> Forall is_fact_text facts ->
  NoDup (map fact_id (profile_facts db)) -> Forall stored_fact (profile_facts db) ->
  NoDup (map fact_id (profile_facts (fst (insert_facts ids k tag now facts db)))) /\
  Forall stored_fact (profile_facts (fst (insert_facts ids k tag now facts db))).
Proof.
  induction facts as [|f facts IH]; intros k db Ht Hf Hnd Hst; cbn [insert_facts].
  - auto.
  - unfold insert_fact. cbn [fact_id].
    destruct (existsb (fun f0 => String.eqb (fact_id f0) (ids k)) (profile_facts db)) eqn:E.
    + auto.
    + apply IH; [exact Ht|exact (Forall_inv_tail Hf)| |]; cbn [profile_facts].
      * rewrite map_app. cbn [map fact_id].
        apply (Permutation_NoDup (Permutation_app_comm [ids k] (map fact_id (profile_facts db)))).
        cbn [app]. constructor; [|exact Hnd].
        intros Hin. apply (existsb_eqb_In fact_id) in Hin. congruence.
      * apply Forall_app. split; [exact Hst|]. constructor; [|constructor].
        unfold stored_fact. cbn. repeat split; try apply (Forall_inv Hf); auto.
Qed.

Lemma Forall_filter {A} (P : A -> Prop) (p : A -> bool) l : Forall P l -> Forall P (filter p l).
Proof.
  intros H. apply Forall_forall. intros x Hx. apply filter_In in Hx.
  exact (proj1 (Forall_forall _ _) H x (proj1 Hx)).
Qed.

Lemma handle_stored r db :
  NoDup (map fact_id (profile_facts db)) /\
  Forall stored_memory (memories db) /\ Forall stored_fact (profile_facts db) ->
  NoDup (map fact_id (profile_facts (handle r db))) /\
  Forall stored_memory (memories (handle r db)) /\
  Forall stored_fact (profile_facts (handle r db)).
Proof.
  intros (Hnd & Hm & Hf). destruct r as [ids now req|now req|ids|now tag text|tag]; cbn [handle].
  - (* add *)
    unfold add. destruct (truthy (add_content req)) as [c|] eqn:Ec; [|cbn [snd]; auto].
    unfold insert_memory. cbn [id].
    destruct (existsb _ (memories db)); [cbn [snd]; auto|].
    set (db1 := {| memories := _; profile_facts := profile_facts db |}).
    pose proof (insert_facts_stored ids
                  (resolve_tag (add_containerTag req) (add_containerTags req)) now
                  (extractFacts c (resolve_tag (add_containerTag req) (add_containerTags req)))
                  1 db1 (resolve_tag_nonempty _ _)
                  (proj2 (Forall_forall _ _) (extractFacts_In c _)) Hnd Hf) as [H1 H2].
    pose proof (insert_facts_memories ids 1
                  (resolve_tag (add_containerTag req) (add_containerTags req)) now
                  (extractFacts c (resolve_tag (add_containerTag req) (add_containerTags req)))
                  db1) as H3.
    destruct (insert_facts ids 1 _ now _ db1) as [db2 ok]. cbn [fst] in H1, H2, H3.
    assert (Hm2 : Forall stored_memory (memories db2)).
    { rewrite H3. subst db1. cbn [memories]. apply Forall_app. split; [exact Hm|].
      constructor; [|constructor]. unfold stored_memory. cbn.
      repeat split; [exact (truthy_nonempty _ _ Ec)|apply resolve_tag_nonempty]. }
    destruct ok; cbn [snd]; auto.
  - (* forget *)
    pose proof (forget_keeps_containers now req db) as Hk.
    assert (Hrow : forall (cond : memory -> bool) l,
               Forall stored_memory l ->
               Forall stored_memory
                 (map (fun m => if cond m then set_forgotten_at now m else m) l)).
    { intros cond l Hl. apply Forall_forall. intros m' Hm'. apply in_map_iff in Hm'.
      destruct Hm' as (m & <- & Hin). pose proof (proj1 (Forall_forall _ _) Hl m Hin) as Hs.
      destruct (cond m); [|exact Hs]. exact Hs. }
    unfold forget. destruct (truthy (forget_id req)) as [i|].
    + cbn [update_where snd memories profile_facts]. auto.
    + destruct (truthy (forget_content req)) as [c|]; cbn [update_where snd memories profile_facts];
        auto.
  - (* deleteBulk *)
    unfold deleteBulk. destruct (ids_falsy ids || negb (ids_isArray ids)); [cbn [snd]; auto|].
    destruct ids; cbn [snd delete_where memories profile_facts]; auto.
    split; [exact Hnd|]. split; [apply Forall_filter, Hm|exact Hf].
  - (* promote *)
    rewrite promote_eq. cbn [snd memories profile_facts]. split; [|split; [exact Hm|]].
    + rewrite map_map.
      rewrite (map_ext _ fact_id); [exact Hnd|].
      intros f. destruct (fact_matches tag text f); reflexivity.
    + apply Forall_forall. intros f' Hf'. apply in_map_iff in Hf'.
      destruct Hf' as (f & <- & Hin). pose proof (proj1 (Forall_forall _ _) Hf f Hin) as Hs.
      destruct (fact_matches tag text f); [|exact Hs].
      destruct Hs as (H1 & H2 & H3). unfold stored_fact. cbn.
      repeat split; try assumption; try apply H2. discriminate.
  - (* wipe *)
    unfold wipe. cbn [memories profile_facts].
    split; [apply NoDup_map_filter, Hnd|]. split; apply Forall_filter; assumption.
Qed.

(** X21. In every database the server can reach, the ids of the profile
    facts are distinct, every memory has a content, a container and an
    [updated_at] equal to its [created_at], and every profile fact has a
    container and the shape of an extracted fact, and, while it is dynamic,
    an [updated_at] equal to its [created_at]: nothing else is ever stored,
    and no request updates a memory's [updated_at]. *)
Theorem reachable_rows db :
  reachable db ->
  NoDup (map fact_id (profile_facts db)) /\
  Forall stored_memory (memories db) /\ Forall stored_fact (profile_facts db).
Proof.
  induction 1 as [|r db Hr IH].
  - cbn. repeat split; constructor.
  - apply handle_stored, IH.
Qed.

Lemma reachable_rows_witness :
  reachable after_add_dark_mode /\
  NoDup (map fact_id (profile_facts after_add_dark_mode)) /\
  Forall stored_memory (memories after_add_dark_mode) /\
  Forall stored_fact (profile_facts after_add_dark_mode).
Proof.
  assert (R : reachable after_add_dark_mode) by (apply reachable_handle, reachable_empty).
  split; [exact R|]. apply reachable_rows. exact R.
Defined.

(** ** An [add], then a search or the statistics *)

Lemma includes_refl s : includes s s = true.
Proof.
  apply includes_spec. exists EmptyString, EmptyString. cbn [append].
  symmetry. apply append_nil_r.
Qed.

Lemma add_fresh_eq ids now req db content :
  truthy (add_content req) = Some content ->
  ~ In (ids 0) (map id (memories db)) ->
  fresh_fact_ids ids 1
    (List.length (extractFacts content
                    (resolve_tag (add_containerTag req) (add_containerTags req)))) db ->
  snd (add ids now req db) =
  {| memories := memories db ++ [memory_row ids now req content];
     profile_facts :=
       profile_facts db ++
       fact_rows ids 1 (resolve_tag (add_containerTag req) (add_containerTags req)) now
         (extractFacts content
            (resolve_tag (add_containerTag req) (add_containerTags req))) |}.
Proof.
  intros Hc Hid Hfresh. unfold add. rewrite Hc.
  fold (memory_row ids now req content).
  rewrite insert_memory_fresh by exact Hid.
  rewrite insert_facts_fresh by exact Hfresh. reflexivity.
Qed.

(** X22. A memory that has just been added is found by a search for its
    own content in the container it went to, provided the content has a
    token and the container held fewer active memories than the limit of the
    search, and fewer than 1000. *)
Theorem add_then_search ids now req db text sreq :
  let tag := resolve_tag (add_containerTag req) (add_containerTags req) in
  truthy (add_content req) = Some text ->
  ~ In (ids 0) (map id (memories db)) ->
  fresh_fact_ids ids 1 (List.length (extractFacts text tag)) db ->
  tokenize text <> [] ->
  truthy (or_else (q sreq) (query sreq)) = Some text ->
  resolve_tag (containerTag sreq) (containerTags sreq) = tag ->
  (Z.of_nat (List.length (filter (active_of tag) (memories db))) < default 10%Z (limit sreq))%Z ->
  List.length (filter (active_of tag) (memories db)) < 1000 ->
  In (ids 0) (map result_id (results (search_memories sreq (snd (add ids now req db))))).
Proof.
  intros tag Hc Hid Hfresh Htok Hq Htag Hlim Hcap.
  rewrite (add_fresh_eq ids now req db text Hc Hid Hfresh).
  change (ids 0) with (result_id (to_result text (memory_row ids now req text))).
  apply in_map.
  assert (Hrow : active_of tag (memory_row ids now req text) = true).
  { unfold active_of, memory_row. cbn [container_tag forgotten_at is_null]. fold tag.
    rewrite String.eqb_refl. reflexivity. }
  apply search_small_container; rewrite ?Htag; cbn [memories]; try assumption.
  - rewrite filter_app, length_app. cbn [filter]. rewrite Hrow. cbn [List.length]. lia.
  - rewrite filter_app, length_app. cbn [filter]. rewrite Hrow. cbn [List.length]. lia.
  - apply in_or_app. right. left. reflexivity.
  - apply quarter_above_floor, substring_score_mag; try assumption.
    cbn [content memory_row]. apply includes_refl.
Qed.

Lemma add_then_search_witness :
  let tag := resolve_tag (add_containerTag add_dark_mode) (add_containerTags add_dark_mode) in
  truthy (add_content add_dark_mode) = Some "I prefer dark mode" /\
  ~ In (example_ids 0) (map id (memories empty_database)) /\
  fresh_fact_ids example_ids 1
    (List.length (extractFacts "I prefer dark mode" tag)) empty_database /\
  tokenize "I prefer dark mode" <> [] /\
  truthy (or_else (q search_added) (query search_added)) = Some "I prefer dark mode" /\
  resolve_tag (containerTag search_added) (containerTags search_added) = tag /\
  (Z.of_nat (List.length (filter (active_of tag) (memories empty_database)))
   < default 10%Z (limit search_added))%Z /\
  List.length (filter (active_of tag) (memories empty_database)) < 1000 /\
  In (example_ids 0)
     (map result_id
        (results (search_memories search_added
                    (snd (add example_ids "2024-01-01T00:00:00.000Z" add_dark_mode
                              empty_database))))).
Proof.
  assert (F : fresh_fact_ids example_ids 1
                (List.length (extractFacts "I prefer dark mode"
                                (resolve_tag (add_containerTag add_dark_mode)
                                             (add_containerTags add_dark_mode))))
                empty_database).
  { split; vm_compute; [repeat constructor; intuition discriminate|intuition]. }
  cbv zeta.
  split; [reflexivity|]. split; [intros []|]. split; [exact F|].
  split; [vm_compute; discriminate|]. split; [reflexivity|]. split; [reflexivity|].
  split; [reflexivity|]. split; [vm_compute; lia|].
  apply (add_then_search example_ids "2024-01-01T00:00:00.000Z" add_dark_mode empty_database
           "I prefer dark mode" search_added);
    [reflexivity|intros []|exact F|vm_compute; discriminate|reflexivity|reflexivity
    |reflexivity|vm_compute; lia].
Defined.

(** X23. A successful [add] raises the number of active memories that the
    statistics report by one and the number of facts by the number of facts
    extracted from the content, and the container it went to is among the
    containers reported. *)
Theorem add_then_stats ids now req db content :
  let tag := resolve_tag (add_containerTag req) (add_containerTags req) in
  truthy (add_content req) = Some content ->
  ~ In (ids 0) (map id (memories db)) ->
  fresh_fact_ids ids 1 (List.length (extractFacts content tag)) db ->
  let after := stats (snd (add ids now req db)) in
  stats_memories after = S (stats_memories (stats db)) /\
  stats_facts after = stats_facts (stats db) + List.length (extractFacts content tag) /\
  (forall t, In t (stats_containers after) <-> In t (stats_containers (stats db)) \/ t = tag).
Proof.
  intros tag Hc Hid Hfresh after. subst after.
  rewrite (add_fresh_eq ids now req db content Hc Hid Hfresh).
  unfold stats. cbn [stats_memories stats_facts stats_containers memories profile_facts].
  split; [|split].
  - rewrite filter_app, length_app. cbn. lia.
  - rewrite length_app, fact_rows_length. reflexivity.
  - intros t. rewrite !nodup_In, map_app, in_app_iff. cbn. fold tag. intuition.
Qed.

Lemma add_then_stats_witness :
  let tag := resolve_tag (add_containerTag add_dark_mode) (add_containerTags add_dark_mode) in
  truthy (add_content add_dark_mode) = Some "I prefer dark mode" /\
  ~ In (example_ids 0) (map id (memories empty_database)) /\
  fresh_fact_ids example_ids 1
    (List.length (extractFacts "I prefer dark mode" tag)) empty_database /\
  let after :=
    stats (snd (add example_ids "2024-01-01T00:00:00.000Z" add_dark_mode empty_database)) in
  stats_memories after = S (stats_memories (stats empty_database)) /\
  stats_facts after
  = stats_facts (stats empty_database) + List.length (extractFacts "I prefer dark mode" tag) /\
  (forall t, In t (stats_containers after)
             <-> In t (stats_containers (stats empty_database)) \/ t = tag).
Proof.
  assert (F : fresh_fact_ids example_ids 1
                (List.length (extractFacts "I prefer dark mode"
                                (resolve_tag (add_containerTag add_dark_mode)
                                             (add_containerTags add_dark_mode))))
                empty_database).
  { split; vm_compute; [repeat constructor; intuition discriminate|intuition]. }
  cbv zeta.
  split; [reflexivity|]. split; [intros []|]. split; [exact F|].
  apply (add_then_stats example_ids "2024-01-01T00:00:00.000Z" add_dark_mode empty_database
           "I prefer dark mode"); [reflexivity|intros []|exact F].
Defined.

(** ** The client: forgetting by a query *)

Lemma or_string_self s : or_string s (or_string s EmptyString) = s.
Proof. unfold or_string. destruct (String.eqb_spec s EmptyString); congruence. Qed.

Lemma deleteMemory_eq this now i tag_given db :
  i <> EmptyString ->
  deleteMemory this now i tag_given db
  = (Resolved {| forgotten_id := i; forgotten := true |},
     {| memories :=
          map (fun m => if forgets i (default (this_containerTag this) tag_given) m
                        then set_forgotten_at now m else m) (memories db);
        profile_facts := profile_facts db |}).
Proof.
  intros Hi. unfold deleteMemory, forget. cbn [forget_id forget_containerTag truthy].
  destruct (String.eqb_spec i EmptyString); [contradiction|]. reflexivity.
Qed.

Lemma client_search_head this query_text lim tag_given db target rest :
  client_search this query_text lim tag_given db = target :: rest ->
  exists m,
    In m (memories db) /\ id m = sr_id target /\ content m = sr_content target /\
    sr_memory target = sr_content target /\ forgotten_at m = None /\
    container_tag m = resolve_tag (Some (default (this_containerTag this) tag_given)) None.
Proof.
  unfold client_search. intros E.
  destruct (results (search_memories _ db)) as [|r rs] eqn:Er; [discriminate|].
  cbn [map] in E. injection E as <- _.
  pose proof (search_results_eq
                {| q := Some query_text; query := None;
                   containerTag := Some (default (this_containerTag this) tag_given);
                   containerTags := None; limit := Some lim |} db) as Hres.
  cbn [q query containerTag containerTags limit] in Hres.
  destruct (truthy (or_else (Some query_text) None)) as [sq|] eqn:Hq.
  2:{ unfold search_memories in Er. cbn [q query] in Er. rewrite Hq in Er. discriminate. }
  specialize (Hres sq eq_refl).
  assert (Hr : In r (results (search_memories
                                {| q := Some query_text; query := None;
                                   containerTag := Some (default (this_containerTag this) tag_given);
                                   containerTags := None; limit := Some lim |} db)))
    by (rewrite Er; left; reflexivity).
  rewrite Hres in Hr. apply Array_slice0_In in Hr.
  apply (Permutation_in _ (stable_sort_perm _ _)) in Hr.
  apply filter_In in Hr. destruct Hr as [Hr _].
  apply in_map_iff in Hr. destruct Hr as (m & <- & Hm).
  apply select_active_In in Hm. destruct Hm as (Hin & Ht & Hf).
  exists m. cbn [sr_id sr_content sr_memory result_id result_memory to_result].
  repeat split; assumption.
Qed.

Lemma resolve_tag_given t : t <> EmptyString -> resolve_tag (Some t) None = t.
Proof.
  intros H. unfold resolve_tag, truthy.
  destruct (String.eqb_spec t EmptyString); [contradiction|reflexivity].
Qed.

(** X24. [forgetByQuery] with a container that is not the empty string:
    if the search finds nothing it reports failure and changes nothing;
    otherwise it forgets exactly the top result, an active memory of the
    container, reports success with the first 100 characters of its content
    between quotes, and no later search returns that memory. *)
Theorem forgetByQuery_forgets this now query_text tag_given db :
  let tag := default (this_containerTag this) tag_given in
  tag <> EmptyString -> unique_ids db ->
  Forall (fun m => id m <> EmptyString) (memories db) ->
  match client_search this query_text 5 tag_given db with
  | [] =>
      forgetByQuery this now query_text tag_given db
      = (Resolved {| success := false; message := "No matching memory found to forget." |}, db)
  | target :: _ =>
      let db' := snd (forgetByQuery this now query_text tag_given db) in
      fst (forgetByQuery this now query_text tag_given db)
      = Resolved {| success := true;
                    message := ("Forgot: " ++ quoted (substring 0 100 (sr_content target)))%string |}
      /\ (exists m, In m (memories db) /\ id m = sr_id target /\
                    content m = sr_content target /\ active_of tag m = true) /\
      memories db'
      = map (fun m => if String.eqb (id m) (sr_id target) then set_forgotten_at now m else m)
            (memories db) /\
      profile_facts db' = profile_facts db /\
      forall req, ~ In (sr_id target) (map result_id (results (search_memories req db')))
  end.
Proof.
  intros tag Htag Hu Hids. unfold forgetByQuery.
  destruct (client_search this query_text 5 tag_given db) as [|target rest] eqn:Es;
    [reflexivity|].
  destruct (client_search_head _ _ _ _ _ _ _ Es) as (m & Hin & Hid & Hc & Hmem & Hf & Ht).
  fold tag in Ht. rewrite (resolve_tag_given tag Htag) in Ht.
  assert (Hne : sr_id target <> EmptyString).
  { rewrite <- Hid. exact (proj1 (Forall_forall _ _) Hids m Hin). }
  rewrite (deleteMemory_eq this now (sr_id target) tag_given db Hne). fold tag.
  cbn [fst snd memories profile_facts]. rewrite Hmem, or_string_self.
  assert (Hsame : forall r, In r (memories db) ->
             forgets (sr_id target) tag r = String.eqb (id r) (sr_id target)).
  { intros r Hr. unfold forgets. destruct (String.eqb_spec (id r) (sr_id target)) as [E|E];
      [|reflexivity].
    assert (r = m)
      by (apply (unique_id_row (memories db)); [exact Hu|assumption|assumption|congruence]).
    subst r. rewrite Ht, String.eqb_refl. reflexivity. }
  split; [reflexivity|]. split.
  { exists m. unfold active_of. rewrite Ht, Hf, String.eqb_refl. auto. }
  split; [apply map_ext_in; intros r Hr; rewrite (Hsame r Hr); reflexivity|].
  split; [reflexivity|].
  intros req H. apply in_map_iff in H. destruct H as (r & Er & Hr).
  apply search_result_source in Hr. destruct Hr as (m0 & Hin0 & Eid & Hf0 & _).
  cbn [memories] in Hin0.
  destruct (forgotten_rows now tag (sr_id target) (memories db) m m0 Hu Hin Hid Ht Hin0)
    as [Hf' _]; congruence.
Qed.

Lemma forgetByQuery_forgets_witness :
  let tag := default (this_containerTag work_client) None in
  tag <> EmptyString /\ unique_ids two_dark_modes /\
  Forall (fun m => id m <> EmptyString) (memories two_dark_modes) /\
  match client_search work_client "dark mode" 5 None two_dark_modes with
  | [] =>
      forgetByQuery work_client "2024-03-01T00:00:00.000Z" "dark mode" None two_dark_modes
      = (Resolved {| success := false; message := "No matching memory found to forget." |},
         two_dark_modes)
  | target :: _ =>
      let db' := snd (forgetByQuery work_client "2024-03-01T00:00:00.000Z" "dark mode" None
                        two_dark_modes) in
      fst (forgetByQuery work_client "2024-03-01T00:00:00.000Z" "dark mode" None two_dark_modes)
      = Resolved {| success := true;
                    message := ("Forgot: " ++ quoted (substring 0 100 (sr_content target)))%string |}
      /\ (exists m, In m (memories two_dark_modes) /\ id m = sr_id target /\
                    content m = sr_content target /\ active_of tag m = true) /\
      memories db'
      = map (fun m => if String.eqb (id m) (sr_id target)
                      then set_forgotten_at "2024-03-01T00:00:00.000Z" m else m)
            (memories two_dark_modes) /\
      profile_facts db' = profile_facts two_dark_modes /\
      forall req, ~ In (sr_id target) (map result_id (results (search_memories req db')))
  end.
Proof.
  assert (N : Forall (fun m => id m <> EmptyString) (memories two_dark_modes))
    by (repeat constructor; discriminate).
  cbv zeta. split; [discriminate|]. split; [exact two_dark_modes_unique_ids|].
  split; [exact N|].
  apply (forgetByQuery_forgets work_client "2024-03-01T00:00:00.000Z" "dark mode" None
           two_dark_modes); [discriminate|exact two_dark_modes_unique_ids|exact N].
Defined.

(** X25. [forgetByQuery] with the empty string for a container: the
    search reads container [default], but the forget that follows names the
    empty container, which no stored memory has; so, when the search finds
    something, success is reported and the database is left as it was, the
    memory found still active. *)
Theorem forgetByQuery_empty_container this now query_text tag_given db target rest :
  default (this_containerTag this) tag_given = EmptyString ->
  Forall (fun m => id m <> EmptyString /\ container_tag m <> EmptyString) (memories db) ->
  client_search this query_text 5 tag_given db = target :: rest ->
  forgetByQuery this now query_text tag_given db
  = (Resolved {| success := true;
                 message := ("Forgot: " ++ quoted (substring 0 100 (sr_content target)))%string |},
     db) /\
  exists m, In m (memories db) /\ id m = sr_id target /\ forgotten_at m = None /\
            container_tag m = "default".
Proof.
  intros Htag Hrows Es. unfold forgetByQuery. rewrite Es.
  destruct (client_search_head _ _ _ _ _ _ _ Es) as (m & Hin & Hid & Hc & Hmem & Hf & Ht).
  rewrite Htag in Ht. change (resolve_tag (Some EmptyString) None) with "default" in Ht.
  assert (Hne : sr_id target <> EmptyString).
  { rewrite <- Hid. exact (proj1 (proj1 (Forall_forall _ _) Hrows m Hin)). }
  rewrite (deleteMemory_eq this now (sr_id target) tag_given db Hne), Htag.
  rewrite Hmem, or_string_self. split; [|exists m; auto].
  f_equal. destruct db as [mems facts]. cbn [memories profile_facts] in *. f_equal.
  rewrite <- (map_id mems) at 2. apply map_ext_in. intros r Hr.
  unfold forgets. destruct (String.eqb_spec (container_tag r) EmptyString) as [E|_].
  - exfalso. exact (proj2 (proj1 (Forall_forall _ _) Hrows r Hr) E).
  - rewrite andb_false_r. reflexivity.
Qed.

Lemma forgetByQuery_empty_container_witness :
  default (this_containerTag untagged_client) None = EmptyString /\
  Forall (fun m => id m <> EmptyString /\ container_tag m <> EmptyString)
         (memories one_default_memory) /\
  client_search untagged_client "dark mode" 5 None one_default_memory
  = [ {| sr_id := "m1"; sr_content := "I prefer dark mode"; sr_memory := "I prefer dark mode";
         sr_similarity := computeSimilarity "dark mode" "I prefer dark mode";
         sr_metadata := None |} ] /\
  forgetByQuery untagged_client "2024-03-01T00:00:00.000Z" "dark mode" None one_default_memory
  = (Resolved {| success := true;
                 message := ("Forgot: " ++ quoted (substring 0 100 "I prefer dark mode"))%string |},
     one_default_memory) /\
  exists m, In m (memories one_default_memory) /\ id m = "m1" /\ forgotten_at m = None /\
            container_tag m = "default".
Proof.
  assert (N : Forall (fun m => id m <> EmptyString /\ container_tag m <> EmptyString)
                     (memories one_default_memory))
    by (repeat constructor; discriminate).
  assert (S : client_search untagged_client "dark mode" 5 None one_default_memory
              = [ {| sr_id := "m1"; sr_content := "I prefer dark mode";
                     sr_memory := "I prefer dark mode";
                     sr_similarity := computeSimilarity "dark mode" "I prefer dark mode";
                     sr_metadata := None |} ])
    by (vm_compute; reflexivity).
  split; [reflexivity|]. split; [exact N|]. split; [exact S|].
  exact (forgetByQuery_empty_container untagged_client "2024-03-01T00:00:00.000Z" "dark mode"
           None one_default_memory _ _ eq_refl N S).
Defined.

(** ** The tool [supermemory_forget] *)

Lemma forgetByQuery_message this now query_text tag_given db result db' :
  forgetByQuery this now query_text tag_given db = (Resolved result, db') ->
  message result = "No matching memory found to forget." \/
  exists preview, message result = ("Forgot: " ++ preview)%string.
Proof.
  unfold forgetByQuery. destruct (client_search this query_text 5 tag_given db) as [|t rest].
  - intros E. injection E as <- _. left. reflexivity.
  - destruct (deleteMemory this now (sr_id t) tag_given db) as [[b|st e] db1]; intros E;
      [|discriminate].
    injection E as <- _. right. eexists. reflexivity.
Qed.

(** X26. The forget tool, given an id, answers [Forgot memory <id>]
    whatever the database holds, and leaves the database as the forget by
    id of the server leaves it; the id takes precedence over a query; and the
    answer [Memory not found] is never given, with or without an id. *)
Theorem forget_tool_answers this now params db :
  (forall i, truthy (param_id params) = Some i ->
     forget_tool this now params db
     = (Resolved ("Forgot memory " ++ i)%string,
        snd (forget now {| forget_containerTag :=
                             default (this_containerTag this) (param_containerTag params);
                           forget_id := Some i; forget_content := None |} db))) /\
  fst (forget_tool this now params db) <> Resolved "Memory not found".
Proof.
  unfold forget_tool. destruct (truthy (param_id params)) as [i|] eqn:Ei.
  - pose proof (truthy_nonempty _ _ Ei) as Hne.
    rewrite (deleteMemory_eq this now i (param_containerTag params) db Hne).
    cbn [forgotten fst]. split; [|discriminate].
    intros j Ej. injection Ej as <-. f_equal.
    rewrite (surjective_pairing (forget now _ db)). cbn [snd].
    pose proof (forget_by_id_memories now
                  (default (this_containerTag this) (param_containerTag params)) i None db Hne)
      as Hm.
    destruct (snd (forget now _ db)) as [mems facts] eqn:Es. cbn [memories] in Hm. subst mems.
    f_equal.
    assert (Hf : profile_facts (snd (forget now
                   {| forget_containerTag :=
                        default (this_containerTag this) (param_containerTag params);
                      forget_id := Some i; forget_content := None |} db)) = profile_facts db).
    { unfold forget. cbn [forget_id truthy].
      destruct (String.eqb_spec i EmptyString); [contradiction|reflexivity]. }
    rewrite Es in Hf. cbn [profile_facts] in Hf. congruence.
  - split; [discriminate|].
    destruct (truthy (param_query params)) as [query_text|]; [|cbn; discriminate].
    destruct (forgetByQuery this now query_text (param_containerTag params) db)
      as [[result|st e] db'] eqn:E; cbn [fst]; [|discriminate].
    destruct (forgetByQuery_message _ _ _ _ _ _ _ E) as [H|[preview H]]; rewrite H; discriminate.
Qed.

(** ** The client: wiping its container *)

Lemma active_in_one tag m : active_in [tag] m = active_of tag m.
Proof. unfold active_in, active_of. cbn [existsb]. rewrite orb_false_r. reflexivity. Qed.

Lemma wipe_listing this db :
  map doc_id
      (list_memories
         (documents_list {| list_containerTags := Some [this_containerTag this];
                            list_limit := Some 1000%Z; list_page := None |} db))
  = map id (select_active 1000 (this_containerTag this) db).
Proof.
  unfold documents_list, select_active, sql_limit_offset.
  cbn [list_memories list_containerTags list_limit list_page default].
  rewrite map_map. cbn [doc_id to_document]. change (Z.to_nat ((1 - 1) * 1000)) with 0.
  change (1000 <? 0)%Z with false. cbn [skipn]. change (Z.to_nat 1000) with 1000.
  do 3 f_equal. apply filter_ext. intros m. apply active_in_one.
Qed.

Lemma listed_rows rows mems m :
  NoDup (map id mems) -> incl rows mems -> In m mems ->
  listed (map id rows) m = true <-> In m rows.
Proof.
  intros Hn Hincl Hm. rewrite listed_In, in_map_iff. split.
  - intros (r & E & Hr).
    assert (r = m) by (apply (unique_id_row mems); auto). subst r. exact Hr.
  - intros Hr. exists m. auto.
Qed.

Lemma filter_absorb {A} (p p' : A -> bool) l :
  (forall x, In x l -> p x = true -> p' x = true) ->
  filter p (filter p' l) = filter p l.
Proof.
  intros H. induction l as [|x l IH]; cbn [filter]; [reflexivity|].
  assert (IH' : filter p (filter p' l) = filter p l)
    by (apply IH; intros y Hy; apply H; right; exact Hy).
  destruct (p x) eqn:P.
  - rewrite (H x (or_introl eq_refl) P). cbn [filter]. rewrite P, IH'. reflexivity.
  - destruct (p' x); cbn [filter]; rewrite ?P; exact IH'.
Qed.

Lemma wipeAllMemories_eq this db :
  wipeAllMemories this db
  = (Resolved (List.length (select_active 1000 (this_containerTag this) db)),
     {| memories :=
          filter (fun m => negb (listed (map id (select_active 1000 (this_containerTag this) db))
                                        m))
                 (memories db);
        profile_facts := profile_facts db |}).
Proof.
  unfold wipeAllMemories. rewrite wipe_listing, length_map.
  destruct (select_active 1000 (this_containerTag this) db) as [|r rows] eqn:E.
  - cbn [List.length Nat.eqb map]. f_equal. destruct db as [mems facts].
    cbn [memories profile_facts]. f_equal. symmetry. apply filter_everything. reflexivity.
  - cbn [List.length Nat.eqb]. rewrite deleteBulk_eq. reflexivity.
Qed.

(** X27. [wipeAllMemories] deletes the 1000 most recent active memories
    of the container of the client, and reports their number, which, with
    [id] a primary key, is the number of rows gone.  It never removes a
    memory that is forgotten or of another container, nor a profile fact; if
    the container holds at most 1000 active memories, none is left. *)
Theorem wipeAllMemories_removes this db :
  unique_ids db ->
  let tag := this_containerTag this in
  let db' := snd (wipeAllMemories this db) in
  fst (wipeAllMemories this db)
  = Resolved (Nat.min 1000 (List.length (filter (active_of tag) (memories db)))) /\
  List.length (memories db') + Nat.min 1000 (List.length (filter (active_of tag) (memories db)))
  = List.length (memories db) /\
  profile_facts db' = profile_facts db /\
  filter (fun m => negb (active_of tag m)) (memories db')
  = filter (fun m => negb (active_of tag m)) (memories db) /\
  (List.length (filter (active_of tag) (memories db)) <= 1000 ->
   memories db' = filter (fun m => negb (active_of tag m)) (memories db)).
Proof.
  intros Hu tag db'. subst db'. rewrite wipeAllMemories_eq. fold tag.
  cbn [fst snd memories profile_facts].
  set (rows := select_active 1000 tag db).
  assert (Hlen : List.length rows
                 = Nat.min 1000 (List.length (filter (active_of tag) (memories db)))).
  { subst rows. unfold select_active. fold (active_of tag). rewrite length_firstn.
    unfold order_by_created_at_desc. rewrite stable_sort_length. reflexivity. }
  assert (Hrows : forall m, In m rows -> In m (memories db) /\ active_of tag m = true).
  { intros m Hm. apply select_active_In in Hm. destruct Hm as (H1 & H2 & H3).
    split; [exact H1|]. unfold active_of. rewrite H2, H3, String.eqb_refl. reflexivity. }
  assert (Hl : forall m, In m (memories db) -> (listed (map id rows) m = true <-> In m rows)).
  { intros m Hm. apply (listed_rows rows (memories db)); [exact Hu| |exact Hm].
    intros r Hr. apply Hrows, Hr. }
  split; [rewrite Hlen; reflexivity|]. split.
  { pose proof (filter_partition_length (listed (map id rows)) (memories db)) as Hp.
    assert (Hc : List.length (filter (listed (map id rows)) (memories db)) = List.length rows).
    { rewrite <- (length_map id (filter _ _)), <- (length_map id rows).
      apply NoDup_same_length.
      - apply NoDup_map_filter. exact Hu.
      - apply select_active_ids. exact Hu.
      - intros i. rewrite !in_map_iff. split.
        + intros (m & <- & Hm). apply filter_In in Hm. destruct Hm as [Hm Hlm].
          exists m. split; [reflexivity|]. apply Hl; assumption.
        + intros (m & <- & Hm). exists m. split; [reflexivity|]. apply filter_In.
          split; [apply Hrows, Hm|]. apply Hl; [apply Hrows, Hm|exact Hm]. }
    lia. }
  split; [reflexivity|]. split.
  { apply filter_absorb. intros m Hm Ha.
    destruct (listed (map id rows) m) eqn:El; [|reflexivity].
    apply Hl in El; [|exact Hm]. apply Hrows in El. destruct El as [_ El].
    rewrite El in Ha. discriminate. }
  intros Hcap. apply filter_ext_in. intros m Hm. f_equal.
  destruct (active_of tag m) eqn:Ea.
  - apply Hl; [exact Hm|]. subst rows. apply select_active_small; assumption.
  - destruct (listed (map id rows) m) eqn:El; [|reflexivity].
    apply Hl in El; [|exact Hm]. apply Hrows in El. destruct El. congruence.
Qed.

Lemma wipeAllMemories_removes_witness :
  unique_ids two_dark_modes /\
  let tag := this_containerTag work_client in
  let db' := snd (wipeAllMemories work_client two_dark_modes) in
  fst (wipeAllMemories work_client two_dark_modes)
  = Resolved (Nat.min 1000 (List.length (filter (active_of tag) (memories two_dark_modes)))) /\
  List.length (memories db')
  + Nat.min 1000 (List.length (filter (active_of tag) (memories two_dark_modes)))
  = List.length (memories two_dark_modes) /\
  profile_facts db' = profile_facts two_dark_modes /\
  filter (fun m => negb (active_of tag m)) (memories db')
  = filter (fun m => negb (active_of tag m)) (memories two_dark_modes) /\
  (List.length (filter (active_of tag) (memories two_dark_modes)) <= 1000 ->
   memories db' = filter (fun m => negb (active_of tag m)) (memories two_dark_modes)).
Proof.
  split; [exact two_dark_modes_unique_ids|].
  apply (wipeAllMemories_removes work_client two_dark_modes). exact two_dark_modes_unique_ids.
Defined.

(** ** The configuration of the plugin *)

Lemma string_length_map f s : String.length (string_map f s) = String.length s.
Proof. induction s as [|c s IH]; cbn; congruence. Qed.

Lemma string_length_app a b : String.length (a ++ b) = String.length a + String.length b.
Proof. induction a as [|c a IH]; cbn; congruence. Qed.

Lemma string_forall_app p a b :
  string_forall p (a ++ b) = string_forall p a && string_forall p b.
Proof.
  induction a as [|c a IH]; cbn [append string_forall]; [reflexivity|].
  rewrite IH. apply andb_assoc.
Qed.

Lemma replace_non_tag_chars s : string_forall is_tag_char (replace_non_tag s) = true.
Proof.
  unfold replace_non_tag. rewrite string_forall_map. apply string_forall_all.
  intros c. destruct (is_tag_char c) eqn:E; [exact E|reflexivity].
Qed.

Lemma replace_non_tag_clean s : string_forall is_tag_char s = true -> replace_non_tag s = s.
Proof.
  unfold replace_non_tag. induction s as [|c s IH]; cbn [string_forall string_map];
    [reflexivity|].
  intros H. apply andb_prop in H. destruct H as [H1 H2]. rewrite H1, (IH H2). reflexivity.
Qed.

(** X28. Without a configured container, the plugin works in the
    container [openclaw_] followed by the host name, each character of which
    that is not a letter, a digit or an underscore has become an underscore:
    the tag is not empty, consists of such characters only, is nine
    characters longer than the host name, and a host name of such characters
    is kept as it is. *)
Theorem parseConfig_default_tag hostname pluginConfig :
  field plugin_containerTag pluginConfig = None ->
  let tag := config_containerTag (parseConfig hostname pluginConfig) in
  prefix "openclaw_" tag = true /\
  string_forall is_tag_char tag = true /\
  String.length tag = 9 + String.length hostname /\
  tag <> EmptyString /\
  (string_forall is_tag_char hostname = true -> tag = ("openclaw_" ++ hostname)%string).
Proof.
  intros H tag. subst tag. unfold parseConfig. cbn [config_containerTag]. rewrite H.
  cbn [default]. split; [|split; [|split; [|split]]].
  - apply prefix_app. eexists. reflexivity.
  - rewrite string_forall_app, replace_non_tag_chars. reflexivity.
  - rewrite string_length_app. unfold replace_non_tag. rewrite string_length_map. reflexivity.
  - discriminate.
  - intros Hh. rewrite (replace_non_tag_clean hostname Hh). reflexivity.
Qed.

Lemma parseConfig_default_tag_witness :
  field plugin_containerTag None = None /\
  let tag := config_containerTag (parseConfig "my-laptop.local" None) in
  prefix "openclaw_" tag = true /\
  string_forall is_tag_char tag = true /\
  String.length tag = 9 + String.length "my-laptop.local" /\
  tag <> EmptyString /\
  (string_forall is_tag_char "my-laptop.local" = true ->
   tag = ("openclaw_" ++ "my-laptop.local")%string).
Proof.
  split; [reflexivity|]. apply (parseConfig_default_tag "my-laptop.local" None). reflexivity.
Defined.

(** X29. A parsed configuration that is handed over again is read back
    unchanged, on whatever host: [parseConfig] fills the fields that are
    missing and alters none that is given, not even an empty container
    tag. *)
Theorem parseConfig_round_trip hostname hostname' pluginConfig :
  parseConfig hostname' (Some (as_plugin_config (parseConfig hostname pluginConfig)))
  = parseConfig hostname pluginConfig /\
  forall cfg, plugin_containerTag cfg = Some EmptyString ->
              config_containerTag (parseConfig hostname (Some cfg)) = EmptyString.
Proof.
  split; [reflexivity|]. intros cfg H. unfold parseConfig. cbn [config_containerTag field].
  rewrite H. reflexivity.
Qed.

(** ** The category of a memory *)

(** X30. [detectCategory] answers one of eight of the ten categories:
    [fact] and [other] are never detected.  It does not see the case of the
    text, and a text that holds one of the words of a preference is a
    preference, whatever else it holds. *)
Theorem detectCategory_categories text :
  In (detectCategory text)
     ["preference"; "reminder"; "task"; "project"; "person"; "place"; "event"; "note"] /\
  In (detectCategory text) MEMORY_CATEGORIES /\
  detectCategory text <> "fact" /\ detectCategory text <> "other" /\
  detectCategory (toLowerCase text) = detectCategory text /\
  (forall w, In w ["prefer"; "like"; "favorite"; "usually"; "always"; "never";
                   "my default"; "my setting"] ->
             includes (toLowerCase text) w = true -> detectCategory text = "preference").
Proof.
  split; [|split; [|split; [|split; [|split]]]].
  5:{ unfold detectCategory. rewrite toLowerCase_idempotent. reflexivity. }
  5:{ intros w Hw Hi. unfold detectCategory.
      replace (test_any _ (toLowerCase text)) with true; [reflexivity|].
      symmetry. apply existsb_exists. exists w. auto. }
  all: unfold detectCategory;
    repeat match goal with
           | |- context [if ?b then _ else _] => destruct b
           end; cbn; intuition discriminate.
Qed.
